(** * PROTEUS particle-transport engine: a shallow embedding

    The development follows the JavaScript sources of the repository:
    - the tracer library, the release manager and the tracer-aware
      [ParticleEngine3D] (modules [Tracer], [ReleasePhase],
      [ReleaseManager], [Engine]),
    - the earlier [ParticleEngine3D] of [web/particleEngine.js], which is the
      variant that decays the stored mass (module [WebEngine]),
    - the streaming current loader of [web/hycomLoader.js] (module [Hycom]),
    - the playback half of [web/bakeSystem.js] (module [Bake]).

    Numbers.  A JavaScript number that the sources keep finite is modelled
    as an exact rational ([Q]): rounding is not modelled, and [==] is the
    equality of rationals.  Two quantities leave the finite numbers on
    inputs the sources accept, and are modelled by [jsnum], a rational, an
    infinity or NaN: the rate of a release phase, a quotient whose divisor
    [end - start] may be zero, with the particle count and the fractional
    accumulator computed from it; and the depth of a particle, to which the
    vertical-motion stage adds a multiple of [Math.sqrt(2 * kz * dtSeconds)],
    NaN for a step backwards in time.  The zero of [Q] has no sign, and a
    quotient by zero takes the sign of its dividend.  The land sentinel of
    the velocity arrays has a type of its own with an explicit NaN
    ([jsfloat], module [Hycom]).  In the remaining quotients, which stay in
    [Q], a zero divisor gives 0; the statements that speak about the value
    of such a quotient come with the facts that make its divisor nonzero.
    Functions of the JavaScript [Math] object that have no rational
    counterpart ([Math.sqrt], [Math.pow]) and the services the engine
    borrows (current loader, diffusivity loader) are interfaces
    ([Class]es); the random draws of a step are explicit arguments.

    Shared objects.  Arrays that the sources hand out by reference (the
    velocity arrays of a loaded day, the particle array of a stored
    snapshot) are modelled by a store and references into it, so that
    "the same array" and "an array built anew" are different values. *)

From Stdlib Require Import QArith Qround Qminmax Qabs Lia Lqa.
From stdpp Require Import gmap strings list sorting.

Open Scope Q_scope.

#[global] Instance Q_eq_dec : EqDecision Q.
Proof. solve_decision. Defined.

(** ** JavaScript numbers *)

(** [a < b] on finite numbers. *)
Definition Qltb (a b : Q) : bool := negb (Qle_bool b a).

(** [a || b] on finite numbers: [b] when [a] is falsy, that is zero. *)
Definition jsOr (a b : Q) : Q := if Qeq_bool a 0 then b else a.

(** A number that need not be finite: a rational, an infinity or NaN.
    Finite operands produce the other three values in a quotient whose
    divisor is zero and in the square root of a negative number.  There is
    one zero, which counts as the positive one. *)
Inductive jsnum :=
| Num (q : Q)
| PosInf
| NegInf
| NaN.

Definition jsneg (a : jsnum) : jsnum :=
  match a with
  | Num q => Num (- q)
  | PosInf => NegInf
  | NegInf => PosInf
  | NaN => NaN
  end.

(** [a + b] *)
Definition jsadd (a b : jsnum) : jsnum :=
  match a, b with
  | Num x, Num y => Num (x + y)
  | NaN, _ | _, NaN => NaN
  | PosInf, NegInf | NegInf, PosInf => NaN
  | PosInf, _ | _, PosInf => PosInf
  | NegInf, _ | _, NegInf => NegInf
  end.

(** [a - b] *)
Definition jssub (a b : jsnum) : jsnum := jsadd a (jsneg b).

(** An infinity times the finite number [x]. *)
Definition scaleInf (inf : jsnum) (x : Q) : jsnum :=
  if Qeq_bool x 0 then NaN else if Qltb 0 x then inf else jsneg inf.

(** [a * b] *)
Definition jsmul (a b : jsnum) : jsnum :=
  match a, b with
  | Num x, Num y => Num (x * y)
  | NaN, _ | _, NaN => NaN
  | Num x, inf | inf, Num x => scaleInf inf x
  | PosInf, PosInf | NegInf, NegInf => PosInf
  | PosInf, NegInf | NegInf, PosInf => NegInf
  end.

(** [a / b] *)
Definition jsdiv (a b : jsnum) : jsnum :=
  match a, b with
  | Num x, Num y =>
      if Qeq_bool y 0
      then if Qeq_bool x 0 then NaN else if Qltb 0 x then PosInf else NegInf
      else Num (x / y)
  | NaN, _ | _, NaN => NaN
  | Num _, _ => Num 0
  | inf, Num y => if Qltb y 0 then jsneg inf else inf
  | _, _ => NaN
  end.

(** [a < b]; false when either side is NaN. *)
Definition jsltb (a b : jsnum) : bool :=
  match a, b with
  | Num x, Num y => Qltb x y
  | NaN, _ | _, NaN => false
  | NegInf, NegInf | PosInf, _ | _, NegInf => false
  | NegInf, _ | _, PosInf => true
  end.

(** [a <= b]; false when either side is NaN. *)
Definition jsleb (a b : jsnum) : bool :=
  match a, b with
  | Num x, Num y => Qle_bool x y
  | NaN, _ | _, NaN => false
  | NegInf, _ | _, PosInf => true
  | PosInf, _ | _, NegInf => false
  end.

(** [Math.min(a, b)] and [Math.max(a, b)]: NaN when either argument is. *)
Definition jsmin (a b : jsnum) : jsnum :=
  match a, b with
  | NaN, _ | _, NaN => NaN
  | _, _ => if jsleb a b then a else b
  end.

Definition jsmax (a b : jsnum) : jsnum :=
  match a, b with
  | NaN, _ | _, NaN => NaN
  | _, _ => if jsleb a b then b else a
  end.

(** [Math.abs(a)] *)
Definition jsabs (a : jsnum) : jsnum :=
  match a with
  | Num q => Num (Qabs q)
  | PosInf | NegInf => PosInf
  | NaN => NaN
  end.

(** [Math.floor(a)] *)
Definition jsfloor (a : jsnum) : jsnum :=
  match a with
  | Num q => Num (inject_Z (Qfloor q))
  | _ => a
  end.

(** ** Tracer library *)

Module Tracer.
Record Behavior := {
  diffusivityScale : Q;
  settlingVelocity : Q;
  decay : bool;
  sigmaH : Q;
  sigmaV : Q
}.

Record t := {
  id : string;
  name : string;
  halfLife : Q;          (* days *)
  defaultTotal : Q;      (* Bq *)
  behavior : Behavior
}.
End Tracer.

Definition cs137 : Tracer.t :=
  {| Tracer.id := "cs137"; Tracer.name := "Cesium-137"; Tracer.halfLife := 11000;
     Tracer.defaultTotal := 16200000000000000;  (* 16.2e15, "16.2 PBq" *)
     Tracer.behavior :=
       {| Tracer.diffusivityScale := 1.0; Tracer.settlingVelocity := 0;
          Tracer.decay := true; Tracer.sigmaH := 10000; Tracer.sigmaV := 50 |} |}.

Definition cs134 : Tracer.t :=
  {| Tracer.id := "cs134"; Tracer.name := "Cesium-134"; Tracer.halfLife := 750;
     Tracer.defaultTotal := 1800000000000000;  (* 1.8e15 *)
     Tracer.behavior :=
       {| Tracer.diffusivityScale := 1.0; Tracer.settlingVelocity := 0;
          Tracer.decay := true; Tracer.sigmaH := 10000; Tracer.sigmaV := 50 |} |}.

Definition i131 : Tracer.t :=
  {| Tracer.id := "i131"; Tracer.name := "Iodine-131"; Tracer.halfLife := 8;
     Tracer.defaultTotal := 10000000000000000;  (* 10.0e15 *)
     Tracer.behavior :=
       {| Tracer.diffusivityScale := 1.1; Tracer.settlingVelocity := 0;
          Tracer.decay := true; Tracer.sigmaH := 12000; Tracer.sigmaV := 60 |} |}.

Definition sr90 : Tracer.t :=
  {| Tracer.id := "sr90"; Tracer.name := "Strontium-90"; Tracer.halfLife := 10500;
     Tracer.defaultTotal := 200000000000000;  (* 0.2e15 *)
     Tracer.behavior :=
       {| Tracer.diffusivityScale := 0.9; Tracer.settlingVelocity := 0;
          Tracer.decay := true; Tracer.sigmaH := 9000; Tracer.sigmaV := 45 |} |}.

Definition h3 : Tracer.t :=
  {| Tracer.id := "h3"; Tracer.name := "Tritium"; Tracer.halfLife := 4500;
     Tracer.defaultTotal := 1000000000000000;  (* 1.0e15 *)
     Tracer.behavior :=
       {| Tracer.diffusivityScale := 1.1; Tracer.settlingVelocity := 0;
          Tracer.decay := true; Tracer.sigmaH := 11000; Tracer.sigmaV := 55 |} |}.

(** The object literal [TracerLibrary], keyed by tracer id. *)
Definition TracerLibrary : gmap string Tracer.t :=
  list_to_map [("cs137", cs137); ("cs134", cs134); ("i131", i131);
               ("sr90", sr90); ("h3", h3)].

(** [TracerLibrary[tracerId] || TracerLibrary.cs137] *)
Definition lookupTracer (tracerId : string) : Tracer.t :=
  default cs137 (TracerLibrary !! tracerId).

(** ** Release phases and the release manager *)

Module ReleasePhase.
Record t := make {
  start : Q;
  end_ : Q;
  total : Q;
  unit : string
}.

Definition getDuration (p : t) : Q := end_ p - start p.

(** [this.total / this.getDuration()]: an infinity or NaN for a phase that
    ends on the day it starts. *)
Definition getRate (p : t) : jsnum := jsdiv (Num (total p)) (Num (getDuration p)).
#[global] Instance ReleasePhase_eq_dec : EqDecision ReleasePhase.t.
Proof. solve_decision. Defined.
End ReleasePhase.

Module ReleaseManager.
Import ReleasePhase.

Record t := make {
  tracerId : string;
  tracer : Tracer.t;
  phases : list ReleasePhase.t
}.

(** [addDefaultPhase]: the tracer's inventory divided by [1e9], stored in
    a phase whose unit is the string ['PBq']. *)
Definition addDefaultPhase (m : t) : t :=
  let defaultTotal := Tracer.defaultTotal (tracer m) / 1000000000 in
  {| tracerId := tracerId m; tracer := tracer m;
     phases := [ReleasePhase.make 0 30 defaultTotal "PBq"] |}.

(** The constructor. *)
Definition new (tracerId : string) : t :=
  addDefaultPhase
    {| tracerId := tracerId; tracer := lookupTracer tracerId; phases := [] |}.

(** [conversions[fromUnit] || 1] *)
Definition conversions (fromUnit : string) : Q :=
  if decide (fromUnit = "GBq") then 1
  else if decide (fromUnit = "TBq") then 1000
  else if decide (fromUnit = "PBq") then 1000000
  else 1.

Definition convertToBaseUnit (amount : Q) (fromUnit : string) : Q :=
  amount * conversions fromUnit.

(** The day is inside the phase, both ends included. *)
Definition contains (day : Q) (p : ReleasePhase.t) : bool :=
  Qle_bool (start p) day && Qle_bool day (end_ p).

Fixpoint rateIn (ps : list ReleasePhase.t) (day : Q) : jsnum :=
  match ps with
  | [] => Num 0
  | p :: ps' => if contains day p then getRate p else rateIn ps' day
  end.

Definition getRateAtDay (m : t) (day : Q) : jsnum := rateIn (phases m) day.

Definition getTotalRelease (m : t) : Q :=
  fold_left (fun total p => total + ReleasePhase.total p * convertToBaseUnit 1 (unit p))
            (phases m) 0.

Definition getParticleActivity (m : t) (totalParticles : Q) : Q :=
  getTotalRelease m / totalParticles.
End ReleaseManager.


(** ** The [Math] object *)

(** The part of the [Math] object that has no rational counterpart;
    [Math_sqrt] is the square root of a number that is not negative. *)
Class JsMath := {
  Math_sqrt : Q → Q;
  Math_pow : Q → Q → Q;
  Math_log10 : Q → Q;
  Math_PI : Q
}.

(** [Math.sqrt(a)]: NaN for a negative number. *)
Definition jssqrt `{!JsMath} (a : jsnum) : jsnum :=
  match a with
  | Num q => if Qltb q 0 then NaN else Num (Math_sqrt q)
  | PosInf => PosInf
  | NegInf | NaN => NaN
  end.

(** ** The services the engine borrows *)

Module Velocity.
Record t := make { u : Q; v : Q; found : bool }.
Definition none : t := make 0 0 false.
End Velocity.

Module Diffusivity.
Record t := make { K : Q; found : bool }.
End Diffusivity.

(** Outcome of [findNearestOceanCell]: the promise is rejected, resolves to
    [null], or resolves to a cell. *)
Inductive OceanSearch :=
| SearchThrows
| SearchNull
| SearchCell (lon lat : Q) (actualDepth : option Q).

(** [window.streamingHycomLoader3D] as the engine sees it.  A rejected
    promise is [None]; the depth handed to [getVelocityAt] is [None] when
    the engine passes [undefined] (no depth level is known).  The depth in
    metres handed to [isOcean] and [findNearestOceanCell] is the particle's,
    which may be NaN. *)
Module HycomLoader.
Class t := {
  isOcean : Q → Q → jsnum → Q → bool;
  getVelocityAt : Q → Q → option Q → Q → option Velocity.t;
  findNearestOceanCell : Q → Q → jsnum → Q → Q → OceanSearch;
  getAvailableDepths : list Q
}.
End HycomLoader.

(** [window.streamingEkeLoader]. *)
Module EkeLoader.
Class t := {
  getDiffusivityAt : Q → Q → Q → option Diffusivity.t
}.
End EkeLoader.

(** ** The particle engine ([ParticleEngine3D], tracer-aware variant) *)

Module Engine.

Module HistoryPoint.
Record t := make { x : Q; y : Q; depth : jsnum }.
End HistoryPoint.

Module Particle.
Record t := make {
  id : nat;
  active : bool;
  tracerId : string;
  x : Q;
  y : Q;
  depth : jsnum;
  concentration : Q;
  age : Q;
  mass : Q;
  history : list HistoryPoint.t;
  velocityU : Q;
  velocityV : Q;
  releaseDay : option Q
}.

Definition setXY (p : t) (x' y' : Q) : t :=
  make (id p) (active p) (tracerId p) x' y' (depth p) (concentration p)
       (age p) (mass p) (history p) (velocityU p) (velocityV p) (releaseDay p).
Definition setDepth (p : t) (d : jsnum) : t :=
  make (id p) (active p) (tracerId p) (x p) (y p) d (concentration p)
       (age p) (mass p) (history p) (velocityU p) (velocityV p) (releaseDay p).
Definition setVelocity (p : t) (vu vv : Q) : t :=
  make (id p) (active p) (tracerId p) (x p) (y p) (depth p) (concentration p)
       (age p) (mass p) (history p) vu vv (releaseDay p).
Definition setAge (p : t) (a : Q) : t :=
  make (id p) (active p) (tracerId p) (x p) (y p) (depth p) (concentration p)
       a (mass p) (history p) (velocityU p) (velocityV p) (releaseDay p).
Definition setConcentration (p : t) (c : Q) : t :=
  make (id p) (active p) (tracerId p) (x p) (y p) (depth p) c
       (age p) (mass p) (history p) (velocityU p) (velocityV p) (releaseDay p).
Definition setHistory (p : t) (h : list HistoryPoint.t) : t :=
  make (id p) (active p) (tracerId p) (x p) (y p) (depth p) (concentration p)
       (age p) (mass p) h (velocityU p) (velocityV p) (releaseDay p).
End Particle.

Module Stats.
Record t := make {
  totalReleased : Z;
  totalDecayed : Z;
  simulationDays : Q;
  activeParticles : nat;
  particlesOnLand : Z;
  maxDepthReached : jsnum;
  maxConcentration : Q
}.

Definition zero : t := make 0 0 0 0 0 (Num 0) 0.

Definition setParticlesOnLand (s : t) (n : Z) : t :=
  make (totalReleased s) (totalDecayed s) (simulationDays s)
       (activeParticles s) n (maxDepthReached s) (maxConcentration s).
Definition setMaxDepthReached (s : t) (d : jsnum) : t :=
  make (totalReleased s) (totalDecayed s) (simulationDays s)
       (activeParticles s) (particlesOnLand s) d (maxConcentration s).
Definition setMaxConcentration (s : t) (c : Q) : t :=
  make (totalReleased s) (totalDecayed s) (simulationDays s)
       (activeParticles s) (particlesOnLand s) (maxDepthReached s) c.
Definition setTotalReleased (s : t) (n : Z) : t :=
  make n (totalDecayed s) (simulationDays s)
       (activeParticles s) (particlesOnLand s) (maxDepthReached s)
       (maxConcentration s).
Definition setActiveParticles (s : t) (n : nat) : t :=
  make (totalReleased s) (totalDecayed s) (simulationDays s)
       n (particlesOnLand s) (maxDepthReached s) (maxConcentration s).
Definition setSimulationDays (s : t) (d : Q) : t :=
  make (totalReleased s) (totalDecayed s) d
       (activeParticles s) (particlesOnLand s) (maxDepthReached s)
       (maxConcentration s).
End Stats.

Record LandSettings := {
  land_enabled : bool;
  maxLandSearchRadius : Q;
  revertOnLand : bool
}.

Record RK4Settings := {
  rk4_enabled : bool;
  timeStepSafety : Q;
  maxStepsPerDay : Q;
  adaptiveStepSize : bool;
  minStepSize : Q;
  maxStepSize : Q
}.

Record Params := {
  diffusivityScale : Q;
  simulationSpeed : Q;
  verticalMixing : bool;
  ekmanPumping : Q;
  convectiveMixing : Q
}.

Record KzLayer := { layer_depth : Q; kz : Q }.

Record KzProfile := {
  mixedLayer : KzLayer;
  upperOcean : KzLayer;
  deepOcean : KzLayer
}.

(** The engine object.  [dayOfYear] stands for [currentSimulationTime],
    which the engine only reads through [getDayOfYear]; it is [None] when
    the date is invalid and the day of year is NaN. *)
Record t := make {
  REFERENCE_LON : Q;
  REFERENCE_LAT : Q;
  LON_SCALE : Q;
  LAT_SCALE : Q;
  tracerId : string;
  tracer : Tracer.t;
  releaseManager : ReleaseManager.t;
  particleCount : nat;
  UNITS_PER_PARTICLE : Q;
  landSettings : LandSettings;
  rk4Enabled : bool;
  rk4Settings : RK4Settings;
  params : Params;
  kzProfile : KzProfile;
  isRunning : bool;
  dayOfYear : option Z;
  particleFraction : jsnum;
  stats : Stats.t;
  particlePool : list Particle.t
}.

Definition setStats (e : t) (s : Stats.t) : t :=
  make (REFERENCE_LON e) (REFERENCE_LAT e) (LON_SCALE e) (LAT_SCALE e)
       (tracerId e) (tracer e) (releaseManager e) (particleCount e)
       (UNITS_PER_PARTICLE e) (landSettings e) (rk4Enabled e) (rk4Settings e)
       (params e) (kzProfile e) (isRunning e) (dayOfYear e)
       (particleFraction e) s (particlePool e).
Definition setPool (e : t) (pool : list Particle.t) : t :=
  make (REFERENCE_LON e) (REFERENCE_LAT e) (LON_SCALE e) (LAT_SCALE e)
       (tracerId e) (tracer e) (releaseManager e) (particleCount e)
       (UNITS_PER_PARTICLE e) (landSettings e) (rk4Enabled e) (rk4Settings e)
       (params e) (kzProfile e) (isRunning e) (dayOfYear e)
       (particleFraction e) (stats e) pool.
Definition setParticleFraction (e : t) (f : jsnum) : t :=
  make (REFERENCE_LON e) (REFERENCE_LAT e) (LON_SCALE e) (LAT_SCALE e)
       (tracerId e) (tracer e) (releaseManager e) (particleCount e)
       (UNITS_PER_PARTICLE e) (landSettings e) (rk4Enabled e) (rk4Settings e)
       (params e) (kzProfile e) (isRunning e) (dayOfYear e)
       f (stats e) (particlePool e).
Definition setIsRunning (e : t) (b : bool) : t :=
  make (REFERENCE_LON e) (REFERENCE_LAT e) (LON_SCALE e) (LAT_SCALE e)
       (tracerId e) (tracer e) (releaseManager e) (particleCount e)
       (UNITS_PER_PARTICLE e) (landSettings e) (rk4Enabled e) (rk4Settings e)
       (params e) (kzProfile e) b (dayOfYear e)
       (particleFraction e) (stats e) (particlePool e).
Definition setReleaseManager (e : t) (m : ReleaseManager.t) : t :=
  make (REFERENCE_LON e) (REFERENCE_LAT e) (LON_SCALE e) (LAT_SCALE e)
       (tracerId e) (tracer e) m (particleCount e)
       (UNITS_PER_PARTICLE e) (landSettings e) (rk4Enabled e) (rk4Settings e)
       (params e) (kzProfile e) (isRunning e) (dayOfYear e)
       (particleFraction e) (stats e) (particlePool e).
Definition setUnitsPerParticle (e : t) (units : Q) : t :=
  make (REFERENCE_LON e) (REFERENCE_LAT e) (LON_SCALE e) (LAT_SCALE e)
       (tracerId e) (tracer e) (releaseManager e) (particleCount e)
       units (landSettings e) (rk4Enabled e) (rk4Settings e)
       (params e) (kzProfile e) (isRunning e) (dayOfYear e)
       (particleFraction e) (stats e) (particlePool e).
Record PathCheck := {
  safe : bool;
  lastValidX : Q;
  lastValidY : Q
}.

(** Result of [rk4Integrate] and [eulerIntegrate]. *)
Record Integration := {
  int_x : Q;
  int_y : Q;
  int_depth : jsnum;
  u_avg : Q;
  v_avg : Q
}.

(** The random draws one loop iteration consumes: the two calls of
    [gaussianRandom] in [applyDiffusion], then the one in
    [applyVerticalMotion]. *)
Record Draws := {
  diffusionX : Q;
  diffusionY : Q;
  verticalZ : Q
}.

Section Operations.
Context `{!JsMath} `{!HycomLoader.t} `{!EkeLoader.t}.

(** [this.REFERENCE_LON + (x / this.LON_SCALE)] and its latitude twin. *)
Definition lonOf (e : t) (x : Q) : Q := REFERENCE_LON e + x / LON_SCALE e.
Definition latOf (e : t) (y : Q) : Q := REFERENCE_LAT e + y / LAT_SCALE e.

Definition calculateParticleCalibration (e : t) : t :=
  let totalRelease := ReleaseManager.getTotalRelease (releaseManager e) in
  setUnitsPerParticle e
    (if Qltb 0 totalRelease
     then ReleaseManager.getParticleActivity (releaseManager e)
            (inject_Z (Z.of_nat (particleCount e)))
     else 1).

Definition initializeParticlePool (e : t) (numParticles : nat) : t :=
  setPool e
    (particlePool e ++
     map (λ i, Particle.make i false (tracerId e) 0 0 (Num 0) 0 0
                 (jsOr (UNITS_PER_PARTICLE e) 1) [] 0 0 None)
         (seq 0 numParticles)).

(** The constructor.  [startLocation] is [(lon, lat)] when given;
    [startDayOfYear] is what [getDayOfYear] yields for the start time. *)
Definition new (numParticles : nat) (tracerId : string)
    (startLocation : option (Q * Q)) (startDayOfYear : option Z) : t :=
  let e :=
    make (from_option fst 142.03 startLocation)
         (from_option snd 37.42 startLocation)
         88.8 111.0
         tracerId (lookupTracer tracerId) (ReleaseManager.new tracerId)
         numParticles 0
         {| land_enabled := true; maxLandSearchRadius := 10.0;
            revertOnLand := true |}
         false
         {| rk4_enabled := false; timeStepSafety := 0.5; maxStepsPerDay := 100;
            adaptiveStepSize := true; minStepSize := 0.01;
            maxStepSize := 0.25 |}
         {| diffusivityScale := 1.0; simulationSpeed := 1.0;
            verticalMixing := true; ekmanPumping := 0.000005;
            convectiveMixing := 0.000002 |}
         {| mixedLayer := {| layer_depth := 50; kz := 0.01 |};
            upperOcean := {| layer_depth := 200; kz := 0.0001 |};
            deepOcean := {| layer_depth := 1000; kz := 0.00005 |} |}
         false startDayOfYear (Num 0) Stats.zero [] in
  initializeParticlePool (calculateParticleCalibration e) numParticles.

Definition startSimulation (e : t) : t :=
  if isRunning e then e
  else
    let e := setIsRunning e true in
    if (Stats.totalReleased (stats e) =? 0)%Z
    then setStats e (Stats.setSimulationDays (stats e) 0)
    else e.

Definition pauseSimulation (e : t) : t :=
  if isRunning e then setIsRunning e false else e.

Definition resumeSimulation (e : t) : t :=
  if isRunning e then e else setIsRunning e true.

Definition resetSimulation (e : t) : t :=
  let e := setStats (setIsRunning e false) Stats.zero in
  setPool e
    (map (λ p, Particle.make (Particle.id p) false (Particle.tracerId p)
                 0 0 (Num 0) 0 0 (jsOr (UNITS_PER_PARTICLE e) 1) [] 0 0
                 (Particle.releaseDay p))
         (particlePool e)).

Definition calculateConcentration (e : t) (p : Particle.t) : Q :=
  if decide (Particle.tracerId p = "") then 0
  else
    let tracer := default (tracer e) (TracerLibrary !! Particle.tracerId p) in
    let sigmaH := jsOr (Tracer.sigmaH (Tracer.behavior tracer)) 10000 in
    let sigmaV := jsOr (Tracer.sigmaV (Tracer.behavior tracer)) 50 in
    let volume := Math_pow (2 * Math_PI) 1.5 * sigmaH * sigmaH * sigmaV in
    let mass :=
      if Tracer.decay (Tracer.behavior tracer)
         && negb (Qeq_bool (Tracer.halfLife tracer) 0)
      then Particle.mass p
           * Math_pow 0.5 (Particle.age p / Tracer.halfLife tracer)
      else Particle.mass p in
    mass / Qmax volume 1000000000.

(** Activation of one pool entry in [releaseParticles]; [z0], [z1] are the
    two Box-Muller normals drawn for it. *)
Definition activate (e : t) (p : Particle.t) (z0 z1 : Q) : Particle.t :=
  let SIGMA := 20.0 / LON_SCALE e in
  let lon := REFERENCE_LON e + z0 * SIGMA in
  let lat := REFERENCE_LAT e + z1 * SIGMA in
  let clampedLon :=
    Qmax (REFERENCE_LON e - SIGMA * 3) (Qmin (REFERENCE_LON e + SIGMA * 3) lon) in
  let clampedLat :=
    Qmax (REFERENCE_LAT e - SIGMA * 3) (Qmin (REFERENCE_LAT e + SIGMA * 3) lat) in
  let x := (clampedLon - REFERENCE_LON e) * LON_SCALE e in
  let y := (clampedLat - REFERENCE_LAT e) * LAT_SCALE e in
  let p1 :=
    Particle.make (Particle.id p) true (tracerId e) x y (Num 0)
      (Particle.concentration p) 0 (jsOr (UNITS_PER_PARTICLE e) 1)
      (Particle.history p) (Particle.velocityU p) (Particle.velocityV p)
      (Particle.releaseDay p) in
  Particle.make (Particle.id p) true (tracerId e) x y (Num 0)
    (calculateConcentration e p1) 0 (jsOr (UNITS_PER_PARTICLE e) 1)
    [HistoryPoint.make x y (Num 0)] (Particle.velocityU p) (Particle.velocityV p)
    (Some (Stats.simulationDays (stats e))).

(** The loop of [releaseParticles] over the inactive pool entries, in pool
    order; [normals] gives the draws by particle id.  The loop stops when
    [released >= count]. *)
Fixpoint releaseLoop (e : t) (count : jsnum) (normals : nat → Q * Q)
    (pool : list Particle.t) (released : Z) : list Particle.t * Z :=
  match pool with
  | [] => ([], released)
  | p :: rest =>
      if Particle.active p then
        let '(rest', n) := releaseLoop e count normals rest released in
        (p :: rest', n)
      else if jsleb count (Num (inject_Z released)) then (p :: rest, released)
      else
        let '(z0, z1) := normals (Particle.id p) in
        let '(rest', n) := releaseLoop e count normals rest (released + 1) in
        (activate e p z0 z1 :: rest', n)
  end.

Definition releaseParticles (e : t) (count : jsnum) (normals : nat → Q * Q) : t :=
  let '(pool, released) := releaseLoop e count normals (particlePool e) 0 in
  setStats (setPool e pool)
    (Stats.setTotalReleased (stats e)
       (Stats.totalReleased (stats e) + released)).

Definition activePhase (e : t) : option ReleasePhase.t :=
  List.find (ReleaseManager.contains (Stats.simulationDays (stats e)))
            (ReleaseManager.phases (releaseManager e)).

Definition executeContinuousRelease (e : t) (deltaDays : Q)
    (normals : nat → Q * Q) : t :=
  if negb (isRunning e) then e
  else
    match activePhase e with
    | None => e
    | Some phase =>
        if Qeq_bool (UNITS_PER_PARTICLE e) 0
           || Qle_bool (UNITS_PER_PARTICLE e) 0 then e
        else
          let rate := ReleasePhase.getRate phase in
          let rate :=
            if decide (ReleasePhase.unit phase = "PBq")
            then jsmul rate (Num 1000000)
            else rate in
          let rateInBase :=
            if decide (ReleasePhase.unit phase = "TBq")
            then jsmul rate (Num 1000)
            else rate in
          let particlesPerDay := jsdiv rateInBase (Num (UNITS_PER_PARTICLE e)) in
          let increment := jsmul particlesPerDay (Num deltaDays) in
          let e := setParticleFraction e (jsadd (particleFraction e) increment) in
          let wholeParticles := jsfloor (particleFraction e) in
          if jsleb (Num 1) wholeParticles then
            releaseParticles
              (setParticleFraction e (jssub (particleFraction e) wholeParticles))
              wholeParticles normals
          else e
    end.

(** *** Land interaction *)

Definition checkLandInteraction (e : t) (p : Particle.t)
    (prevX prevY : Q) (prevDepth : jsnum) (currentSimDay : Q)
    : Particle.t * bool :=
  if negb (land_enabled (landSettings e)) then (p, false)
  else
    let lon := lonOf e (Particle.x p) in
    let lat := latOf e (Particle.y p) in
    let depthMeters := jsmul (Particle.depth p) (Num 1000) in
    if HycomLoader.isOcean lon lat depthMeters currentSimDay then (p, false)
    else
      let p := Particle.setDepth (Particle.setXY p prevX prevY) prevDepth in
      match HycomLoader.findNearestOceanCell lon lat depthMeters currentSimDay
              (maxLandSearchRadius (landSettings e)) with
      | SearchThrows => (p, true)
      | SearchNull => (p, true)
      | SearchCell cellLon cellLat _ =>
          let targetX := (cellLon - REFERENCE_LON e) * LON_SCALE e in
          let targetY := (cellLat - REFERENCE_LAT e) * LAT_SCALE e in
          let dx := targetX - prevX in
          let dy := targetY - prevY in
          let dist := Math_sqrt (dx * dx + dy * dy) in
          if Qltb 0 dist
          then (Particle.setXY p (prevX + dx * 0.5) (prevY + dy * 0.5), true)
          else (p, true)
      end.

(** The loop of [_checkPathToOcean] from sample [s] on, with [remaining]
    samples to go; [None] when the loop runs to its end. *)
Fixpoint checkPathFrom (e : t) (startX startY stepX stepY : Q) (depth : jsnum)
    (currentSimDay : Q) (remaining : nat) (s : Z) : option PathCheck :=
  match remaining with
  | O => None
  | S remaining' =>
      let testX := startX + stepX * inject_Z s in
      let testY := startY + stepY * inject_Z s in
      let testLon := REFERENCE_LON e + testX / LON_SCALE e in
      let testLat := REFERENCE_LAT e + testY / LAT_SCALE e in
      if HycomLoader.isOcean testLon testLat (jsmul depth (Num 1000))
           currentSimDay
      then checkPathFrom e startX startY stepX stepY depth currentSimDay
             remaining' (s + 1)
      else Some {| safe := false;
                   lastValidX := startX + stepX * inject_Z (s - 1);
                   lastValidY := startY + stepY * inject_Z (s - 1) |}
  end.

Definition _checkPathToOcean (e : t) (startX startY endX endY : Q)
    (depth : jsnum) (currentSimDay : Q) (steps : nat) : PathCheck :=
  let stepX := (endX - startX) / inject_Z (Z.of_nat steps) in
  let stepY := (endY - startY) / inject_Z (Z.of_nat steps) in
  match checkPathFrom e startX startY stepX stepY depth currentSimDay steps 1 with
  | Some r => r
  | None => {| safe := true; lastValidX := endX; lastValidY := endY |}
  end.

(** *** Diffusion *)

Definition applyDiffusion (e : t) (p : Particle.t) (deltaDays currentSimDay : Q)
    (g1 g2 : Q) : Particle.t :=
  let lon := lonOf e (Particle.x p) in
  let lat := latOf e (Particle.y p) in
  match EkeLoader.getDiffusivityAt lon lat currentSimDay with
  | None => p
  | Some ekeResult =>
      let K_m2_s :=
        if Diffusivity.found ekeResult
        then Diffusivity.K ekeResult * diffusivityScale (params e)
             * jsOr (Tracer.diffusivityScale (Tracer.behavior (tracer e))) 1.0
        else 20 * diffusivityScale (params e) in
      let stepScale_km := Math_sqrt (2 * K_m2_s * deltaDays * 86400) / 1000 in
      Particle.setXY p (Particle.x p + stepScale_km * g1)
                       (Particle.y p + stepScale_km * g2)
  end.

(** *** Vertical motion *)

Definition getVerticalDiffusivity (e : t) (depthMeters : jsnum) : Q :=
  if jsltb depthMeters (Num (layer_depth (mixedLayer (kzProfile e))))
  then kz (mixedLayer (kzProfile e))
  else if jsltb depthMeters (Num (layer_depth (upperOcean (kzProfile e))))
  then kz (upperOcean (kzProfile e))
  else kz (deepOcean (kzProfile e)).

(** [dayOfYear < 90 || dayOfYear > 335]; false when the day of year is NaN. *)
Definition isWinter (e : t) : bool :=
  match dayOfYear e with
  | Some d => (d <? 90)%Z || (335 <? d)%Z
  | None => false
  end.

(** The vertical displacement in metres of [applyVerticalMotion]: NaN when
    [2 * kz * dtSeconds] is negative. *)
Definition verticalDisplacement (e : t) (p : Particle.t) (dtSeconds g : Q)
    : jsnum :=
  let settling := jsOr (Tracer.settlingVelocity (Tracer.behavior (tracer e))) 0 in
  let depthM := jsmul (Particle.depth p) (Num 1000) in
  let kz := getVerticalDiffusivity e depthM in
  let randomDz := jsmul (jssqrt (Num (2 * kz * dtSeconds))) (Num g) in
  let settlingDz := settling * dtSeconds / 86400 in
  let deterministicDz := ekmanPumping (params e) * dtSeconds in
  let deterministicDz :=
    if isWinter e && jsltb depthM (Num 100)
    then deterministicDz + convectiveMixing (params e) * dtSeconds
    else deterministicDz in
  jsadd (jsadd randomDz (Num settlingDz)) (Num deterministicDz).

Definition applyVerticalMotion (e : t) (st : Stats.t) (p : Particle.t)
    (dtSeconds g : Q) : Particle.t * Stats.t :=
  let depth1 :=
    jsadd (Particle.depth p)
      (jsdiv (verticalDisplacement e p dtSeconds g) (Num 1000)) in
  let p := Particle.setDepth p (jsmax (Num 0) (jsmin depth1 (Num 1.0))) in
  let currentDepthM := jsmul (Particle.depth p) (Num 1000) in
  if jsltb (Stats.maxDepthReached st) currentDepthM
  then (p, Stats.setMaxDepthReached st currentDepthM)
  else (p, st).

(** *** Velocity lookup and integrators *)

(** The loop that picks the depth level nearest to [depthMeters]; the first
    minimum wins. *)
Fixpoint closestDepth (depthMeters : jsnum) (depths : list Q)
    (minDiff : jsnum) (targetDepth : Q) : Q :=
  match depths with
  | [] => targetDepth
  | d :: rest =>
      let diff := jsabs (jssub depthMeters (Num d)) in
      if jsltb diff minDiff then closestDepth depthMeters rest diff d
      else closestDepth depthMeters rest minDiff targetDepth
  end.

(** [targetDepth] after the loop; [None] stands for [undefined], when no
    depth level is known. *)
Definition snapDepth (depthMeters : jsnum) : option Q :=
  match HycomLoader.getAvailableDepths with
  | [] => None
  | d0 :: _ =>
      Some (closestDepth depthMeters HycomLoader.getAvailableDepths
              (jsabs (jssub depthMeters (Num d0))) d0)
  end.

(** The engine's own [getVelocityAt]: snap the depth, ask the loader, and
    turn a failure into [found: false]. *)
Definition getVelocityAt (lon lat : Q) (depthMeters : jsnum) (simDay : Q)
    : Velocity.t :=
  default Velocity.none
    (HycomLoader.getVelocityAt lon lat (snapDepth depthMeters) simDay).

Definition calculateOptimalStepSize (e : t) (p : Particle.t) (totalDeltaDays : Q) : Q :=
  if negb (adaptiveStepSize (rk4Settings e))
  then Qmin totalDeltaDays (maxStepSize (rk4Settings e))
  else
    let speed :=
      Math_sqrt (Particle.velocityU p * Particle.velocityU p
                 + Particle.velocityV p * Particle.velocityV p) in
    let charTime := 1.0 / (speed + 0.001) in
    let optimalStep :=
      Qmin (charTime * timeStepSafety (rk4Settings e)) (maxStepSize (rk4Settings e)) in
    let optimalStep := Qmax optimalStep (minStepSize (rk4Settings e)) in
    Qmin optimalStep totalDeltaDays.

Definition eulerIntegrate (e : t) (p : Particle.t) (deltaDays currentSimDay : Q)
    : Integration :=
  let lon := lonOf e (Particle.x p) in
  let lat := latOf e (Particle.y p) in
  let depthMeters := jsmul (Particle.depth p) (Num 1000) in
  let velocity := getVelocityAt lon lat depthMeters currentSimDay in
  if Velocity.found velocity then
    {| int_x := Particle.x p + deltaDays * Velocity.u velocity * 86.4;
       int_y := Particle.y p + deltaDays * Velocity.v velocity * 86.4;
       int_depth := Particle.depth p;
       u_avg := Velocity.u velocity;
       v_avg := Velocity.v velocity |}
  else
    {| int_x := Particle.x p; int_y := Particle.y p;
       int_depth := Particle.depth p; u_avg := 0; v_avg := 0 |}.

(** One RK4 sub-step; [None] is [{ success: false }]. *)
Definition rk4Step (e : t) (x y : Q) (depth : jsnum) (h currentTime : Q)
    : option Integration :=
  let depthMeters := jsmul depth (Num 1000) in
  let lon1 := lonOf e x in
  let lat1 := latOf e y in
  let k1 := getVelocityAt lon1 lat1 depthMeters currentTime in
  if negb (Velocity.found k1) then None
  else
    let pick (k : Velocity.t) (f : Velocity.t → Q) : Q :=
      if Velocity.found k then f k else f k1 in
    let x2 := x + h / 2 * Velocity.u k1 * 86.4 in
    let y2 := y + h / 2 * Velocity.v k1 * 86.4 in
    let k2 := getVelocityAt (lonOf e x2) (latOf e y2) depthMeters
                (currentTime + h / 2) in
    let x3 := x + h / 2 * pick k2 Velocity.u * 86.4 in
    let y3 := y + h / 2 * pick k2 Velocity.v * 86.4 in
    let k3 := getVelocityAt (lonOf e x3) (latOf e y3) depthMeters
                (currentTime + h / 2) in
    let x4 := x + h * pick k3 Velocity.u * 86.4 in
    let y4 := y + h * pick k3 Velocity.v * 86.4 in
    let k4 := getVelocityAt (lonOf e x4) (latOf e y4) depthMeters
                (currentTime + h) in
    let u_avg := (Velocity.u k1 + 2 * pick k2 Velocity.u
                  + 2 * pick k3 Velocity.u + pick k4 Velocity.u) / 6 in
    let v_avg := (Velocity.v k1 + 2 * pick k2 Velocity.v
                  + 2 * pick k3 Velocity.v + pick k4 Velocity.v) / 6 in
    Some {| int_x := x + h * u_avg * 86.4;
            int_y := y + h * v_avg * 86.4;
            int_depth := depth;
            u_avg := u_avg; v_avg := v_avg |}.

(** The sub-step loop of [rk4Integrate]: [remaining] iterations from
    iteration number [step]; [None] when a sub-step fails. *)
Fixpoint rk4Loop (e : t) (actualStep currentSimDay : Q) (remaining : nat) (step : Z)
    (x y : Q) (depth : jsnum) (totalU totalV : Q)
    : option (Q * Q * jsnum * Q * Q) :=
  match remaining with
  | O => Some (x, y, depth, totalU, totalV)
  | S remaining' =>
      let stepTime := currentSimDay + inject_Z step * actualStep in
      match rk4Step e x y depth actualStep stepTime with
      | None => None
      | Some result =>
          rk4Loop e actualStep currentSimDay remaining' (step + 1)
            (int_x result) (int_y result) (int_depth result)
            (totalU + u_avg result) (totalV + v_avg result)
      end
  end.

Definition rk4Integrate (e : t) (p : Particle.t) (deltaDays currentSimDay : Q)
    : Integration :=
  let h := calculateOptimalStepSize e p deltaDays in
  let steps := Qceiling (deltaDays / h) in
  let actualStep := deltaDays / inject_Z steps in
  match rk4Loop e actualStep currentSimDay (Z.to_nat steps) 0
          (Particle.x p) (Particle.y p) (Particle.depth p) 0 0 with
  | None => eulerIntegrate e p deltaDays currentSimDay
  | Some (x, y, depth, totalU, totalV) =>
      {| int_x := x; int_y := y; int_depth := depth;
         u_avg := totalU / inject_Z steps;
         v_avg := totalV / inject_Z steps |}
  end.

Definition enableRK4 (e : t) (enable : bool) : t :=
  make (REFERENCE_LON e) (REFERENCE_LAT e) (LON_SCALE e) (LAT_SCALE e)
       (tracerId e) (tracer e) (releaseManager e) (particleCount e)
       (UNITS_PER_PARTICLE e) (landSettings e) enable
       {| rk4_enabled := enable;
          timeStepSafety := timeStepSafety (rk4Settings e);
          maxStepsPerDay := maxStepsPerDay (rk4Settings e);
          adaptiveStepSize := adaptiveStepSize (rk4Settings e);
          minStepSize := minStepSize (rk4Settings e);
          maxStepSize := maxStepSize (rk4Settings e) |}
       (params e) (kzProfile e) (isRunning e) (dayOfYear e)
       (particleFraction e) (stats e) (particlePool e).

(** *** The update loop *)

(** Advection of one particle: the first block of the loop body of
    [updateParticles]; [velocity] is the particle's entry of the batched
    lookup. *)
Definition advectionStage (e : t) (p : Particle.t) (velocity : Velocity.t)
    (deltaDays currentSimDay : Q) : Particle.t :=
  let prevX := Particle.x p in
  let prevY := Particle.y p in
  if rk4Enabled e && rk4_enabled (rk4Settings e) then
    let rk4Result := rk4Integrate e p deltaDays currentSimDay in
    let pathCheck :=
      _checkPathToOcean e prevX prevY (int_x rk4Result) (int_y rk4Result)
        (Particle.depth p) currentSimDay 5 in
    if safe pathCheck then
      Particle.setVelocity
        (Particle.setDepth
           (Particle.setXY p (int_x rk4Result) (int_y rk4Result))
           (int_depth rk4Result))
        (jsOr (u_avg rk4Result) 0) (jsOr (v_avg rk4Result) 0)
    else
      Particle.setVelocity
        (Particle.setXY p (lastValidX pathCheck) (lastValidY pathCheck)) 0 0
  else if Velocity.found velocity then
    let newX := Particle.x p + Velocity.u velocity * 86.4 * deltaDays in
    let newY := Particle.y p + Velocity.v velocity * 86.4 * deltaDays in
    let pathCheck :=
      _checkPathToOcean e prevX prevY newX newY (Particle.depth p)
        currentSimDay 5 in
    if safe pathCheck then
      Particle.setVelocity (Particle.setXY p newX newY)
        (Velocity.u velocity) (Velocity.v velocity)
    else Particle.setXY p (lastValidX pathCheck) (lastValidY pathCheck)
  else p.

(** Diffusion of one particle: the second block of the loop body. *)
Definition diffusionStage (e : t) (p : Particle.t) (deltaDays currentSimDay : Q)
    (g1 g2 : Q) : Particle.t :=
  if Qltb 0.01 (diffusivityScale (params e)) then
    let beforeX := Particle.x p in
    let beforeY := Particle.y p in
    let p := applyDiffusion e p deltaDays currentSimDay g1 g2 in
    let diffCheck :=
      _checkPathToOcean e beforeX beforeY (Particle.x p) (Particle.y p)
        (Particle.depth p) currentSimDay 5 in
    if negb (safe diffCheck) then Particle.setXY p beforeX beforeY else p
  else p.

(** [p.history.push(...)] followed by the shift that keeps eight entries. *)
Definition pushHistory (p : Particle.t) : Particle.t :=
  let h :=
    Particle.history p
    ++ [HistoryPoint.make (Particle.x p) (Particle.y p) (Particle.depth p)] in
  Particle.setHistory p (if (8 <? length h)%nat then tail h else h).

(** One iteration of the inner loop of [updateParticles]. *)
Definition processParticle (e : t) (st : Stats.t) (p : Particle.t)
    (velocity : Velocity.t) (draws : Draws) (deltaDays currentSimDay : Q)
    : Particle.t * Stats.t :=
  let dtSeconds := deltaDays * 86400 in
  let prevX := Particle.x p in
  let prevY := Particle.y p in
  let prevDepth := Particle.depth p in
  let p := advectionStage e p velocity deltaDays currentSimDay in
  let p := diffusionStage e p deltaDays currentSimDay
             (diffusionX draws) (diffusionY draws) in
  let '(p, onLand) := checkLandInteraction e p prevX prevY prevDepth currentSimDay in
  if onLand then
    (p, Stats.setParticlesOnLand st (Stats.particlesOnLand st + 1))
  else
    let '(p, st) :=
      if verticalMixing (params e)
      then applyVerticalMotion e st p dtSeconds (verticalZ draws)
      else (p, st) in
    let p := Particle.setAge p (Particle.age p + deltaDays) in
    let p := Particle.setConcentration p (calculateConcentration e p) in
    let st :=
      if Qltb (Stats.maxConcentration st) (Particle.concentration p)
      then Stats.setMaxConcentration st (Particle.concentration p)
      else st in
    let p :=
      if Qltb 1 (Qabs (Particle.x p - prevX))
         || Qltb 1 (Qabs (Particle.y p - prevY))
      then pushHistory p else p in
    (p, st).

(** The loops of [updateParticles].  Every iteration reads and writes one
    particle and the counters only, so the buckets of [groupParticlesByDepth]
    are not represented: the pool is traversed in order, and [velocities] and
    [draws] give each particle, by id, its entry of the batched velocity
    lookup and its random draws. *)
Fixpoint updateLoop (e : t) (st : Stats.t) (pool : list Particle.t)
    (velocities : nat → Velocity.t) (draws : nat → Draws)
    (deltaDays currentSimDay : Q) : list Particle.t * Stats.t :=
  match pool with
  | [] => ([], st)
  | p :: rest =>
      let '(p, st) :=
        if Particle.active p
        then processParticle e st p (velocities (Particle.id p))
               (draws (Particle.id p)) deltaDays currentSimDay
        else (p, st) in
      let '(rest, st) :=
        updateLoop e st rest velocities draws deltaDays currentSimDay in
      (p :: rest, st)
  end.

Definition getActiveParticles (e : t) : list Particle.t :=
  filter (λ p, Particle.active p = true) (particlePool e).

Definition updateParticles (e : t) (deltaDays : Q)
    (velocities : nat → Velocity.t) (draws : nat → Draws) : t :=
  if negb (isRunning e) then e
  else if (length (getActiveParticles e) =? 0)%nat then e
  else
    let st := Stats.setParticlesOnLand (stats e) 0 in
    let currentSimDay := Stats.simulationDays (stats e) in
    let '(pool, st) :=
      updateLoop e st (particlePool e) velocities draws deltaDays currentSimDay in
    let e := setPool e pool in
    setStats e (Stats.setActiveParticles st (length (getActiveParticles e))).

(** [update(forcedDeltaDays)] with a forced step, as the bake calls it. *)
Definition update (e : t) (deltaDays : Q) (normals : nat → Q * Q)
    (velocities : nat → Velocity.t) (draws : nat → Draws) : t :=
  if negb (isRunning e) then e
  else
    let e := executeContinuousRelease e deltaDays normals in
    let e := updateParticles e deltaDays velocities draws in
    setStats e
      (Stats.setSimulationDays (stats e)
         (Stats.simulationDays (stats e) + deltaDays)).

(** *** Parameter control *)

Definition setReleasePhases (e : t) (phases : list ReleasePhase.t) : t :=
  calculateParticleCalibration
    (setReleaseManager e
       {| ReleaseManager.tracerId := ReleaseManager.tracerId (releaseManager e);
          ReleaseManager.tracer := ReleaseManager.tracer (releaseManager e);
          ReleaseManager.phases := phases |}).

(** [setParameter(name, value)]: only the names present in [params] are
    accepted; [verticalMixing] is read for its truth value. *)
Definition setParameter (e : t) (name : string) (value : Q) : t :=
  let ps := params e in
  let withParams (ps' : Params) : t :=
    make (REFERENCE_LON e) (REFERENCE_LAT e) (LON_SCALE e) (LAT_SCALE e)
         (tracerId e) (tracer e) (releaseManager e) (particleCount e)
         (UNITS_PER_PARTICLE e) (landSettings e) (rk4Enabled e) (rk4Settings e)
         ps' (kzProfile e) (isRunning e) (dayOfYear e)
         (particleFraction e) (stats e) (particlePool e) in
  if decide (name = "diffusivityScale") then
    withParams {| diffusivityScale := value;
                  simulationSpeed := simulationSpeed ps;
                  verticalMixing := verticalMixing ps;
                  ekmanPumping := ekmanPumping ps;
                  convectiveMixing := convectiveMixing ps |}
  else if decide (name = "simulationSpeed") then
    withParams {| diffusivityScale := diffusivityScale ps;
                  simulationSpeed := value;
                  verticalMixing := verticalMixing ps;
                  ekmanPumping := ekmanPumping ps;
                  convectiveMixing := convectiveMixing ps |}
  else if decide (name = "verticalMixing") then
    withParams {| diffusivityScale := diffusivityScale ps;
                  simulationSpeed := simulationSpeed ps;
                  verticalMixing := negb (Qeq_bool value 0);
                  ekmanPumping := ekmanPumping ps;
                  convectiveMixing := convectiveMixing ps |}
  else if decide (name = "ekmanPumping") then
    withParams {| diffusivityScale := diffusivityScale ps;
                  simulationSpeed := simulationSpeed ps;
                  verticalMixing := verticalMixing ps;
                  ekmanPumping := value;
                  convectiveMixing := convectiveMixing ps |}
  else if decide (name = "convectiveMixing") then
    withParams {| diffusivityScale := diffusivityScale ps;
                  simulationSpeed := simulationSpeed ps;
                  verticalMixing := verticalMixing ps;
                  ekmanPumping := ekmanPumping ps;
                  convectiveMixing := value |}
  else e.

(** *** Vocabulary for the statements *)

(** The engines that the public operations can produce from a freshly
    constructed one by steps that do not go back in time, whatever the
    services answer and the draws are. *)
Inductive Reachable : t → Prop :=
| reach_new numParticles tracerId startLocation startDayOfYear :
    Reachable (new numParticles tracerId startLocation startDayOfYear)
| reach_start e : Reachable e → Reachable (startSimulation e)
| reach_pause e : Reachable e → Reachable (pauseSimulation e)
| reach_resume e : Reachable e → Reachable (resumeSimulation e)
| reach_reset e : Reachable e → Reachable (resetSimulation e)
| reach_release e count normals :
    Reachable e → Reachable (releaseParticles e count normals)
| reach_update e deltaDays normals velocities draws :
    0 <= deltaDays →
    Reachable e → Reachable (update e deltaDays normals velocities draws)
| reach_setReleasePhases e phases :
    Reachable e → Reachable (setReleasePhases e phases)
| reach_enableRK4 e enable : Reachable e → Reachable (enableRK4 e enable)
| reach_setParameter e name value :
    Reachable e → Reachable (setParameter e name value).

(** The depth band of a particle: the depth is a number between 0 and 1. *)
Definition depthInBand (p : Particle.t) : Prop :=
  ∃ d, Particle.depth p = Num d ∧ 0 <= d ∧ d <= 1.

(** No layer of the profile has a negative vertical diffusivity. *)
Definition kzNotNegative (e : t) : Prop :=
  0 <= kz (mixedLayer (kzProfile e)) ∧ 0 <= kz (upperOcean (kzProfile e)) ∧
  0 <= kz (deepOcean (kzProfile e)).

(** The particle is in the depth band and not deeper than [m] metres. *)
Definition belowRecord (m : Q) (p : Particle.t) : Prop :=
  ∃ d, Particle.depth p = Num d ∧ 0 <= d ∧ d <= 1 ∧ d * 1000 <= m.

(** The [k]-th sample of the path check between [(startX, startY)] and
    [(endX, endY)] with [steps] steps is the point
    [start + k * (end - start) / steps]; [sampleIsOcean] is the answer of
    [isOcean] there. *)
Definition sampleIsOcean (e : t) (startX startY endX endY : Q) (depth : jsnum)
    (currentSimDay : Q) (steps : nat) (k : Z) : bool :=
  let stepX := (endX - startX) / inject_Z (Z.of_nat steps) in
  let stepY := (endY - startY) / inject_Z (Z.of_nat steps) in
  HycomLoader.isOcean
    (REFERENCE_LON e + (startX + stepX * inject_Z k) / LON_SCALE e)
    (REFERENCE_LAT e + (startY + stepY * inject_Z k) / LAT_SCALE e)
    (jsmul depth (Num 1000)) currentSimDay.
End Operations.
End Engine.

(** ** The particle engine of [web/particleEngine.js] ([ParticleEngine3D])

    The earlier variant of the engine: a single isotope, a stored mass that
    decays in the update loop, and a path check of two samples. *)

Module WebEngine.

Module HistoryPoint.
Record t := make { x : Q; y : Q; depth : jsnum }.
End HistoryPoint.

Module Particle.
Record t := make {
  id : nat;
  active : bool;
  isotope : string;
  x : Q;
  y : Q;
  depth : jsnum;
  sigma_h : Q;
  sigma_v : Q;
  concentration : Q;
  age : Q;
  mass : Q;
  releaseDepth : Q;
  history : list HistoryPoint.t;
  velocityU : Q;
  velocityV : Q;
  lastIntegration : string;
  integrationSteps : Z
}.

Definition setXY (p : t) (x' y' : Q) : t :=
  make (id p) (active p) (isotope p) x' y' (depth p) (sigma_h p) (sigma_v p)
       (concentration p) (age p) (mass p) (releaseDepth p) (history p)
       (velocityU p) (velocityV p) (lastIntegration p) (integrationSteps p).
Definition setDepth (p : t) (d : jsnum) : t :=
  make (id p) (active p) (isotope p) (x p) (y p) d (sigma_h p) (sigma_v p)
       (concentration p) (age p) (mass p) (releaseDepth p) (history p)
       (velocityU p) (velocityV p) (lastIntegration p) (integrationSteps p).
Definition setVelocity (p : t) (vu vv : Q) : t :=
  make (id p) (active p) (isotope p) (x p) (y p) (depth p) (sigma_h p) (sigma_v p)
       (concentration p) (age p) (mass p) (releaseDepth p) (history p)
       vu vv (lastIntegration p) (integrationSteps p).
Definition setLastIntegration (p : t) (s : string) : t :=
  make (id p) (active p) (isotope p) (x p) (y p) (depth p) (sigma_h p) (sigma_v p)
       (concentration p) (age p) (mass p) (releaseDepth p) (history p)
       (velocityU p) (velocityV p) s (integrationSteps p).
Definition setAge (p : t) (a : Q) : t :=
  make (id p) (active p) (isotope p) (x p) (y p) (depth p) (sigma_h p) (sigma_v p)
       (concentration p) a (mass p) (releaseDepth p) (history p)
       (velocityU p) (velocityV p) (lastIntegration p) (integrationSteps p).
Definition setMass (p : t) (m : Q) : t :=
  make (id p) (active p) (isotope p) (x p) (y p) (depth p) (sigma_h p) (sigma_v p)
       (concentration p) (age p) m (releaseDepth p) (history p)
       (velocityU p) (velocityV p) (lastIntegration p) (integrationSteps p).
Definition setActive (p : t) (b : bool) : t :=
  make (id p) b (isotope p) (x p) (y p) (depth p) (sigma_h p) (sigma_v p)
       (concentration p) (age p) (mass p) (releaseDepth p) (history p)
       (velocityU p) (velocityV p) (lastIntegration p) (integrationSteps p).
Definition setConcentration (p : t) (c : Q) : t :=
  make (id p) (active p) (isotope p) (x p) (y p) (depth p) (sigma_h p) (sigma_v p)
       c (age p) (mass p) (releaseDepth p) (history p)
       (velocityU p) (velocityV p) (lastIntegration p) (integrationSteps p).
Definition setHistory (p : t) (h : list HistoryPoint.t) : t :=
  make (id p) (active p) (isotope p) (x p) (y p) (depth p) (sigma_h p) (sigma_v p)
       (concentration p) (age p) (mass p) (releaseDepth p) h
       (velocityU p) (velocityV p) (lastIntegration p) (integrationSteps p).
End Particle.

Module Stats.
Record t := make {
  totalReleased : Z;
  totalDecayed : Z;
  simulationDays : Q;
  activeParticles : nat;
  particlesOnLand : Z;
  maxDepthReached : jsnum;
  totalConcentration : Q;
  maxConcentration : Q
}.

Definition setTotalDecayed (s : t) (n : Z) : t :=
  make (totalReleased s) n (simulationDays s) (activeParticles s)
       (particlesOnLand s) (maxDepthReached s) (totalConcentration s)
       (maxConcentration s).
Definition setActiveParticles (s : t) (n : nat) : t :=
  make (totalReleased s) (totalDecayed s) (simulationDays s) n
       (particlesOnLand s) (maxDepthReached s) (totalConcentration s)
       (maxConcentration s).
Definition setParticlesOnLand (s : t) (n : Z) : t :=
  make (totalReleased s) (totalDecayed s) (simulationDays s) (activeParticles s)
       n (maxDepthReached s) (totalConcentration s) (maxConcentration s).
Definition setMaxDepthReached (s : t) (d : jsnum) : t :=
  make (totalReleased s) (totalDecayed s) (simulationDays s) (activeParticles s)
       (particlesOnLand s) d (totalConcentration s) (maxConcentration s).
Definition setMaxConcentration (s : t) (c : Q) : t :=
  make (totalReleased s) (totalDecayed s) (simulationDays s) (activeParticles s)
       (particlesOnLand s) (maxDepthReached s) (totalConcentration s) c.
End Stats.

Record LandSettings := {
  land_enabled : bool;
  coastalPushStrength : Q;
  maxLandSearchRadius : Q;
  revertOnLand : bool
}.

Record RK4Settings := {
  rk4_enabled : bool;
  timeStepSafety : Q;
  maxStepsPerDay : Q;
  adaptiveStepSize : bool;
  minStepSize : Q;
  maxStepSize : Q
}.

Record Params := {
  diffusivityScale : Q;
  simulationSpeed : Q;
  decayEnabled : bool;
  lagrangianTimescale : Q;
  verticalMixing : bool;
  ekmanPumping : Q;
  convectiveMixing : Q
}.

Record KzLayer := { layer_depth : Q; kz : Q }.

Record KzProfile := {
  mixedLayer : KzLayer;
  upperOcean : KzLayer;
  deepOcean : KzLayer
}.

(** The engine object; [Cs137_halfLifeDays] is
    [isotopes.Cs137.halfLifeDays], [dayOfYear] what [getDayOfYear] returns. *)
Record t := make {
  FUKUSHIMA_LON : Q;
  FUKUSHIMA_LAT : Q;
  LON_SCALE : Q;
  LAT_SCALE : Q;
  landSettings : LandSettings;
  rk4Enabled : bool;
  rk4Settings : RK4Settings;
  params : Params;
  kzProfile : KzProfile;
  Cs137_halfLifeDays : Q;
  concentrationScale : Q;
  constantSigma_horizontal : Q;
  constantSigma_vertical : Q;
  isRunning : bool;
  dayOfYear : option Z;
  stats : Stats.t;
  particlePool : list Particle.t
}.

Definition initialPool (numParticles : nat) : list Particle.t :=
  map (λ i, Particle.make i false "Cs137" 0 0 (Num 0) 100 10 0 0 1.0 0 [] 0 0
              "none" 0)
      (seq 0 numParticles).

(** The constructor, up to the fields modelled here. *)
Definition new (numParticles : nat) (startDayOfYear : option Z) : t :=
  make 141.31 37.42 88.8 111.0
       {| land_enabled := true; coastalPushStrength := 3.0;
          maxLandSearchRadius := 10.0; revertOnLand := true |}
       false
       {| rk4_enabled := false; timeStepSafety := 0.5; maxStepsPerDay := 100;
          adaptiveStepSize := true; minStepSize := 0.01; maxStepSize := 0.25 |}
       {| diffusivityScale := 1.0; simulationSpeed := 1.0; decayEnabled := true;
          lagrangianTimescale := 7; verticalMixing := true;
          ekmanPumping := 0.000005; convectiveMixing := 0.000002 |}
       {| mixedLayer := {| layer_depth := 50; kz := 0.01 |};
          upperOcean := {| layer_depth := 200; kz := 0.0001 |};
          deepOcean := {| layer_depth := 1000; kz := 0.00005 |} |}
       (30.17 * 365.25) 1000 10000 50
       false startDayOfYear
       (Stats.make 0 0 0 0 0 (Num 0) 0 0)
       (initialPool numParticles).

Record PathCheck := {
  safe : bool;
  lastValidX : Q;
  lastValidY : Q
}.

Record Integration := {
  int_x : Q;
  int_y : Q;
  int_depth : jsnum;
  u_avg : Q;
  v_avg : Q
}.

Record Draws := {
  diffusionX : Q;
  diffusionY : Q;
  verticalZ : Q
}.

Section Operations.
Context `{!JsMath} `{!HycomLoader.t} `{!EkeLoader.t}.

Definition lonOf (e : t) (x : Q) : Q := FUKUSHIMA_LON e + x / LON_SCALE e.
Definition latOf (e : t) (y : Q) : Q := FUKUSHIMA_LAT e + y / LAT_SCALE e.

Definition checkLandInteraction (e : t) (p : Particle.t)
    (prevX prevY : Q) (prevDepth : jsnum) (currentSimDay : Q)
    : Particle.t * bool :=
  if negb (land_enabled (landSettings e)) then (p, false)
  else
    let lon := lonOf e (Particle.x p) in
    let lat := latOf e (Particle.y p) in
    let depthMeters := jsmul (Particle.depth p) (Num 1000) in
    if HycomLoader.isOcean lon lat depthMeters currentSimDay then (p, false)
    else
      let p := Particle.setDepth (Particle.setXY p prevX prevY) prevDepth in
      match HycomLoader.findNearestOceanCell lon lat depthMeters currentSimDay
              (maxLandSearchRadius (landSettings e)) with
      | SearchThrows => (p, true)
      | SearchNull => (p, true)
      | SearchCell cellLon cellLat actualDepth =>
          let targetX := (cellLon - FUKUSHIMA_LON e) * LON_SCALE e in
          let targetY := (cellLat - FUKUSHIMA_LAT e) * LAT_SCALE e in
          let dx := targetX - prevX in
          let dy := targetY - prevY in
          let dist := Math_sqrt (dx * dx + dy * dy) in
          if Qltb 0 dist then
            let moveFraction := 0.5 in
            let p := Particle.setXY p (prevX + dx * moveFraction)
                                      (prevY + dy * moveFraction) in
            match actualDepth with
            | Some d =>
                (Particle.setDepth p
                   (jsmin (Particle.depth p) (Num (d / 1000 * 0.8))),
                 true)
            | None => (p, true)
            end
          else (p, true)
      end.

Fixpoint checkPathFrom (e : t) (startX startY stepX stepY : Q) (depth : jsnum)
    (currentSimDay : Q) (remaining : nat) (s : Z) : option PathCheck :=
  match remaining with
  | O => None
  | S remaining' =>
      let testX := startX + stepX * inject_Z s in
      let testY := startY + stepY * inject_Z s in
      let testLon := FUKUSHIMA_LON e + testX / LON_SCALE e in
      let testLat := FUKUSHIMA_LAT e + testY / LAT_SCALE e in
      if HycomLoader.isOcean testLon testLat (jsmul depth (Num 1000))
           currentSimDay
      then checkPathFrom e startX startY stepX stepY depth currentSimDay
             remaining' (s + 1)
      else Some {| safe := false;
                   lastValidX := startX + stepX * inject_Z (s - 1);
                   lastValidY := startY + stepY * inject_Z (s - 1) |}
  end.

(** [const steps = 2; // Check 5 points along the path] *)
Definition _checkPathToOcean (e : t) (startX startY endX endY : Q)
    (depth : jsnum) (currentSimDay : Q) : PathCheck :=
  let steps := 2%nat in
  let stepX := (endX - startX) / inject_Z (Z.of_nat steps) in
  let stepY := (endY - startY) / inject_Z (Z.of_nat steps) in
  match checkPathFrom e startX startY stepX stepY depth currentSimDay steps 1 with
  | Some r => r
  | None => {| safe := true; lastValidX := endX; lastValidY := endY |}
  end.

Definition applyDiffusion (e : t) (p : Particle.t) (deltaDays currentSimDay : Q)
    (randX randY : Q) : Particle.t :=
  let lon := lonOf e (Particle.x p) in
  let lat := latOf e (Particle.y p) in
  match EkeLoader.getDiffusivityAt lon lat currentSimDay with
  | None => p
  | Some ekeResult =>
      let K_m2_s :=
        if Diffusivity.found ekeResult
        then Diffusivity.K ekeResult * diffusivityScale (params e)
        else 20 * diffusivityScale (params e) in
      let dtSeconds := deltaDays * 86400 in
      let stepScale_m := Math_sqrt (2 * K_m2_s * dtSeconds) in
      let stepScale_km := stepScale_m / 1000 in
      let dx := stepScale_km * randX in
      let dy := stepScale_km * randY in
      Particle.setXY p (Particle.x p + dx) (Particle.y p + dy)
  end.

Definition getVerticalDiffusivity (e : t) (depthMeters : jsnum) : Q :=
  if jsltb depthMeters (Num (layer_depth (mixedLayer (kzProfile e))))
  then kz (mixedLayer (kzProfile e))
  else if jsltb depthMeters (Num (layer_depth (upperOcean (kzProfile e))))
  then kz (upperOcean (kzProfile e))
  else kz (deepOcean (kzProfile e)).

Definition isWinter (e : t) : bool :=
  match dayOfYear e with
  | Some d => (d <? 90)%Z || (335 <? d)%Z
  | None => false
  end.

(** [verticalStdDev] is NaN when [2 * kz * dtSeconds] is negative, and the
    depth is NaN after it. *)
Definition applyVerticalMotion (e : t) (st : Stats.t) (p : Particle.t)
    (dtSeconds g : Q) : Particle.t * Stats.t :=
  let depthM := jsmul (Particle.depth p) (Num 1000) in
  let kz := getVerticalDiffusivity e depthM in
  let verticalStdDev := jssqrt (Num (2 * kz * dtSeconds)) in
  let randomDz := jsmul verticalStdDev (Num g) in
  let deterministicDz := 0 + ekmanPumping (params e) * dtSeconds in
  let deterministicDz :=
    if isWinter e && jsltb depthM (Num 100)
    then deterministicDz + convectiveMixing (params e) * dtSeconds
    else deterministicDz in
  let depth1 :=
    jsadd (Particle.depth p)
      (jsdiv (jsadd randomDz (Num deterministicDz)) (Num 1000)) in
  let p := Particle.setDepth p (jsmax (Num 0) (jsmin depth1 (Num 1.0))) in
  let currentDepthM := jsmul (Particle.depth p) (Num 1000) in
  if jsltb (Stats.maxDepthReached st) currentDepthM
  then (p, Stats.setMaxDepthReached st currentDepthM)
  else (p, st).

Definition calculateConcentration (e : t) (p : Particle.t) : Q :=
  let M := Particle.mass p * 1000000000 in
  let volume :=
    Math_pow (2 * Math_PI) 1.5 * constantSigma_horizontal e
    * constantSigma_horizontal e * constantSigma_vertical e in
  let concentration := M / Qmax volume 1000000000 in
  let concentration := concentration * concentrationScale e in
  let concentration := Qmax concentration 0.000001 in
  Qmin concentration 1000000.

Fixpoint closestDepth (depthMeters : jsnum) (depths : list Q)
    (minDiff : jsnum) (targetDepth : Q) : Q :=
  match depths with
  | [] => targetDepth
  | d :: rest =>
      let diff := jsabs (jssub depthMeters (Num d)) in
      if jsltb diff minDiff then closestDepth depthMeters rest diff d
      else closestDepth depthMeters rest minDiff targetDepth
  end.

Definition snapDepth (depthMeters : jsnum) : option Q :=
  match HycomLoader.getAvailableDepths with
  | [] => None
  | d0 :: _ =>
      Some (closestDepth depthMeters HycomLoader.getAvailableDepths
              (jsabs (jssub depthMeters (Num d0))) d0)
  end.

Definition getVelocityAt (lon lat : Q) (depthMeters : jsnum) (simDay : Q)
    : Velocity.t :=
  default Velocity.none
    (HycomLoader.getVelocityAt lon lat (snapDepth depthMeters) simDay).

Definition calculateOptimalStepSize (e : t) (p : Particle.t) (totalDeltaDays : Q) : Q :=
  if negb (adaptiveStepSize (rk4Settings e))
  then Qmin totalDeltaDays (maxStepSize (rk4Settings e))
  else
    let speed :=
      Math_sqrt (Particle.velocityU p * Particle.velocityU p
                 + Particle.velocityV p * Particle.velocityV p) in
    let characteristicTime := 1.0 / (speed + 0.001) in
    let optimalStep :=
      Qmin (characteristicTime * timeStepSafety (rk4Settings e))
           (maxStepSize (rk4Settings e)) in
    let optimalStep := Qmax optimalStep (minStepSize (rk4Settings e)) in
    Qmin optimalStep totalDeltaDays.

Definition eulerIntegrate (e : t) (p : Particle.t) (deltaDays currentSimDay : Q)
    : Integration :=
  let lon := lonOf e (Particle.x p) in
  let lat := latOf e (Particle.y p) in
  let depthMeters := jsmul (Particle.depth p) (Num 1000) in
  let velocity := getVelocityAt lon lat depthMeters currentSimDay in
  if Velocity.found velocity then
    {| int_x := Particle.x p + deltaDays * Velocity.u velocity * 86.4;
       int_y := Particle.y p + deltaDays * Velocity.v velocity * 86.4;
       int_depth := Particle.depth p;
       u_avg := Velocity.u velocity;
       v_avg := Velocity.v velocity |}
  else
    {| int_x := Particle.x p; int_y := Particle.y p;
       int_depth := Particle.depth p; u_avg := 0; v_avg := 0 |}.

Definition rk4Step (e : t) (x y : Q) (depth : jsnum) (h currentTime : Q)
    : option Integration :=
  let depthMeters := jsmul depth (Num 1000) in
  let k1 := getVelocityAt (lonOf e x) (latOf e y) depthMeters currentTime in
  if negb (Velocity.found k1) then None
  else
    let pick (k : Velocity.t) (f : Velocity.t → Q) : Q :=
      if Velocity.found k then f k else f k1 in
    let x2 := x + h / 2 * Velocity.u k1 * 86.4 in
    let y2 := y + h / 2 * Velocity.v k1 * 86.4 in
    let k2 := getVelocityAt (lonOf e x2) (latOf e y2) depthMeters
                (currentTime + h / 2) in
    let x3 := x + h / 2 * pick k2 Velocity.u * 86.4 in
    let y3 := y + h / 2 * pick k2 Velocity.v * 86.4 in
    let k3 := getVelocityAt (lonOf e x3) (latOf e y3) depthMeters
                (currentTime + h / 2) in
    let x4 := x + h * pick k3 Velocity.u * 86.4 in
    let y4 := y + h * pick k3 Velocity.v * 86.4 in
    let k4 := getVelocityAt (lonOf e x4) (latOf e y4) depthMeters
                (currentTime + h) in
    let u_avg := (1 / 6) * (Velocity.u k1 + 2 * pick k2 Velocity.u
                            + 2 * pick k3 Velocity.u + pick k4 Velocity.u) in
    let v_avg := (1 / 6) * (Velocity.v k1 + 2 * pick k2 Velocity.v
                            + 2 * pick k3 Velocity.v + pick k4 Velocity.v) in
    Some {| int_x := x + h * u_avg * 86.4;
            int_y := y + h * v_avg * 86.4;
            int_depth := depth;
            u_avg := u_avg; v_avg := v_avg |}.

Fixpoint rk4Loop (e : t) (actualStep currentSimDay : Q) (remaining : nat) (step : Z)
    (x y : Q) (depth : jsnum) (totalU totalV : Q)
    : option (Q * Q * jsnum * Q * Q) :=
  match remaining with
  | O => Some (x, y, depth, totalU, totalV)
  | S remaining' =>
      let stepTime := currentSimDay + inject_Z step * actualStep in
      match rk4Step e x y depth actualStep stepTime with
      | None => None
      | Some result =>
          rk4Loop e actualStep currentSimDay remaining' (step + 1)
            (int_x result) (int_y result) (int_depth result)
            (totalU + u_avg result) (totalV + v_avg result)
      end
  end.

Definition rk4Integrate (e : t) (p : Particle.t) (deltaDays currentSimDay : Q)
    : Integration :=
  let h := calculateOptimalStepSize e p deltaDays in
  let steps := Qceiling (deltaDays / h) in
  let actualStep := deltaDays / inject_Z steps in
  match rk4Loop e actualStep currentSimDay (Z.to_nat steps) 0
          (Particle.x p) (Particle.y p) (Particle.depth p) 0 0 with
  | None => eulerIntegrate e p deltaDays currentSimDay
  | Some (x, y, depth, totalU, totalV) =>
      {| int_x := x; int_y := y; int_depth := depth;
         u_avg := totalU / inject_Z steps;
         v_avg := totalV / inject_Z steps |}
  end.

(** Block 1 of the loop body: advection. *)
Definition advectionStage (e : t) (p : Particle.t) (velocity : Velocity.t)
    (deltaDays currentSimDay : Q) : Particle.t :=
  let prevX := Particle.x p in
  let prevY := Particle.y p in
  if rk4Enabled e && rk4_enabled (rk4Settings e) then
    let rk4Result := rk4Integrate e p deltaDays currentSimDay in
    let pathCheck :=
      _checkPathToOcean e prevX prevY (int_x rk4Result) (int_y rk4Result)
        (Particle.depth p) currentSimDay in
    if safe pathCheck then
      Particle.setLastIntegration
        (Particle.setVelocity
           (Particle.setDepth
              (Particle.setXY p (int_x rk4Result) (int_y rk4Result))
              (int_depth rk4Result))
           (jsOr (u_avg rk4Result) 0) (jsOr (v_avg rk4Result) 0))
        "rk4"
    else
      Particle.setVelocity
        (Particle.setXY p (lastValidX pathCheck) (lastValidY pathCheck)) 0 0
  else
    let p :=
      if Velocity.found velocity then
        let newX := Particle.x p + Velocity.u velocity * 86.4 * deltaDays in
        let newY := Particle.y p + Velocity.v velocity * 86.4 * deltaDays in
        let pathCheck :=
          _checkPathToOcean e prevX prevY newX newY (Particle.depth p)
            currentSimDay in
        if safe pathCheck then
          Particle.setVelocity (Particle.setXY p newX newY)
            (Velocity.u velocity) (Velocity.v velocity)
        else
          Particle.setVelocity
            (Particle.setXY p (lastValidX pathCheck) (lastValidY pathCheck)) 0 0
      else p in
    Particle.setLastIntegration p "euler".

(** Block 2: diffusion. *)
Definition diffusionStage (e : t) (p : Particle.t) (deltaDays currentSimDay : Q)
    (randX randY : Q) : Particle.t :=
  if Qltb 0.01 (diffusivityScale (params e)) then
    let beforeDiffX := Particle.x p in
    let beforeDiffY := Particle.y p in
    let p := applyDiffusion e p deltaDays currentSimDay randX randY in
    let diffPathCheck :=
      _checkPathToOcean e beforeDiffX beforeDiffY (Particle.x p) (Particle.y p)
        (Particle.depth p) currentSimDay in
    if negb (safe diffPathCheck) then Particle.setXY p beforeDiffX beforeDiffY
    else p
  else p.

Definition pushHistory (p : Particle.t) : Particle.t :=
  let h :=
    Particle.history p
    ++ [HistoryPoint.make (Particle.x p) (Particle.y p) (Particle.depth p)] in
  Particle.setHistory p (if (8 <? length h)%nat then tail h else h).

(** Blocks 6 and 7: concentration and history. *)
Definition finishParticle (e : t) (st : Stats.t) (p : Particle.t) (prevX prevY : Q)
    : Particle.t * Stats.t :=
  let p := Particle.setConcentration p (calculateConcentration e p) in
  let st :=
    if Qltb (Stats.maxConcentration st) (Particle.concentration p)
    then Stats.setMaxConcentration st (Particle.concentration p)
    else st in
  let p :=
    if Qltb 1 (Qabs (Particle.x p - prevX))
       || Qltb 1 (Qabs (Particle.y p - prevY))
    then pushHistory p else p in
  (p, st).

(** One iteration of the inner loop of [updateParticles]. *)
Definition processParticle (e : t) (st : Stats.t) (p : Particle.t)
    (velocity : Velocity.t) (draws : Draws) (deltaDays currentSimDay : Q)
    : Particle.t * Stats.t :=
  let dtSeconds := deltaDays * 86400 in
  let prevX := Particle.x p in
  let prevY := Particle.y p in
  let prevDepth := Particle.depth p in
  let p := advectionStage e p velocity deltaDays currentSimDay in
  let p := diffusionStage e p deltaDays currentSimDay
             (diffusionX draws) (diffusionY draws) in
  let '(p, wasOnLand) :=
    checkLandInteraction e p prevX prevY prevDepth currentSimDay in
  if wasOnLand then
    (p, Stats.setParticlesOnLand st (Stats.particlesOnLand st + 1))
  else
    let '(p, st) :=
      if verticalMixing (params e)
      then applyVerticalMotion e st p dtSeconds (verticalZ draws)
      else (p, st) in
    let p := Particle.setAge p (Particle.age p + deltaDays) in
    if decayEnabled (params e) then
      let halfLife := Cs137_halfLifeDays e in
      let p :=
        Particle.setMass p
          (Particle.mass p * Math_pow 0.5 (deltaDays / halfLife)) in
      if Qltb (Particle.mass p) 0.001 then
        (Particle.setActive p false,
         Stats.setTotalDecayed st (Stats.totalDecayed st + 1))
      else finishParticle e st p prevX prevY
    else finishParticle e st p prevX prevY.

(** The loops of [updateParticles], with the same representation of the
    depth buckets as in [Engine.updateLoop]. *)
Fixpoint updateLoop (e : t) (st : Stats.t) (pool : list Particle.t)
    (velocities : nat → Velocity.t) (draws : nat → Draws)
    (deltaDays currentSimDay : Q) : list Particle.t * Stats.t :=
  match pool with
  | [] => ([], st)
  | p :: rest =>
      let '(p, st) :=
        if Particle.active p
        then processParticle e st p (velocities (Particle.id p))
               (draws (Particle.id p)) deltaDays currentSimDay
        else (p, st) in
      let '(rest, st) :=
        updateLoop e st rest velocities draws deltaDays currentSimDay in
      (p :: rest, st)
  end.

Definition getActiveParticles (e : t) : list Particle.t :=
  filter (λ p, Particle.active p = true) (particlePool e).

Definition updateParticles (e : t) (deltaDays : Q)
    (velocities : nat → Velocity.t) (draws : nat → Draws) : t :=
  if negb (isRunning e) then e
  else if (length (getActiveParticles e) =? 0)%nat then e
  else
    let st := Stats.setParticlesOnLand (stats e) 0 in
    let currentSimDay := Stats.simulationDays (stats e) in
    let '(pool, st) :=
      updateLoop e st (particlePool e) velocities draws deltaDays currentSimDay in
    let e' :=
      make (FUKUSHIMA_LON e) (FUKUSHIMA_LAT e) (LON_SCALE e) (LAT_SCALE e)
           (landSettings e) (rk4Enabled e) (rk4Settings e) (params e)
           (kzProfile e) (Cs137_halfLifeDays e) (concentrationScale e)
           (constantSigma_horizontal e) (constantSigma_vertical e)
           (isRunning e) (dayOfYear e) st pool in
    make (FUKUSHIMA_LON e) (FUKUSHIMA_LAT e) (LON_SCALE e) (LAT_SCALE e)
         (landSettings e) (rk4Enabled e) (rk4Settings e) (params e)
         (kzProfile e) (Cs137_halfLifeDays e) (concentrationScale e)
         (constantSigma_horizontal e) (constantSigma_vertical e)
         (isRunning e) (dayOfYear e)
         (Stats.setActiveParticles st (length (getActiveParticles e')))
         pool.
End Operations.


(** The depth band of a particle: the depth is a number between 0 and 1. *)
Definition depthInBand (p : Particle.t) : Prop :=
  ∃ d, Particle.depth p = Num d ∧ 0 <= d ∧ d <= 1.

(** No layer of the profile has a negative vertical diffusivity. *)
Definition kzNotNegative (e : t) : Prop :=
  0 <= kz (mixedLayer (kzProfile e)) ∧ 0 <= kz (upperOcean (kzProfile e)) ∧
  0 <= kz (deepOcean (kzProfile e)).
End WebEngine.

(** ** The streaming current loader ([StreamingHYCOMLoader_3D] of
    [web/hycomLoader.js]) *)

Module Hycom.

(** An element read from a [Float32Array].  Only the land sentinel test
    looks at these values; an infinite element passes and fails that test
    exactly as a finite one of magnitude at least 1000 does, so it has no
    constructor of its own. *)
Inductive jsfloat :=
| NaN
| Num (q : Q).

(** [array[idx]]: [undefined] ([None]) past the end. *)
Definition read (a : list jsfloat) (idx : nat) : option jsfloat := a !! idx.

(** [isNaN(x)], where [x] may be [undefined]. *)
Definition isNaN (x : option jsfloat) : bool :=
  match x with
  | Some (Num _) => false
  | _ => true
  end.

(** [Math.abs(x) < 1000]; false when [Math.abs(x)] is NaN. *)
Definition absBelow1000 (x : option jsfloat) : bool :=
  match x with
  | Some (Num q) => Qltb (Qabs q) 1000
  | _ => false
  end.

(** The value of a number that passed the test, [0] otherwise. *)
Definition valueOf (x : option jsfloat) : Q :=
  match x with
  | Some (Num q) => q
  | _ => 0
  end.

(** A loaded day.  The four large arrays become [null] ([None]) when the
    day is unloaded. *)
Record DayData := {
  lonArray : option (list jsfloat);
  latArray : option (list jsfloat);
  uArray : option (list jsfloat);
  vArray : option (list jsfloat);
  nLat : nat;
  nLon : nat;
  nDepth : nat;
  totalCells : nat;
  totalDataPoints : nat;
  dateKey : string
}.

Definition releaseArrays (d : DayData) : DayData :=
  {| lonArray := None; latArray := None; uArray := None; vArray := None;
     nLat := nLat d; nLon := nLon d; nDepth := nDepth d;
     totalCells := totalCells d; totalDataPoints := totalDataPoints d;
     dateKey := dateKey d |}.

Record Cell := { cell_i : nat; cell_j : nat; cell_idx : nat; distance : Q }.

(** What the loader takes from its host: the spatial index lookup
    [findNearestCell], the calendar arithmetic of [simulationDayToDate]
    (reduced to the date key it produces), and the fetch and parse of a day
    file, [_loadDayByDate3D], which is [None] when its promise is rejected. *)
Class Host := {
  findNearestCell : Q → Q → DayData → option Cell;
  simulationDayToDate : Q → string;
  _loadDayByDate3D : string → option DayData
}.

(** The loader object.  Day objects live in [objects] and are referred to
    by position, so that an unloaded day is still seen, with its arrays
    released, by whoever holds a reference to it.  [loadedDays] is the
    [Map] from date key to day object. *)
Record t := make {
  depths : option (list Q);
  objects : list DayData;
  loadedDays : gmap string nat;
  activeDayKey : option string;
  defaultDepth : Q;
  maxDaysInMemory : nat
}.

(** The constructor, with the metadata that [init] loads. *)
Definition new (depths : option (list Q)) : t :=
  make depths [] ∅ None 0 2.

Definition setActiveDayKey (l : t) (k : string) : t :=
  make (depths l) (objects l) (loadedDays l) (Some k) (defaultDepth l)
       (maxDaysInMemory l).

(** The body of the [forEach] of [_enforceMemoryLimit]. *)
Definition unloadIfInactive (l : t) (key : string) : t :=
  if decide (Some key = activeDayKey l) then l
  else
    make (depths l)
         (match loadedDays l !! key with
          | Some ref => alter releaseArrays ref (objects l)
          | None => objects l
          end)
         (delete key (loadedDays l)) (activeDayKey l) (defaultDepth l)
         (maxDaysInMemory l).

(** [Array.from(this.loadedDays.keys())] followed by [keys.sort()]: the
    sorted list of distinct keys does not depend on the insertion order. *)
Definition sortedKeys (l : t) : list string :=
  merge_sort String.le (map_to_list (loadedDays l)).*1.

Definition _enforceMemoryLimit (l : t) : t :=
  if (size (loadedDays l) <=? maxDaysInMemory l)%nat then l
  else
    let keys := sortedKeys l in
    let toRemove := take (length keys - maxDaysInMemory l) keys in
    foldl unloadIfInactive l toRemove.

Section Loader.
Context `{!Host}.

(** [loadDayByDate], one call awaited at a time, so that no load is in
    flight when it starts.  The day object is returned by reference;
    [None] when the load fails. *)
Definition loadDayByDate (l : t) (key : string) : t * option nat :=
  match loadedDays l !! key with
  | Some ref => (setActiveDayKey l key, Some ref)
  | None =>
      match _loadDayByDate3D key with
      | None => (l, None)
      | Some result =>
          let ref := length (objects l) in
          let l :=
            make (depths l) (objects l ++ [result])
                 (<[key := ref]> (loadedDays l)) (Some key) (defaultDepth l)
                 (maxDaysInMemory l) in
          (_enforceMemoryLimit l, Some ref)
      end
  end.

(** [depths.indexOf(targetDepth)] *)
Fixpoint indexOf (ds : list Q) (targetDepth : Q) (i : nat) : option nat :=
  match ds with
  | [] => None
  | d :: rest =>
      if Qeq_bool d targetDepth then Some i else indexOf rest targetDepth (S i)
  end.

(** The closest-depth loop of [getDepthIndex], from index [i] on. *)
Fixpoint closestIndexFrom (ds : list Q) (targetDepth : Q) (i : nat)
    (minDiff : Q) (closestIndex : nat) : nat :=
  match ds with
  | [] => closestIndex
  | d :: rest =>
      let diff := Qabs (targetDepth - d) in
      if Qltb diff minDiff
      then closestIndexFrom rest targetDepth (S i) diff i
      else closestIndexFrom rest targetDepth (S i) minDiff closestIndex
  end.

Definition getDepthIndex (l : t) (targetDepth : Q) : nat :=
  match depths l with
  | None | Some [] => 0%nat
  | Some (d0 :: rest) =>
      match indexOf (d0 :: rest) targetDepth 0 with
      | Some exactIndex => exactIndex
      | None =>
          closestIndexFrom rest targetDepth 1 (Qabs (targetDepth - d0)) 0
      end
  end.

Definition getDepthValue (l : t) (depthIndex : nat) : Q :=
  match depths l with
  | None => 0
  | Some ds => default 0 (ds !! depthIndex)
  end.

Record VelocityResult := {
  u : Q;
  v : Q;
  found : bool
}.

(** The land sentinel test of [getVelocityAt]. *)
Definition velocityIsOcean (u v : option jsfloat) : bool :=
  negb (isNaN u) && negb (isNaN v) && absBelow1000 u && absBelow1000 v.

(** [getVelocityAt(lon, lat, depth, simulationDay)]; [depth] is [None] for
    [null].  The result is [None] when the call throws: the day cannot be
    loaded, or its arrays have been released. *)
Definition getVelocityAt (l : t) (lon lat : Q) (depth : option Q) (simulationDay : Q)
    : t * option VelocityResult :=
  let targetDepth := default (defaultDepth l) depth in
  let depthIndex := getDepthIndex l targetDepth in
  let dateInfo := simulationDayToDate simulationDay in
  match loadDayByDate l dateInfo with
  | (l', None) => (l', None)
  | (l', Some ref) =>
      match objects l' !! ref with
      | None => (l', None)
      | Some dayData =>
          match findNearestCell lon lat dayData with
          | None => (l', Some {| u := 0; v := 0; found := false |})
          | Some cell =>
              let idx := (depthIndex * totalCells dayData + cell_idx cell)%nat in
              if (totalDataPoints dayData <=? idx)%nat
              then (l', Some {| u := 0; v := 0; found := false |})
              else
                match uArray dayData, vArray dayData with
                | Some uArr, Some vArr =>
                    let u := read uArr idx in
                    let v := read vArr idx in
                    let isOcean := velocityIsOcean u v in
                    (l', Some {| u := if isOcean then valueOf u else 0;
                                 v := if isOcean then valueOf v else 0;
                                 found := isOcean |})
                | _, _ => (l', None)
                end
          end
      end
  end.

(** [isOcean(lon, lat, depth, simulationDay)]: every failure inside is
    caught and answered [false]. *)
Definition isOcean (l : t) (lon lat depth simulationDay : Q) : t * bool :=
  let dateInfo := simulationDayToDate simulationDay in
  match loadDayByDate l dateInfo with
  | (l', None) => (l', false)
  | (l', Some ref) =>
      match objects l' !! ref with
      | None => (l', false)
      | Some dayData =>
          match findNearestCell lon lat dayData with
          | None => (l', false)
          | Some cell =>
              let depthIndex := getDepthIndex l' depth in
              let idx := (depthIndex * totalCells dayData + cell_idx cell)%nat in
              match uArray dayData with
              | Some uArr =>
                  let u := read uArr idx in
                  (l', negb (isNaN u) && absBelow1000 u)
              | None => (l', false)
              end
          end
      end
  end.

(** A sequence of loads, one after the other. *)
Definition loadDays (l : t) (keys : list string) : t :=
  foldl (λ l key, (loadDayByDate l key).1) l keys.

(** *** Vocabulary for the statements *)

(** The land sentinel test on one value: not NaN and of magnitude below
    1000. *)
Definition passesSentinel (x : option jsfloat) : bool :=
  negb (isNaN x) && absBelow1000 x.

(** The day object and the flat index that a lookup at a position, depth
    and simulation day resolves to: the day of the date is loaded, the
    nearest cell is found, and the index is that of the cell at the
    snapped depth level. *)
Definition resolve (l : t) (lon lat depth simulationDay : Q)
    : option (DayData * nat) :=
  match loadDayByDate l (simulationDayToDate simulationDay) with
  | (l', Some ref) =>
      match objects l' !! ref with
      | Some dayData =>
          match findNearestCell lon lat dayData with
          | Some cell =>
              Some (dayData,
                    (getDepthIndex l depth * totalCells dayData
                     + cell_idx cell)%nat)
          | None => None
          end
      | None => None
      end
  | (_, None) => None
  end.
End Loader.

(** The resident days other than the active one. *)
Definition nonActiveDays (l : t) : gmap string nat :=
  match activeDayKey l with
  | Some active => delete active (loadedDays l)
  | None => loadedDays l
  end.

(** The four large arrays of a day object are released. *)
Definition released (d : DayData) : Prop :=
  lonArray d = None ∧ latArray d = None ∧ uArray d = None ∧ vArray d = None.

(** What a sequence of loads maintains: the active day is resident (and
    nothing is resident before the first load), at most [maxDaysInMemory]
    other days are resident, and every resident day refers to an allocated
    day object. *)
Definition cacheInvariant (l : t) : Prop :=
  match activeDayKey l with
  | Some active => is_Some (loadedDays l !! active)
  | None => loadedDays l = ∅
  end ∧
  (size (nonActiveDays l) <= maxDaysInMemory l)%nat ∧
  ∀ k ref, loadedDays l !! k = Some ref → (ref < length (objects l))%nat.
End Hycom.

(** ** Playback of baked snapshots ([BakeSystem] of [web/bakeSystem.js]) *)

Module Bake.

Module HistoryPoint.
Record t := make { x : Q; y : Q; depth : Q }.
End HistoryPoint.

(** A particle record of a snapshot; [history] is [None] when the field is
    missing from an imported record. *)
Module BakedParticle.
Record t := make {
  x : Q;
  y : Q;
  depth : Q;
  concentration : Q;
  mass : Q;
  age : Q;
  history : option (list HistoryPoint.t);
  active : bool
}.
End BakedParticle.

Module Snapshot.
Record t := make {
  day : Q;
  particleCount : nat;
  particles : list BakedParticle.t
}.
End Snapshot.



Record t := make {
  snapshots : list Snapshot.t;
  currentSnapshotIndex : nat;
  interpolationFactor : Q;
  isPlaying : bool;
  playbackSpeed : Q
}.


Definition loadSnapshots (b : t) (snapshots : list Snapshot.t) : t :=
  make snapshots 0 0 (isPlaying b) (playbackSpeed b).

Section Playback.
Context `{!JsMath}.

(** The body of the interpolation loop for one pair of records. *)
Definition interpolatePair (t : Q) (p1 p2 : BakedParticle.t) : BakedParticle.t :=
  let x := BakedParticle.x p1 + t * (BakedParticle.x p2 - BakedParticle.x p1) in
  let y := BakedParticle.y p1 + t * (BakedParticle.y p2 - BakedParticle.y p1) in
  let concentration :=
    if Qltb 0 (BakedParticle.concentration p1)
       && Qltb 0 (BakedParticle.concentration p2)
    then Math_pow 10
           (Math_log10 (BakedParticle.concentration p1)
            + t * (Math_log10 (BakedParticle.concentration p2)
                   - Math_log10 (BakedParticle.concentration p1)))
    else BakedParticle.concentration p1
         + t * (BakedParticle.concentration p2 - BakedParticle.concentration p1) in
  let history :=
    match BakedParticle.history p1, BakedParticle.history p2 with
    | Some h1, Some h2 => if Qltb t 0.5 then h1 else h2
    | Some h1, None => if Qltb t 0.5 then h1 else []
    | None, Some h2 => h2
    | None, None => []
    end in
  BakedParticle.make x y
    (BakedParticle.depth p1 + t * (BakedParticle.depth p2 - BakedParticle.depth p1))
    concentration
    (BakedParticle.mass p1 + t * (BakedParticle.mass p2 - BakedParticle.mass p1))
    (BakedParticle.age p1 + t * (BakedParticle.age p2 - BakedParticle.age p1))
    (Some history) true.





End Playback.

End Bake.

(** ** Sample services

    Concrete services on which the definitions can be run: a rational
    stand-in for [Math] that is exact on squares of rationals and on
    integer exponents, a current field with land on the half-plane east of
    the reference longitude, a uniform current field, and a constant
    diffusivity field. *)

Definition sampleSqrt (q : Q) : Q :=
  let r := Qred q in
  inject_Z (Z.sqrt (Qnum r)) / inject_Z (Z.sqrt (Zpos (Qden r))).

Definition samplePow (b e : Q) : Q := Qpower b (Qfloor e).

Definition sampleMath : JsMath :=
  {| Math_sqrt := sampleSqrt; Math_pow := samplePow;
     Math_log10 := λ _, 0; Math_PI := 3.14159 |}.

(** Ocean west of longitude [lon0], land east of it; the current is
    [(u, v)] over the ocean, and the nearest ocean cell of a place on land
    is the point of the coast at its latitude, at the surface. *)
Definition halfPlaneLoader (lon0 u v : Q) : HycomLoader.t :=
  {| HycomLoader.isOcean := λ lon _ _ _, Qle_bool lon lon0;
     HycomLoader.getVelocityAt := λ lon _ _ _,
       Some (if Qle_bool lon lon0 then Velocity.make u v true
             else Velocity.none);
     HycomLoader.findNearestOceanCell := λ _ lat _ _ _,
       SearchCell lon0 lat (Some 0);
     HycomLoader.getAvailableDepths := [0; 50; 100; 200; 500; 1000] |}.


Definition constantEke (K : Q) : EkeLoader.t :=
  {| EkeLoader.getDiffusivityAt := λ _ _ _, Some (Diffusivity.make K true) |}.

(** A schedule of two phases used to exercise the statements: 10 PBq over
    days 0 to 30, then 3 TBq over days 40 to 100. *)
Definition sampleManager : ReleaseManager.t :=
  {| ReleaseManager.tracerId := "cs137"; ReleaseManager.tracer := cs137;
     ReleaseManager.phases := [ReleasePhase.make 0 30 10 "PBq";
                ReleasePhase.make 40 100 3 "TBq"] |}.

(** An engine of one particle at the default release site, a particle one
    kilometre west of the reference point that carries a velocity, and the
    services it runs against: land east of the reference longitude and a
    diffusivity of 300 m2/s, for which a one-day random-walk step has a
    scale of 7.2 km. *)
Definition sampleEngine : Engine.t := Engine.new 1 "cs137" None None.

Definition sampleParticle : Engine.Particle.t :=
  Engine.Particle.make 0 true "cs137" (-1) 0 (Num 0) 0 0 1 [] 0.1 0 (Some 0).

Definition sampleCoast : HycomLoader.t := halfPlaneLoader 142.03 0.1 0.

Definition sampleEke : EkeLoader.t := constantEke 300.


(** The inputs of a step in which every draw is zero and no batched
    velocity is found. *)
Definition zeroNormals : nat → Q * Q := λ _, (0, 0).
Definition noVelocities : nat → Velocity.t := λ _, Velocity.none.
Definition zeroDraws : nat → Engine.Draws :=
  λ _, {| Engine.diffusionX := 0; Engine.diffusionY := 0;
          Engine.verticalZ := 0 |}.


(** The sample engine, started, after the release of one particle and a
    step of a tenth of a day. *)
Definition steppedEngine : Engine.t :=
  @Engine.update sampleMath sampleCoast sampleEke
    (@Engine.releaseParticles sampleMath
       (Engine.startSimulation sampleEngine) (Num 1) zeroNormals)
    0.1 zeroNormals noVelocities zeroDraws.








(** A host for the loader whose grid has a single cell; every day file
    holds a valid eastward velocity and a NaN northward velocity for it. *)
Definition oneCellDay (key : string) : Hycom.DayData :=
  {| Hycom.lonArray := Some [Hycom.Num 142]; Hycom.latArray := Some [Hycom.Num 37];
     Hycom.uArray := Some [Hycom.Num 0.1]; Hycom.vArray := Some [Hycom.NaN];
     Hycom.nLat := 1; Hycom.nLon := 1; Hycom.nDepth := 1;
     Hycom.totalCells := 1; Hycom.totalDataPoints := 1;
     Hycom.dateKey := key |}.

Definition oneCellHost : Hycom.Host :=
  {| Hycom.findNearestCell := λ _ _ _,
       Some {| Hycom.cell_i := 0; Hycom.cell_j := 0; Hycom.cell_idx := 0;
               Hycom.distance := 0 |};
     Hycom.simulationDayToDate := λ _, "2011-03-01";
     Hycom._loadDayByDate3D := λ key, Some (oneCellDay key) |}.

(** Three snapshots, at days 0, 5 and 10, of one particle that drifts
    east, and a player that has loaded them. *)
Definition bakedAt (x : Q) : Bake.BakedParticle.t :=
  Bake.BakedParticle.make x 0 0 0 1 0 (Some []) true.




(** * Properties *)

(** ** Release manager *)

Section ReleaseManagerFacts.
Import ReleasePhase ReleaseManager.


Lemma contains_spec (day : Q) (p : ReleasePhase.t) :
  contains day p = true ↔ start p <= day ∧ day <= end_ p.
Proof.
  unfold contains. rewrite andb_true_iff, !Qle_bool_iff. tauto.
Qed.

Lemma contains_false (day : Q) (p : ReleasePhase.t) :
  contains day p = false ↔ day < start p ∨ end_ p < day.
Proof.
  rewrite <- not_true_iff_false, contains_spec. split.
  - intros Hn. destruct (Qlt_le_dec day (start p)) as [|H1]; [by left|].
    destruct (Qlt_le_dec (end_ p) day) as [|H2]; [by right|].
    exfalso; auto.
  - intros [H|H] [H1 H2]; lra.
Qed.

(** The rate is the one of the first phase of the list that contains the
    day. *)
Lemma rateIn_first (l1 l2 : list ReleasePhase.t) (p : ReleasePhase.t) (day : Q) :
  Forall (λ q, contains day q = false) l1 →
  contains day p = true →
  rateIn (l1 ++ p :: l2) day = getRate p.
Proof.
  intros Hl1 Hp. induction Hl1 as [|q l1 Hq _ IH]; simpl.
  - by rewrite Hp.
  - by rewrite Hq.
Qed.

Lemma rateIn_none (ps : list ReleasePhase.t) (day : Q) :
  Forall (λ q, contains day q = false) ps → rateIn ps day = Num 0.
Proof.
  induction 1 as [|q ps Hq _ IH]; simpl; [done|]. by rewrite Hq.
Qed.

(** The rate of a phase that has a duration is the quotient. *)
Lemma getRate_finite (p : ReleasePhase.t) :
  ¬ end_ p == start p → getRate p = Num (total p / (end_ p - start p)).
Proof.
  intros Hne. unfold getRate, getDuration, jsdiv.
  destruct (Qeq_bool (end_ p - start p) 0) eqn:Hz; [|done].
  apply Qeq_bool_iff in Hz. exfalso. apply Hne. lra.
Qed.

(** The rate of a phase that ends on the day it starts is no number: NaN
    for a total of zero, and otherwise the infinity of the sign of the
    total. *)
Lemma getRate_instant (p : ReleasePhase.t) :
  end_ p == start p →
  getRate p = (if Qeq_bool (total p) 0 then NaN
               else if Qltb 0 (total p) then PosInf else NegInf).
Proof.
  intros He. unfold getRate, getDuration, jsdiv.
  destruct (Qeq_bool (end_ p - start p) 0) eqn:Hz; [done|].
  apply not_true_iff_false in Hz. exfalso. apply Hz, Qeq_bool_iff. lra.
Qed.

Lemma getRate_pos (p : ReleasePhase.t) :
  start p < end_ p → 0 < total p →
  ∃ r, getRate p = Num r ∧ 0 < r.
Proof.
  intros Hd Ht. exists (total p / (end_ p - start p)). split.
  - apply getRate_finite. lra.
  - apply Qlt_shift_div_l; lra.
Qed.

(** Inside some phase of a list of well-formed phases, the rate is a
    positive number. *)
Lemma rateIn_pos (ps : list ReleasePhase.t) (p : ReleasePhase.t) (day : Q) :
  Forall (λ q, start q < end_ q ∧ 0 < total q) ps →
  p ∈ ps → contains day p = true → ∃ r, rateIn ps day = Num r ∧ 0 < r.
Proof.
  intros Hwf. induction Hwf as [|q ps [Hq1 Hq2] _ IH]; intros Hin Hc.
  - by apply elem_of_nil in Hin.
  - simpl. destruct (contains day q) eqn:Hcq.
    + by apply getRate_pos.
    + apply elem_of_cons in Hin as [->|Hin]; [congruence|]. by apply IH.
Qed.

(** C5, as the release manager implements it.  [getRateAtDay] returns the
    rate of the first phase, in the order of the list, whose closed
    interval contains the day, in that phase's own unit (no conversion is
    applied): [total / (end - start)] when the phase has a duration, and,
    when it ends on the day it starts, NaN for a total of zero and
    otherwise the infinity of the sign of the total.  It returns [0] when
    no phase contains the day.  When every phase of the list has
    [start < end] and a positive total, the rate is a positive number at
    both ends of every phase, and is [0] at [end + eps] for every
    [eps > 0] such that [end + eps] lies outside every phase. *)
Theorem getRateAtDay_first_phase (m : ReleaseManager.t) :
  (∀ l1 l2 p day,
     phases m = l1 ++ p :: l2 →
     Forall (λ q, contains day q = false) l1 →
     start p <= day ∧ day <= end_ p →
     (start p < end_ p →
      getRateAtDay m day = Num (total p / (end_ p - start p))) ∧
     (end_ p == start p →
      getRateAtDay m day
      = (if Qeq_bool (total p) 0 then NaN
         else if Qltb 0 (total p) then PosInf else NegInf))) ∧
  (∀ day,
     (∀ q, q ∈ phases m → ¬ (start q <= day ∧ day <= end_ q)) →
     getRateAtDay m day = Num 0) ∧
  (Forall (λ q, start q < end_ q ∧ 0 < total q) (phases m) →
   ∀ p, p ∈ phases m →
     (∃ r, getRateAtDay m (start p) = Num r ∧ 0 < r) ∧
     (∃ r, getRateAtDay m (end_ p) = Num r ∧ 0 < r) ∧
     ∀ eps, 0 < eps →
       (∀ q, q ∈ phases m → q ≠ p →
          ¬ (start q <= end_ p + eps ∧ end_ p + eps <= end_ q)) →
       getRateAtDay m (end_ p + eps) = Num 0).
Proof.
  unfold getRateAtDay. split; [|split].
  - intros l1 l2 p day -> Hl1 Hp.
    rewrite (rateIn_first l1 l2 p day Hl1) by by apply contains_spec.
    split.
    + intros Hlt. apply getRate_finite. lra.
    + apply getRate_instant.
  - intros day Hout. apply rateIn_none, Forall_forall. intros q Hq.
    apply not_true_iff_false. rewrite contains_spec. by apply Hout.
  - intros Hwf p Hp.
    pose proof (proj1 (Forall_forall _ _) Hwf p Hp) as [Hlt _].
    split; [|split].
    + apply (rateIn_pos _ p); [done..|]. apply contains_spec. lra.
    + apply (rateIn_pos _ p); [done..|]. apply contains_spec. lra.
    + intros eps Heps Hout. apply rateIn_none, Forall_forall. intros q Hq.
      apply not_true_iff_false. rewrite contains_spec.
      destruct (decide (q = p)) as [->|Hne]; [lra|by apply Hout].
Qed.

Lemma getRateAtDay_first_phase_witness :
  getRateAtDay sampleManager 50 = Num (3 / (100 - 40)) ∧
  getRateAtDay sampleManager 35 = Num 0 ∧
  (∃ r, getRateAtDay sampleManager 0 = Num r ∧ 0 < r) ∧
  (∃ r, getRateAtDay sampleManager 30 = Num r ∧ 0 < r) ∧
  getRateAtDay sampleManager (30 + 5) = Num 0.
Proof.
  destruct (getRateAtDay_first_phase sampleManager) as (H1 & H2 & H3).
  assert (Hwf : Forall (λ q, start q < end_ q ∧ 0 < total q)
                       (phases sampleManager)).
  { repeat constructor; simpl; lra. }
  assert (Hin : ReleasePhase.make 0 30 10 "PBq" ∈ phases sampleManager)
    by (simpl; left).
  destruct (H3 Hwf _ Hin) as (H4 & H5 & H6).
  split; [|split; [|split; [|split]]].
  - assert (Forall (λ q, contains 50 q = false) [ReleasePhase.make 0 30 10 "PBq"])
      as Hbefore by repeat constructor.
    destruct (H1 [ReleasePhase.make 0 30 10 "PBq"] []
                 (ReleasePhase.make 40 100 3 "TBq") 50 eq_refl Hbefore)
      as [Hfin _]; [simpl; lra|].
    apply Hfin. simpl. lra.
  - apply H2. intros q Hq.
    repeat (apply elem_of_cons in Hq as [->|Hq]); simpl; [lra|lra|].
    by apply elem_of_nil in Hq.
  - exact H4.
  - exact H5.
  - apply (H6 5); [lra|]. intros q Hq Hne.
    repeat (apply elem_of_cons in Hq as [->|Hq]); simpl; [done|lra|].
    by apply elem_of_nil in Hq.
Defined.

(** C5 does not hold for every list of phases.  A phase with a total of
    zero has the rate 0 at its start; a phase that ends before it starts
    contains no day, so the rate at its start is 0; and a phase of no
    duration and no total has the rate NaN at its start. *)
Lemma rate_at_phase_start_not_positive :
  (∃ r, getRateAtDay
          (ReleaseManager.make "cs137" cs137 [ReleasePhase.make 0 30 0 "PBq"]) 0
        = Num r ∧ r == 0) ∧
  getRateAtDay
    (ReleaseManager.make "cs137" cs137 [ReleasePhase.make 10 5 1 "PBq"]) 10
  = Num 0 ∧
  getRateAtDay
    (ReleaseManager.make "cs137" cs137 [ReleasePhase.make 5 5 0 "PBq"]) 5
  = NaN.
Proof.
  split; [|split]; [|reflexivity|reflexivity].
  eexists. split; reflexivity.
Qed.

(** C6.  For Cs-137 the constructor's call of [addDefaultPhase] yields one
    phase over days 0 to 30 whose unit is ['PBq'], but whose total is the
    inventory divided by [1e9], that is 16200000 and not 16.2: counted in
    the base unit the schedule releases [16.2e12] GBq, a million times the
    tracer's inventory of [16.2e6] GBq. *)
Theorem addDefaultPhase_cs137 :
  ∃ p, phases (ReleaseManager.new "cs137") = [p] ∧
       start p = 0 ∧ end_ p = 30 ∧ unit p = "PBq" ∧
       total p == 16200000 ∧ ¬ total p == 16.2 ∧
       getTotalRelease (ReleaseManager.new "cs137") == 16200000000000 ∧
       Tracer.defaultTotal cs137 / 1000000000 == 16200000.
Proof.
  eexists. split; [reflexivity|]. cbn.
  repeat split; try reflexivity. intros H. discriminate H.
Qed.
End ReleaseManagerFacts.

(** ** Path safety *)

Section PathSafety.
Import Engine.
Context `{!JsMath} `{!HycomLoader.t} `{!EkeLoader.t}.

Lemma checkPathFrom_None e startX startY stepX stepY depth day n s :
  checkPathFrom e startX startY stepX stepY depth day n s = None ↔
  ∀ k, (s <= k < s + Z.of_nat n)%Z →
    HycomLoader.isOcean
      (REFERENCE_LON e + (startX + stepX * inject_Z k) / LON_SCALE e)
      (REFERENCE_LAT e + (startY + stepY * inject_Z k) / LAT_SCALE e)
      (jsmul depth (Num 1000)) day = true.
Proof.
  revert s. induction n as [|n IH]; intros s; simpl.
  - split; [intros _ k Hk; lia|done].
  - destruct (HycomLoader.isOcean _ _ _ _) eqn:Hoc.
    + rewrite IH. split.
      * intros Hall k Hk. destruct (decide (k = s)) as [->|Hne]; [done|].
        apply Hall. lia.
      * intros Hall k Hk. apply Hall. lia.
    + split; [done|]. intros Hall. specialize (Hall s). rewrite Hoc in Hall.
      discriminate Hall. lia.
Qed.

Lemma checkPathFrom_Some e startX startY stepX stepY depth day n s r :
  checkPathFrom e startX startY stepX stepY depth day n s = Some r →
  ∃ k, (s <= k < s + Z.of_nat n)%Z ∧
    (∀ j, (s <= j < k)%Z →
       HycomLoader.isOcean
         (REFERENCE_LON e + (startX + stepX * inject_Z j) / LON_SCALE e)
         (REFERENCE_LAT e + (startY + stepY * inject_Z j) / LAT_SCALE e)
         (jsmul depth (Num 1000)) day = true) ∧
    HycomLoader.isOcean
      (REFERENCE_LON e + (startX + stepX * inject_Z k) / LON_SCALE e)
      (REFERENCE_LAT e + (startY + stepY * inject_Z k) / LAT_SCALE e)
      (jsmul depth (Num 1000)) day = false ∧
    r = {| safe := false;
           lastValidX := startX + stepX * inject_Z (k - 1);
           lastValidY := startY + stepY * inject_Z (k - 1) |}.
Proof.
  revert s. induction n as [|n IH]; intros s; simpl; [done|].
  destruct (HycomLoader.isOcean _ _ _ _) eqn:Hoc.
  - intros Hr. destruct (IH _ Hr) as (k & Hk & Hbefore & Hat & ->).
    exists k. split; [lia|]. split; [|done].
    intros j Hj. destruct (decide (j = s)) as [->|Hne]; [done|].
    apply Hbefore. lia.
  - intros [= <-]. exists s. split; [lia|]. split; [|done].
    intros j Hj. lia.
Qed.

(** What the path check returns. *)
Lemma checkPathToOcean_spec e startX startY endX endY depth day steps :
  let r := _checkPathToOcean e startX startY endX endY depth day steps in
  let stepX := (endX - startX) / inject_Z (Z.of_nat steps) in
  let stepY := (endY - startY) / inject_Z (Z.of_nat steps) in
  (safe r = true ↔
   ∀ k, (1 <= k <= Z.of_nat steps)%Z →
     sampleIsOcean e startX startY endX endY depth day steps k = true) ∧
  (safe r = true → lastValidX r = endX ∧ lastValidY r = endY) ∧
  (safe r = false →
   ∃ k, (1 <= k <= Z.of_nat steps)%Z ∧
     (∀ j, (1 <= j < k)%Z →
        sampleIsOcean e startX startY endX endY depth day steps j = true) ∧
     sampleIsOcean e startX startY endX endY depth day steps k = false ∧
     lastValidX r = startX + stepX * inject_Z (k - 1) ∧
     lastValidY r = startY + stepY * inject_Z (k - 1)).
Proof.
  intros r stepX stepY. subst r. unfold _checkPathToOcean, sampleIsOcean.
  fold stepX stepY.
  destruct (checkPathFrom e startX startY stepX stepY depth day steps 1)
    as [r|] eqn:Hc.
  - apply checkPathFrom_Some in Hc as (k & Hk & Hbefore & Hat & ->). simpl.
    split; [|split]; [split; [done|]|done|].
    + intros Hall. rewrite Hall in Hat; [done|lia].
    + intros _. exists k. repeat split; [lia|lia|done..].
  - simpl. split; [|split]; [split; [|done]|done|done].
    intros _ k Hk. eapply checkPathFrom_None; [exact Hc|lia].
Qed.

(** C1, as the engine implements it.  The check of a proposed move queries
    [isOcean] at the samples [start + k * (end - start) / 5], [k = 1 .. 5]
    (the fifth is the proposed position itself), stopping at the first
    sample on land.  The move is accepted exactly when all five samples are
    ocean.  When sample [k] is the first on land, the position reported as
    last valid is sample [k - 1] (the start for [k = 1]).  A rejected RK4
    advection puts the particle at that position and zeroes its stored
    velocity; a rejected Euler advection puts the particle at that
    position; a rejected diffusion step puts the particle back where it was
    before the diffusion and leaves its stored velocity as it is. *)
Theorem path_check_five_samples (e : Engine.t) (p : Particle.t)
    (velocity : Velocity.t) (deltaDays day g1 g2 : Q) :
  (∀ startX startY endX endY depth,
     let r := _checkPathToOcean e startX startY endX endY depth day 5 in
     (safe r = true ↔
      ∀ k, (1 <= k <= 5)%Z →
        sampleIsOcean e startX startY endX endY depth day 5 k = true) ∧
     (safe r = false →
      ∃ k, (1 <= k <= 5)%Z ∧
        (∀ j, (1 <= j < k)%Z →
           sampleIsOcean e startX startY endX endY depth day 5 j = true) ∧
        sampleIsOcean e startX startY endX endY depth day 5 k = false ∧
        lastValidX r = startX + (endX - startX) / 5 * inject_Z (k - 1) ∧
        lastValidY r = startY + (endY - startY) / 5 * inject_Z (k - 1))) ∧
  (rk4Enabled e && rk4_enabled (rk4Settings e) = true →
   let r := rk4Integrate e p deltaDays day in
   let c := _checkPathToOcean e (Particle.x p) (Particle.y p) (int_x r) (int_y r)
              (Particle.depth p) day 5 in
   let p' := advectionStage e p velocity deltaDays day in
   (safe c = true → Particle.x p' = int_x r ∧ Particle.y p' = int_y r) ∧
   (safe c = false →
    Particle.x p' = lastValidX c ∧ Particle.y p' = lastValidY c ∧
    Particle.velocityU p' = 0 ∧ Particle.velocityV p' = 0)) ∧
  (rk4Enabled e && rk4_enabled (rk4Settings e) = false →
   Velocity.found velocity = true →
   let newX := Particle.x p + Velocity.u velocity * 86.4 * deltaDays in
   let newY := Particle.y p + Velocity.v velocity * 86.4 * deltaDays in
   let c := _checkPathToOcean e (Particle.x p) (Particle.y p) newX newY
              (Particle.depth p) day 5 in
   let p' := advectionStage e p velocity deltaDays day in
   (safe c = true → Particle.x p' = newX ∧ Particle.y p' = newY) ∧
   (safe c = false →
    Particle.x p' = lastValidX c ∧ Particle.y p' = lastValidY c)) ∧
  (Qltb 0.01 (diffusivityScale (params e)) = true →
   let q := applyDiffusion e p deltaDays day g1 g2 in
   let c := _checkPathToOcean e (Particle.x p) (Particle.y p)
              (Particle.x q) (Particle.y q) (Particle.depth q) day 5 in
   let p' := diffusionStage e p deltaDays day g1 g2 in
   (safe c = true → p' = q) ∧
   (safe c = false →
    Particle.x p' = Particle.x p ∧ Particle.y p' = Particle.y p ∧
    Particle.velocityU p' = Particle.velocityU p ∧
    Particle.velocityV p' = Particle.velocityV p)).
Proof.
  split; [|split; [|split]].
  - intros startX startY endX endY depth r.
    destruct (checkPathToOcean_spec e startX startY endX endY depth day 5)
      as (Hsafe & _ & Hfail).
    split; [exact Hsafe|exact Hfail].
  - intros Hrk r c p'. subst p'. unfold advectionStage. rewrite Hrk.
    fold r. fold c. split; intros Hc; rewrite Hc; simpl; done.
  - intros Hrk Hfound newX newY c p'. subst p'. unfold advectionStage.
    rewrite Hrk, Hfound. fold newX newY. fold c.
    split; intros Hc; rewrite Hc; simpl; done.
  - intros Hscale q c p'. subst p'. unfold diffusionStage. rewrite Hscale.
    fold q. fold c. split; intros Hc; rewrite Hc; simpl; [done|].
    subst q. unfold applyDiffusion.
    destruct (EkeLoader.getDiffusivityAt _ _ _); done.
Qed.
End PathSafety.

Lemma path_check_five_samples_witness :
  let p' := @Engine.advectionStage sampleMath sampleCoast sampleEngine sampleParticle
              (Velocity.make 0.1 0 true) 1 0 in
  let q := @Engine.diffusionStage sampleMath sampleCoast sampleEke
             (Engine.enableRK4 sampleEngine true) sampleParticle 1 0 (1 # 2) 0 in
  Engine.Particle.x p' == -1 ∧
  Engine.Particle.x q = -1 ∧
  Engine.Particle.velocityU
    (@Engine.advectionStage sampleMath sampleCoast (Engine.enableRK4 sampleEngine true)
       sampleParticle (Velocity.make 0.1 0 true) 1 0) = 0.
Proof.
  pose proof (@path_check_five_samples sampleMath sampleCoast sampleEke
                sampleEngine sampleParticle (Velocity.make 0.1 0 true)
                1 0 (1 # 2) 0) as (_ & _ & Heuler & _).
  pose proof (@path_check_five_samples sampleMath sampleCoast sampleEke
                (Engine.enableRK4 sampleEngine true) sampleParticle
                (Velocity.make 0.1 0 true) 1 0 (1 # 2) 0)
    as (_ & Hrk & _ & Hdiff).
  split; [|split].
  - destruct (Heuler eq_refl eq_refl) as [_ Hfail].
    destruct (Hfail eq_refl) as [-> _]. vm_compute. reflexivity.
  - destruct (Hdiff eq_refl) as [_ Hfail].
    destruct (Hfail eq_refl) as [-> _]. reflexivity.
  - destruct (Hrk eq_refl) as [_ Hfail].
    destruct (Hfail eq_refl) as (_ & _ & -> & _). reflexivity.
Defined.

(** C1 does not hold for a diffusion move.  One kilometre west of the coast,
    a diffusion step of 3.6 km eastwards fails its path check at the second
    sample; the last verified sample is 0.28 km west of the coast, but the
    particle is put back at its position before the diffusion, one
    kilometre west, and its stored velocity of 0.1 m/s is not zeroed. *)
Lemma diffusion_reverts_to_start :
  let q := @Engine.applyDiffusion sampleMath sampleEke sampleEngine sampleParticle
             1 0 (1 # 2) 0 in
  let c := @Engine._checkPathToOcean sampleCoast sampleEngine
             (Engine.Particle.x sampleParticle) (Engine.Particle.y sampleParticle)
             (Engine.Particle.x q) (Engine.Particle.y q)
             (Engine.Particle.depth q) 0 5 in
  let p' := @Engine.diffusionStage sampleMath sampleCoast sampleEke sampleEngine
              sampleParticle 1 0 (1 # 2) 0 in
  Engine.Particle.x q == 2.6 ∧
  Engine.safe c = false ∧
  Engine.lastValidX c == -0.28 ∧
  Engine.Particle.x p' == -1 ∧
  ¬ Engine.Particle.x p' == Engine.lastValidX c ∧
  Engine.Particle.velocityU p' == 0.1 ∧
  ¬ Engine.Particle.velocityU p' == 0.
Proof.
  vm_compute. repeat split; try reflexivity; intros H; discriminate H.
Qed.

(** ** Configuration of the release schedule *)

Section ReleasePhasesFacts.
Import Engine.


End ReleasePhasesFacts.

(** ** The depth band *)

Section DepthBand.
Import Engine.
Context `{!JsMath} `{!HycomLoader.t} `{!EkeLoader.t}.

Lemma clamp_in_band (d : Q) : 0 <= Qmax 0 (Qmin d 1.0) ∧ Qmax 0 (Qmin d 1.0) <= 1.
Proof.
  split; [apply Q.le_max_l|].
  apply Q.max_lub; [lra|]. eapply Qle_trans; [apply Q.le_min_r|]. lra.
Qed.

Lemma Qltb_ge (a b : Q) : b <= a → Qltb a b = false.
Proof.
  intros Hle. unfold Qltb. apply negb_false_iff. by apply Qle_bool_iff.
Qed.


(** [Math.max(0, Math.min(x, 1.0))] of a number is a number of the band. *)
Lemma jsclamp_Num (x : Q) :
  ∃ c, jsmax (Num 0) (jsmin (Num x) (Num 1.0)) = Num c ∧
       c == Qmax 0 (Qmin x 1.0) ∧ 0 <= c ∧ c <= 1.
Proof.
  unfold jsmin. cbn [jsleb]. destruct (Qle_bool x 1.0) eqn:Hx1.
  - apply Qle_bool_iff in Hx1. unfold jsmax. cbn [jsleb].
    destruct (Qle_bool 0 x) eqn:Hx0.
    + apply Qle_bool_iff in Hx0. exists x. split; [done|].
      split; [|lra]. rewrite (Q.min_l x 1.0 Hx1). by rewrite Q.max_r.
    + assert (x < 0).
      { apply Qnot_le_lt. intros Hle. apply Qle_bool_iff in Hle. congruence. }
      exists 0. split; [done|]. split; [|lra].
      rewrite (Q.min_l x 1.0 Hx1). rewrite Q.max_l; [done|lra].
  - assert (1.0 < x).
    { apply Qnot_le_lt. intros Hle. apply Qle_bool_iff in Hle. congruence. }
    exists 1.0. split; [done|]. split; [|lra].
    rewrite Q.min_r by lra. rewrite Q.max_r; [done|lra].
Qed.

Lemma getVerticalDiffusivity_nonneg e depthMeters :
  kzNotNegative e → 0 <= getVerticalDiffusivity e depthMeters.
Proof.
  intros (Hm & Hu & Hd). unfold getVerticalDiffusivity. by repeat case_match.
Qed.

(** The vertical displacement is a number as long as the square root is
    taken of a number that is not negative. *)
Lemma verticalDisplacement_Num e p dtSeconds g d :
  Particle.depth p = Num d →
  0 <= 2 * getVerticalDiffusivity e (Num (d * 1000)) * dtSeconds →
  ∃ disp, verticalDisplacement e p dtSeconds g = Num disp.
Proof.
  intros Hd Hrad. unfold verticalDisplacement. rewrite Hd.
  change (jsmul (Num d) (Num 1000)) with (Num (d * 1000)).
  unfold jssqrt. rewrite (Qltb_ge _ 0 Hrad). cbn [jsmul jsadd]. eauto.
Qed.


Lemma applyVerticalMotion_depth e st p dtSeconds g :
  Particle.depth (applyVerticalMotion e st p dtSeconds g).1
  = jsmax (Num 0)
      (jsmin (jsadd (Particle.depth p)
                (jsdiv (verticalDisplacement e p dtSeconds g) (Num 1000)))
         (Num 1.0)).
Proof. unfold applyVerticalMotion. by case_match. Qed.

Lemma applyVerticalMotion_depth_Num e st p dtSeconds g d :
  Particle.depth p = Num d →
  0 <= 2 * getVerticalDiffusivity e (Num (d * 1000)) * dtSeconds →
  ∃ disp c,
    verticalDisplacement e p dtSeconds g = Num disp ∧
    Particle.depth (applyVerticalMotion e st p dtSeconds g).1 = Num c ∧
    c == Qmax 0 (Qmin (d + disp / 1000) 1.0) ∧ 0 <= c ∧ c <= 1.
Proof.
  intros Hd Hrad.
  destruct (verticalDisplacement_Num e p dtSeconds g d Hd Hrad) as [disp Hdisp].
  rewrite applyVerticalMotion_depth, Hdisp, Hd.
  change (jsdiv (Num disp) (Num 1000)) with (Num (disp / 1000)).
  cbn [jsadd].
  destruct (jsclamp_Num (d + disp / 1000)) as (c & Hc & Heq & Hband).
  exists disp, c. by rewrite Hc.
Qed.



Lemma rk4Step_depth e x y depth h time r :
  rk4Step e x y depth h time = Some r → int_depth r = depth.
Proof. unfold rk4Step. case_match; [done|]. by intros [= <-]. Qed.

Lemma rk4Loop_depth e actualStep day n step x y depth tu tv x' y' depth' tu' tv' :
  rk4Loop e actualStep day n step x y depth tu tv = Some (x', y', depth', tu', tv') →
  depth' = depth.
Proof.
  revert step x y depth tu tv.
  induction n as [|n IH]; intros step x y depth tu tv; simpl.
  - by intros [= _ _ <- _ _].
  - destruct (rk4Step _ _ _ _ _ _) as [r|] eqn:Hr; [|done]. intros Hl.
    apply IH in Hl. by rewrite Hl, (rk4Step_depth _ _ _ _ _ _ _ Hr).
Qed.

Lemma eulerIntegrate_depth e p deltaDays day :
  int_depth (eulerIntegrate e p deltaDays day) = Particle.depth p.
Proof. unfold eulerIntegrate. by case_match. Qed.

Lemma rk4Integrate_depth e p deltaDays day :
  int_depth (rk4Integrate e p deltaDays day) = Particle.depth p.
Proof.
  unfold rk4Integrate.
  destruct (rk4Loop _ _ _ _ _ _ _ _ _ _) as [[[[[x' y'] d'] tu'] tv']|] eqn:Hl.
  - simpl. by apply rk4Loop_depth in Hl.
  - apply eulerIntegrate_depth.
Qed.

Lemma advectionStage_depth e p velocity deltaDays day :
  Particle.depth (advectionStage e p velocity deltaDays day) = Particle.depth p.
Proof.
  unfold advectionStage. repeat case_match; simpl; try done.
  apply rk4Integrate_depth.
Qed.

Lemma applyDiffusion_depth e p deltaDays day g1 g2 :
  Particle.depth (applyDiffusion e p deltaDays day g1 g2) = Particle.depth p.
Proof. unfold applyDiffusion. by case_match. Qed.

Lemma diffusionStage_depth e p deltaDays day g1 g2 :
  Particle.depth (diffusionStage e p deltaDays day g1 g2) = Particle.depth p.
Proof.
  unfold diffusionStage. repeat case_match; simpl; try done;
    apply applyDiffusion_depth.
Qed.

Lemma checkLandInteraction_depth e p prevX prevY prevDepth day :
  let r := checkLandInteraction e p prevX prevY prevDepth day in
  (r.2 = false → Particle.depth r.1 = Particle.depth p) ∧
  (r.2 = true → Particle.depth r.1 = prevDepth).
Proof.
  unfold checkLandInteraction. repeat case_match; simpl; done.
Qed.

Lemma pushHistory_depth p : Particle.depth (pushHistory p) = Particle.depth p.
Proof. done. Qed.





Lemma releaseParticles_kzProfile e count normals :
  kzProfile (releaseParticles e count normals) = kzProfile e.
Proof. unfold releaseParticles. by destruct (releaseLoop _ _ _ _ _). Qed.


Lemma executeContinuousRelease_kzProfile e deltaDays normals :
  kzProfile (executeContinuousRelease e deltaDays normals) = kzProfile e.
Proof.
  unfold executeContinuousRelease.
  repeat case_match; try done; by rewrite releaseParticles_kzProfile.
Qed.


Lemma updateParticles_kzProfile e deltaDays velocities draws :
  kzProfile (updateParticles e deltaDays velocities draws) = kzProfile e.
Proof. unfold updateParticles. by repeat case_match. Qed.


Lemma update_kzProfile e deltaDays normals velocities draws :
  kzProfile (update e deltaDays normals velocities draws) = kzProfile e.
Proof.
  unfold update. case_match; [done|]. simpl.
  by rewrite updateParticles_kzProfile, executeContinuousRelease_kzProfile.
Qed.

(** No public operation writes the diffusivity profile of the constructor. *)
Lemma Reachable_kzProfile e :
  Reachable e → kzProfile e = kzProfile (new 0 "" None None).
Proof.
  induction 1 as [n tid loc doy|e _ IH|e _ IH|e _ IH|e _ IH|e count normals _ IH
                 |e dd normals vs ds _ _ IH|e phases _ IH|e enable _ IH
                 |e name value _ IH].
  - done.
  - unfold startSimulation. by repeat case_match.
  - unfold pauseSimulation. by case_match.
  - unfold resumeSimulation. by case_match.
  - done.
  - by rewrite releaseParticles_kzProfile.
  - by rewrite update_kzProfile.
  - done.
  - done.
  - unfold setParameter. by repeat case_match.
Qed.

Lemma Reachable_kzNotNegative e : Reachable e → kzNotNegative e.
Proof.
  intros Hr. unfold kzNotNegative. rewrite (Reachable_kzProfile e Hr).
  simpl. repeat split; lra.
Qed.


(** *** The same stages in the engine of [web/particleEngine.js] *)













End DepthBand.



(** ** RK4 and Euler on a uniform field *)

Section UniformField.
Import Engine.
Context `{!JsMath} `{!HycomLoader.t}.
Variables u v : Q.

(** Every velocity sample is found and is [(u, v)]. *)
Hypothesis uniform :
  ∀ lon lat depth day,
    HycomLoader.getVelocityAt lon lat depth day = Some (Velocity.make u v true).




Lemma Qceiling_pos (q : Q) : 0 < q → (1 <= Qceiling q)%Z.
Proof.
  intros Hq. pose proof (Qle_ceiling q) as Hc.
  assert (0 < inject_Z (Qceiling q)) as Hpos by lra.
  assert (0 < Qceiling q)%Z by (rewrite Zlt_Qlt; exact Hpos). lia.
Qed.

Lemma calculateOptimalStepSize_pos e p deltaDays :
  0 < minStepSize (rk4Settings e) → 0 < maxStepSize (rk4Settings e) →
  0 < deltaDays → 0 < calculateOptimalStepSize e p deltaDays.
Proof.
  intros Hmin Hmax Hd. unfold calculateOptimalStepSize.
  destruct (adaptiveStepSize (rk4Settings e)); simpl.
  - apply Q.min_glb_lt; [|done].
    eapply Qlt_le_trans; [exact Hmin|apply Q.le_max_r].
  - by apply Q.min_glb_lt.
Qed.

End UniformField.


(** ** Aging and decay *)

Section AgingAndDecay.
Context `{!JsMath} `{!HycomLoader.t} `{!EkeLoader.t}.

(** *** The engine of [web/particleEngine.js] *)

Import WebEngine.








(** *** The tracer-aware engine: it ages the particle and decays nothing *)






End AgingAndDecay.



(** ** The current loader *)

Section LoaderFacts.
Import Hycom.
Context `{!Host}.

(** *** Unloading keeps everything but the map and the released arrays *)

Lemma unloadIfInactive_fields l key :
  let l' := unloadIfInactive l key in
  depths l' = depths l ∧ activeDayKey l' = activeDayKey l ∧
  defaultDepth l' = defaultDepth l ∧ maxDaysInMemory l' = maxDaysInMemory l ∧
  length (objects l') = length (objects l).
Proof.
  unfold unloadIfInactive. repeat case_match; simpl; repeat split; try done.
  by rewrite length_alter.
Qed.

Lemma foldl_unload_fields l keys :
  let l' := foldl unloadIfInactive l keys in
  depths l' = depths l ∧ activeDayKey l' = activeDayKey l ∧
  defaultDepth l' = defaultDepth l ∧ maxDaysInMemory l' = maxDaysInMemory l ∧
  length (objects l') = length (objects l).
Proof.
  revert l. induction keys as [|k keys IH]; intros l; simpl; [done|].
  destruct (IH (unloadIfInactive l k)) as (?&?&?&?&?).
  destruct (unloadIfInactive_fields l k) as (?&?&?&?&?).
  repeat split; congruence.
Qed.

Lemma enforceMemoryLimit_fields l :
  let l' := _enforceMemoryLimit l in
  depths l' = depths l ∧ activeDayKey l' = activeDayKey l ∧
  defaultDepth l' = defaultDepth l ∧ maxDaysInMemory l' = maxDaysInMemory l ∧
  length (objects l') = length (objects l).
Proof.
  unfold _enforceMemoryLimit. case_match; [done|]. apply foldl_unload_fields.
Qed.

Lemma loadDayByDate_depths l key : depths (loadDayByDate l key).1 = depths l.
Proof.
  unfold loadDayByDate. repeat case_match; simpl; try done.
  by destruct (enforceMemoryLimit_fields
                 (make (depths l) (objects l ++ [d])
                    (<[key:=length (objects l)]> (loadedDays l)) (Some key)
                    (defaultDepth l) (maxDaysInMemory l))) as (-> & _).
Qed.

Lemma getDepthIndex_depths l l' targetDepth :
  depths l' = depths l → getDepthIndex l' targetDepth = getDepthIndex l targetDepth.
Proof. unfold getDepthIndex. by intros ->. Qed.

(** *** Ocean test and velocity lookup *)

Lemma isOcean_resolve l lon lat depth day :
  (isOcean l lon lat depth day).2 = true ↔
  ∃ dayData idx uArr,
    resolve l lon lat depth day = Some (dayData, idx) ∧
    uArray dayData = Some uArr ∧
    passesSentinel (read uArr idx) = true.
Proof.
  unfold isOcean, resolve, passesSentinel.
  pose proof (loadDayByDate_depths l (simulationDayToDate day)) as Hd.
  destruct (loadDayByDate l (simulationDayToDate day)) as [l' [ref|]];
    simpl in *.
  2: { split; [done|]. by intros (?&?&?&?&?). }
  rewrite (getDepthIndex_depths l l' depth Hd).
  destruct (objects l' !! ref) as [dayData|]; simpl.
  2: { split; [done|]. by intros (?&?&?&?&?). }
  destruct (findNearestCell lon lat dayData) as [cell|]; simpl.
  2: { split; [done|]. by intros (?&?&?&?&?). }
  destruct (uArray dayData) as [uArr|] eqn:Hu; simpl.
  2: { split; [done|]. intros (?&?&?&?&?&?). by simplify_eq. }
  split.
  - intros Hs.
    by exists dayData,
      (getDepthIndex l depth * totalCells dayData + cell_idx cell)%nat, uArr.
  - intros (dd & idx & uArr' & Hres & Hu' & Hs). by simplify_eq.
Qed.

Lemma passesSentinel_both (u v : option jsfloat) :
  velocityIsOcean u v = true ↔
  passesSentinel u = true ∧ passesSentinel v = true.
Proof.
  unfold velocityIsOcean, passesSentinel.
  destruct (isNaN u), (isNaN v), (absBelow1000 u), (absBelow1000 v);
    simpl; split; (done || by intros [??]).
Qed.

Lemma getVelocityAt_resolve l lon lat depth day r :
  (getVelocityAt l lon lat (Some depth) day).2 = Some r →
  (found r = true ↔
   ∃ dayData idx uArr vArr,
     resolve l lon lat depth day = Some (dayData, idx) ∧
     (idx < totalDataPoints dayData)%nat ∧
     uArray dayData = Some uArr ∧ vArray dayData = Some vArr ∧
     passesSentinel (read uArr idx) = true ∧
     passesSentinel (read vArr idx) = true).
Proof.
  unfold getVelocityAt, resolve. simpl.
  destruct (loadDayByDate l (simulationDayToDate day)) as [l' [ref|]];
    simpl; [|done].
  destruct (objects l' !! ref) as [dayData|]; simpl; [|done].
  destruct (findNearestCell lon lat dayData) as [cell|]; simpl.
  2: { intros [= <-]. simpl. split; [done|]. by intros (?&?&?&?&?&?). }
  destruct (Nat.leb_spec (totalDataPoints dayData)
              (getDepthIndex l depth * totalCells dayData + cell_idx cell))
    as [Hge|Hlt].
  { intros [= <-]. simpl. split; [done|].
    intros (dd & idx & uArr & vArr & Hres & Hlt & _). simplify_eq. lia. }
  destruct (uArray dayData) as [uArr|] eqn:Hu; [|done].
  destruct (vArray dayData) as [vArr|] eqn:Hv; [|done].
  intros [= <-]. simpl. rewrite passesSentinel_both. split.
  - intros [Hs1 Hs2].
    by exists dayData,
      (getDepthIndex l depth * totalCells dayData + cell_idx cell)%nat,
      uArr, vArr.
  - intros (dd & idx & uArr' & vArr' & Hres & _ & Hu' & Hv' & Hs1 & Hs2).
    by simplify_eq.
Qed.

(** C2, as the loader implements it.  [isOcean] answers [true] exactly when
    the day of the date can be loaded, a nearest cell exists, and the [u]
    value of that cell at the snapped depth level is not NaN and of
    magnitude below 1000; the [v] value is not consulted.  The [found] flag
    of [getVelocityAt] is [true] exactly when, in addition, the index lies
    within the data and the [v] value passes the same test.  Hence [found]
    implies [isOcean], and the two agree whenever the index lies within the
    data and the [v] value passes the test. *)
Theorem isOcean_tests_u_only (l : Hycom.t) (lon lat depth day : Q) :
  let ocean := (isOcean l lon lat depth day).2 in
  let velocity := (getVelocityAt l lon lat (Some depth) day).2 in
  (ocean = true ↔
   ∃ dayData idx uArr,
     resolve l lon lat depth day = Some (dayData, idx) ∧
     uArray dayData = Some uArr ∧
     passesSentinel (read uArr idx) = true) ∧
  (∀ r, velocity = Some r →
     (found r = true ↔
      ∃ dayData idx uArr vArr,
        resolve l lon lat depth day = Some (dayData, idx) ∧
        (idx < totalDataPoints dayData)%nat ∧
        uArray dayData = Some uArr ∧ vArray dayData = Some vArr ∧
        passesSentinel (read uArr idx) = true ∧
        passesSentinel (read vArr idx) = true) ∧
     (found r = true → ocean = true) ∧
     (∀ dayData idx vArr,
        resolve l lon lat depth day = Some (dayData, idx) →
        (idx < totalDataPoints dayData)%nat →
        vArray dayData = Some vArr →
        passesSentinel (read vArr idx) = true →
        found r = ocean)).
Proof.
  intros ocean velocity. split; [apply isOcean_resolve|].
  intros r Hr.
  pose proof (getVelocityAt_resolve l lon lat depth day r Hr) as Hfound.
  split; [exact Hfound|]. split.
  - intros Hf. apply isOcean_resolve.
    apply Hfound in Hf as (dd & idx & uArr & vArr & ? & ? & ? & ? & ? & ?).
    by exists dd, idx, uArr.
  - intros dd idx vArr Hres Hidx Hv Hsv.
    destruct ocean eqn:Hoc.
    + apply Hfound. apply isOcean_resolve in Hoc as (dd' & idx' & uArr & ? & ? & ?).
      simplify_eq. by exists dd, idx, uArr, vArr.
    + apply not_true_iff_false. intros Hf.
      apply Hfound in Hf as (dd' & idx' & uArr & vArr' & ? & ? & ? & ? & ? & ?).
      assert (ocean = true) as Hoc'; [|congruence].
      apply isOcean_resolve. by exists dd', idx', uArr.
Qed.
(** *** The day cache *)

Lemma sortedKeys_elem l k : k ∈ sortedKeys l ↔ is_Some (loadedDays l !! k).
Proof.
  unfold sortedKeys. rewrite merge_sort_Permutation, list_elem_of_fmap. split.
  - intros [[k' ref] [-> Hin]]. apply elem_of_map_to_list in Hin. by exists ref.
  - intros [ref Href]. exists (k, ref). split; [done|].
    by apply elem_of_map_to_list.
Qed.

Lemma sortedKeys_NoDup l : NoDup (sortedKeys l).
Proof.
  unfold sortedKeys. rewrite merge_sort_Permutation.
  apply NoDup_fst_map_to_list.
Qed.

Lemma sortedKeys_length l : length (sortedKeys l) = size (loadedDays l).
Proof.
  unfold sortedKeys. rewrite merge_sort_Permutation.
  by rewrite length_fmap, length_map_to_list.
Qed.

Lemma sortedKeys_sorted l : StronglySorted String.le (sortedKeys l).
Proof. apply StronglySorted_merge_sort; apply _. Qed.

Lemma unloadIfInactive_lookup l key k :
  loadedDays (unloadIfInactive l key) !! k =
  if decide (k = key ∧ Some k ≠ activeDayKey l) then None
  else loadedDays l !! k.
Proof.
  unfold unloadIfInactive. destruct (decide (Some key = activeDayKey l)) as [Ha|Ha].
  - case_decide as Hk; [|done]. destruct Hk as [-> Hk]. done.
  - simpl. case_decide as Hk.
    + destruct Hk as [-> _]. apply lookup_delete_eq.
    + apply lookup_delete_ne. intros <-. apply Hk. by split.
Qed.

Lemma foldl_unload_lookup l keys k :
  loadedDays (foldl unloadIfInactive l keys) !! k =
  if decide (k ∈ keys ∧ Some k ≠ activeDayKey l) then None
  else loadedDays l !! k.
Proof.
  revert l. induction keys as [|key keys IH]; intros l; cbn [foldl].
  - destruct (decide _) as [[Hk _]|_]; [|done]. by apply elem_of_nil in Hk.
  - rewrite IH, unloadIfInactive_lookup.
    destruct (unloadIfInactive_fields l key) as (_ & -> & _).
    destruct (decide (k ∈ keys ∧ _)) as [[Hin Ha]|Hn1].
    + rewrite decide_True; [done|]. split; [by right|done].
    + destruct (decide (k = key ∧ _)) as [[-> Ha]|Hn2].
      * rewrite decide_True; [done|]. split; [by left|done].
      * rewrite decide_False; [done|]. intros [Hin Ha].
        apply elem_of_cons in Hin as [->|Hin]; [by apply Hn2|by apply Hn1].
Qed.

Lemma unloadIfInactive_released l key ref d :
  objects l !! ref = Some d → released d →
  ∃ d', objects (unloadIfInactive l key) !! ref = Some d' ∧ released d'.
Proof.
  intros Hd Hrel. unfold unloadIfInactive.
  destruct (decide (Some key = activeDayKey l)); [by exists d|]. simpl.
  destruct (loadedDays l !! key) as [r|]; [|by exists d].
  destruct (decide (r = ref)) as [->|Hne].
  - rewrite list_lookup_alter_eq, Hd. simpl.
    eexists. split; [done|]. by repeat split.
  - rewrite list_lookup_alter_ne by done. by exists d.
Qed.

Lemma foldl_unload_released l keys ref d :
  objects l !! ref = Some d → released d →
  ∃ d', objects (foldl unloadIfInactive l keys) !! ref = Some d' ∧ released d'.
Proof.
  revert l d. induction keys as [|key keys IH]; intros l d Hd Hrel; simpl.
  - eauto.
  - destruct (unloadIfInactive_released l key ref d Hd Hrel) as (d' & Hd' & Hrel').
    eauto.
Qed.

Lemma unloadIfInactive_releases l key ref :
  Some key ≠ activeDayKey l → loadedDays l !! key = Some ref →
  (ref < length (objects l))%nat →
  ∃ d, objects (unloadIfInactive l key) !! ref = Some d ∧ released d.
Proof.
  intros Ha Href Hlt. unfold unloadIfInactive.
  rewrite decide_False by done. rewrite Href. simpl.
  destruct (lookup_lt_is_Some_2 (objects l) ref Hlt) as [d Hd].
  exists (releaseArrays d). rewrite list_lookup_alter_eq, Hd.
  split; [done|]. by repeat split.
Qed.

Lemma foldl_unload_releases l keys k ref :
  k ∈ keys → Some k ≠ activeDayKey l → loadedDays l !! k = Some ref →
  (ref < length (objects l))%nat →
  ∃ d, objects (foldl unloadIfInactive l keys) !! ref = Some d ∧ released d.
Proof.
  revert l. induction keys as [|key keys IH]; intros l Hin Ha Href Hlt; simpl.
  - by apply elem_of_nil in Hin.
  - destruct (decide (key = k)) as [->|Hne].
    + destruct (unloadIfInactive_releases l k ref Ha Href Hlt) as (d & Hd & Hrel).
      eapply foldl_unload_released; eauto.
    + apply elem_of_cons in Hin as [->|Hin]; [done|].
      destruct (unloadIfInactive_fields l key) as (_ & Hact & _ & _ & Hlen).
      apply IH; [done|by rewrite Hact| |by rewrite Hlen].
      rewrite unloadIfInactive_lookup, decide_False; [done|].
      intros [-> _]. done.
Qed.

Lemma resident_after_enforce l a k :
  activeDayKey l = Some a →
  (maxDaysInMemory l < size (loadedDays l))%nat →
  k ≠ a →
  is_Some (loadedDays (_enforceMemoryLimit l) !! k) →
  k ∈ drop (length (sortedKeys l) - maxDaysInMemory l) (sortedKeys l).
Proof.
  intros Ha Hsize Hk [ref Href]. unfold _enforceMemoryLimit in Href.
  rewrite (proj2 (Nat.leb_gt _ _)) in Href by done.
  rewrite foldl_unload_lookup in Href.
  destruct (decide _) as [|Hn]; [done|].
  assert (k ∈ sortedKeys l) as Hin by (apply sortedKeys_elem; by exists ref).
  rewrite <- (take_drop (length (sortedKeys l) - maxDaysInMemory l)
                (sortedKeys l)) in Hin.
  apply elem_of_app in Hin as [Hin|Hin]; [|done].
  exfalso. apply Hn. split; [done|]. rewrite Ha. by intros [= ->].
Qed.

Lemma enforceMemoryLimit_spec l a :
  activeDayKey l = Some a →
  let l' := _enforceMemoryLimit l in
  loadedDays l' !! a = loadedDays l !! a ∧
  (∀ k ref, loadedDays l' !! k = Some ref → loadedDays l !! k = Some ref) ∧
  (size (delete a (loadedDays l')) <= maxDaysInMemory l)%nat ∧
  (∀ k ref,
     loadedDays l !! k = Some ref → loadedDays l' !! k = None →
     k ≠ a ∧
     (∀ k', k' ≠ a → is_Some (loadedDays l' !! k') → String.le k k') ∧
     ((ref < length (objects l))%nat →
      ∃ d, objects l' !! ref = Some d ∧ released d)).
Proof.
  intros Ha l'.
  destruct (Nat.leb_spec (size (loadedDays l)) (maxDaysInMemory l)) as [Hle|Hgt].
  { assert (l' = l) as ->.
    { subst l'. unfold _enforceMemoryLimit.
      by rewrite (proj2 (Nat.leb_le _ _)) by done. }
    split; [done|]. split; [done|]. split; [|congruence].
    rewrite map_size_delete. destruct (loadedDays l !! a); simpl; lia. }
  assert (Hlookup : ∀ k,
    loadedDays l' !! k =
    if decide (k ∈ take (length (sortedKeys l) - maxDaysInMemory l) (sortedKeys l)
               ∧ Some k ≠ activeDayKey l)
    then None else loadedDays l !! k).
  { intros k. subst l'. unfold _enforceMemoryLimit.
    rewrite (proj2 (Nat.leb_gt _ _)) by done. apply foldl_unload_lookup. }
  split; [|split; [|split]].
  - rewrite Hlookup, decide_False; [done|]. intros [_ Hne]. by rewrite Ha in Hne.
  - intros k ref. rewrite Hlookup. by destruct (decide _).
  - rewrite <- size_dom.
    transitivity (size (list_to_set (C:=gset string)
      (drop (length (sortedKeys l) - maxDaysInMemory l) (sortedKeys l)))).
    + apply subseteq_size. intros k Hk. apply elem_of_list_to_set.
      apply elem_of_dom in Hk.
      destruct (decide (k = a)) as [->|Hne].
      { rewrite lookup_delete_eq in Hk. by destruct Hk. }
      rewrite lookup_delete_ne in Hk by done.
      exact (resident_after_enforce l a k Ha Hgt Hne Hk).
    + rewrite size_list_to_set.
      * rewrite length_drop, sortedKeys_length. lia.
      * pose proof (sortedKeys_NoDup l) as Hnd.
        rewrite <- (take_drop (length (sortedKeys l) - maxDaysInMemory l)
                      (sortedKeys l)) in Hnd.
        by apply NoDup_app in Hnd as (_ & _ & Hnd).
  - intros k ref Hk Hk'. rewrite Hlookup, Hk in Hk'.
    destruct (decide _) as [[Hin Hne]|]; [|done].
    split; [intros ->; by rewrite Ha in Hne|]. split.
    + intros k' Hk'a Hres.
      pose proof (resident_after_enforce l a k' Ha Hgt Hk'a Hres) as Hkeep.
      pose proof (sortedKeys_sorted l) as Hsorted.
      rewrite <- (take_drop (length (sortedKeys l) - maxDaysInMemory l)
                    (sortedKeys l)) in Hsorted.
      by apply (StronglySorted_app_1_elem_of _ _ _ _ _ Hsorted).
    + intros Hlt. subst l'. unfold _enforceMemoryLimit.
      rewrite (proj2 (Nat.leb_gt _ _)) by done.
      by apply (foldl_unload_releases l _ k ref).
Qed.

Lemma new_cacheInvariant depths : cacheInvariant (Hycom.new depths).
Proof.
  unfold cacheInvariant, nonActiveDays. simpl.
  split; [done|]. split; [by rewrite map_size_empty; lia|].
  intros k ref Hk. by rewrite lookup_empty in Hk.
Qed.

(** A load that finds the day resident, or fails, leaves the map alone; a
    load that fetches the day inserts it and enforces the limit. *)
Lemma loadDayByDate_cases l key :
  (loadedDays (loadDayByDate l key).1 = loadedDays l ∧
   objects (loadDayByDate l key).1 = objects l ∧
   maxDaysInMemory (loadDayByDate l key).1 = maxDaysInMemory l ∧
   ((is_Some (loadedDays l !! key) ∧
     is_Some (loadDayByDate l key).2 ∧
     activeDayKey (loadDayByDate l key).1 = Some key) ∨
    ((loadDayByDate l key).2 = None ∧
     activeDayKey (loadDayByDate l key).1 = activeDayKey l))) ∨
  (∃ result,
     loadedDays l !! key = None ∧ is_Some (loadDayByDate l key).2 ∧
     (loadDayByDate l key).1
     = _enforceMemoryLimit
         (make (depths l) (objects l ++ [result])
            (<[key := length (objects l)]> (loadedDays l)) (Some key)
            (defaultDepth l) (maxDaysInMemory l))).
Proof.
  unfold loadDayByDate.
  destruct (loadedDays l !! key) as [ref|] eqn:Hkey; simpl.
  - left. repeat split; try done. left. by repeat split.
  - destruct (_loadDayByDate3D key) as [result|]; simpl.
    + right. by exists result.
    + left. repeat split; try done. by right.
Qed.

Lemma loadDayByDate_cacheInvariant l key :
  cacheInvariant l →
  cacheInvariant (loadDayByDate l key).1 ∧
  maxDaysInMemory (loadDayByDate l key).1 = maxDaysInMemory l.
Proof.
  intros (Hactive & Hsize & Hrefs).
  destruct (loadDayByDate_cases l key)
    as [(Hmap & Hobj & Hmax & [(Hres & _ & Hact)|(_ & Hact)])
       |(result & Hnew & _ & Heq)].
  - split; [|done]. unfold cacheInvariant, nonActiveDays.
    rewrite Hact, Hmap, Hobj, Hmax. split; [done|]. split; [|done].
    unfold nonActiveDays in Hsize.
    destruct (activeDayKey l) as [a|].
    + rewrite map_size_delete_Some in * by done. done.
    + rewrite Hactive in Hres. rewrite lookup_empty in Hres. by destruct Hres.
  - split; [|done]. unfold cacheInvariant, nonActiveDays.
    by rewrite Hact, Hmap, Hobj, Hmax.
  - rewrite Heq.
    set (l1 := make (depths l) (objects l ++ [result])
                 (<[key := length (objects l)]> (loadedDays l)) (Some key)
                 (defaultDepth l) (maxDaysInMemory l)).
    destruct (enforceMemoryLimit_fields l1) as (_ & Hact & _ & Hmax & Hlen).
    destruct (enforceMemoryLimit_spec l1 key eq_refl)
      as (Hkey & Hsub & Hbound & _).
    split; [|done]. unfold cacheInvariant, nonActiveDays.
    rewrite Hact, Hmax, Hlen. simpl. split; [|split; [done|]].
    + rewrite Hkey. simpl. rewrite lookup_insert_eq. by eexists.
    + intros k ref Hk. apply Hsub in Hk. simpl in Hk.
      rewrite length_app. simpl.
      destruct (decide (k = key)) as [->|Hne].
      * rewrite lookup_insert_eq in Hk. simplify_eq. lia.
      * rewrite lookup_insert_ne in Hk by done. apply Hrefs in Hk. lia.
Qed.

Lemma loadDays_cacheInvariant l keys :
  cacheInvariant l →
  cacheInvariant (loadDays l keys) ∧
  maxDaysInMemory (loadDays l keys) = maxDaysInMemory l.
Proof.
  unfold loadDays. revert l.
  induction keys as [|key keys IH]; intros l Hinv; simpl; [done|].
  destruct (loadDayByDate_cacheInvariant l key Hinv) as [Hinv' Hmax].
  destruct (IH _ Hinv') as [Hinv'' Hmax']. split; [done|congruence].
Qed.

(** C9.  After any sequence of loads on a loader with the default limit of
    two days: at most two days other than the active one are resident, and
    the active day is resident.  A further load that succeeds makes its day
    the active one and leaves it resident; every day that this load evicts
    is not the active day, sorts before (or equal to) every day that stays
    resident other than the active one, and the day object it referred to
    has its [lonArray], [latArray], [uArray] and [vArray] released. *)
Theorem day_cache_keeps_two_inactive_days
    (depths : option (list Q)) (keys : list string) :
  let l := loadDays (Hycom.new depths) keys in
  (size (nonActiveDays l) <= 2)%nat ∧
  (∀ active, activeDayKey l = Some active → is_Some (loadedDays l !! active)) ∧
  (∀ key,
     let l' := (loadDayByDate l key).1 in
     (is_Some (loadDayByDate l key).2 →
      activeDayKey l' = Some key ∧ is_Some (loadedDays l' !! key)) ∧
     (∀ k ref,
        loadedDays l !! k = Some ref → loadedDays l' !! k = None →
        Some k ≠ activeDayKey l' ∧
        (∀ k', Some k' ≠ activeDayKey l' → is_Some (loadedDays l' !! k') →
               String.le k k') ∧
        ∃ d, objects l' !! ref = Some d ∧ released d)).
Proof.
  intros l.
  destruct (loadDays_cacheInvariant (Hycom.new depths) keys
              (new_cacheInvariant depths)) as [Hinv Hmax].
  fold l in Hinv, Hmax. simpl in Hmax.
  pose proof Hinv as (Hactive & Hsize & Hrefs).
  split; [by rewrite <- Hmax|]. split.
  { intros a Ha. by rewrite Ha in Hactive. }
  intros key l'. subst l'.
  destruct (loadDayByDate_cases l key)
    as [(Hmap & Hobj & _ & [(Hres & _ & Hact)|(Hfail & Hact)])
       |(result & Hnew & _ & Heq)].
  - split; [by rewrite Hact, Hmap|]. intros k ref Hk Hk'.
    rewrite Hmap in Hk'. congruence.
  - split; [rewrite Hfail; by intros [? ?]|]. intros k ref Hk Hk'.
    rewrite Hmap in Hk'. congruence.
  - rewrite Heq.
    set (l1 := make (Hycom.depths l) (objects l ++ [result])
                 (<[key := length (objects l)]> (loadedDays l)) (Some key)
                 (defaultDepth l) (maxDaysInMemory l)).
    destruct (enforceMemoryLimit_fields l1) as (_ & Hact & _).
    destruct (enforceMemoryLimit_spec l1 key eq_refl)
      as (Hkey & _ & _ & Hevict).
    rewrite Hact. simpl. split.
    + intros _. split; [done|]. rewrite Hkey. simpl.
      rewrite lookup_insert_eq. by eexists.
    + intros k ref Hk Hk'.
      assert (k ≠ key) as Hne by (intros ->; congruence).
      destruct (Hevict k ref) as (_ & Hold & Hrel); [|done|].
      { simpl. by rewrite lookup_insert_ne. }
      split; [by intros [= ->]|]. split.
      * intros k' Hk'a. apply Hold. by intros ->.
      * apply Hrel. simpl. rewrite length_app. apply Hrefs in Hk. lia.
Qed.
End LoaderFacts.

Lemma isOcean_tests_u_only_witness :
  let l := Hycom.new (Some [0; 50; 100; 200; 500; 1000]) in
  (@Hycom.isOcean oneCellHost l 142 37 0 0).2 = true ∧
  ∀ r, (@Hycom.getVelocityAt oneCellHost l 142 37 (Some 0) 0).2 = Some r →
       Hycom.found r = true →
       (@Hycom.isOcean oneCellHost l 142 37 0 0).2 = true.
Proof.
  intros l.
  destruct (@isOcean_tests_u_only oneCellHost l 142 37 0 0) as [Hocean Hvel].
  split.
  - apply Hocean. by exists (oneCellDay "2011-03-01"), 0%nat, [Hycom.Num 0.1].
  - intros r Hr. by destruct (Hvel r Hr) as (_ & Himp & _).
Defined.

(** C2 does not hold: on a cell whose [u] is 0.1 and whose [v] is NaN,
    [isOcean] answers [true] while [getVelocityAt] reports
    [found = false]. *)
Lemma isOcean_differs_from_found :
  let l := Hycom.new (Some [0; 50; 100; 200; 500; 1000]) in
  (@Hycom.isOcean oneCellHost l 142 37 0 0).2 = true ∧
  ∃ r, (@Hycom.getVelocityAt oneCellHost l 142 37 (Some 0) 0).2 = Some r ∧
       Hycom.found r = false.
Proof.
  split; [reflexivity|]. eexists. split; reflexivity.
Qed.

Lemma day_cache_keeps_two_inactive_days_witness :
  let l := @Hycom.loadDays oneCellHost (Hycom.new None)
             ["2011-03-05"; "2011-03-04"; "2011-03-03"] in
  let l' := (@Hycom.loadDayByDate oneCellHost l "2011-03-02").1 in
  (size (Hycom.nonActiveDays l) <= 2)%nat ∧
  is_Some (Hycom.loadedDays l !! "2011-03-03") ∧
  Hycom.activeDayKey l' = Some "2011-03-02" ∧
  String.le "2011-03-03" "2011-03-04" ∧
  ∃ d, Hycom.objects l' !! 2%nat = Some d ∧ Hycom.released d.
Proof.
  intros l l'.
  destruct (@day_cache_keeps_two_inactive_days oneCellHost None
              ["2011-03-05"; "2011-03-04"; "2011-03-03"])
    as (Hbound & Hactive & Hload).
  destruct (Hload "2011-03-02") as [Hkey Hevict].
  destruct (Hevict "2011-03-03" 2%nat) as (_ & Hold & Hrel);
    [vm_compute; reflexivity|vm_compute; reflexivity|].
  split; [exact Hbound|].
  split; [apply Hactive; vm_compute; reflexivity|].
  split; [apply Hkey; vm_compute; by eexists|].
  split; [|exact Hrel].
  apply Hold; [vm_compute; discriminate|vm_compute; by eexists].
Defined.

(** ** Playback *)

Section PlaybackFacts.
Import Bake.
Context `{!JsMath}.






End PlaybackFacts.



(** * Further properties *)

(** ** The pool and the counters of the tracer-aware engine *)

Section EnginePool.
Import Engine.
Context `{!JsMath} `{!HycomLoader.t} `{!EkeLoader.t}.

Lemma advectionStage_id e p velocity deltaDays day :
  let q := advectionStage e p velocity deltaDays day in
  Particle.id q = Particle.id p ∧ Particle.active q = Particle.active p ∧
  Particle.history q = Particle.history p.
Proof. unfold advectionStage. repeat case_match; done. Qed.

Lemma diffusionStage_id e p deltaDays day g1 g2 :
  let q := diffusionStage e p deltaDays day g1 g2 in
  Particle.id q = Particle.id p ∧ Particle.active q = Particle.active p ∧
  Particle.history q = Particle.history p.
Proof. unfold diffusionStage, applyDiffusion. repeat case_match; done. Qed.

Lemma checkLandInteraction_id e p prevX prevY prevDepth day :
  let q := (checkLandInteraction e p prevX prevY prevDepth day).1 in
  Particle.id q = Particle.id p ∧ Particle.active q = Particle.active p ∧
  Particle.history q = Particle.history p.
Proof. unfold checkLandInteraction. repeat case_match; done. Qed.

Lemma applyVerticalMotion_id e st p dtSeconds g :
  let r := applyVerticalMotion e st p dtSeconds g in
  Particle.id r.1 = Particle.id p ∧ Particle.active r.1 = Particle.active p ∧
  Particle.history r.1 = Particle.history p ∧
  Stats.totalReleased r.2 = Stats.totalReleased st ∧
  Stats.totalDecayed r.2 = Stats.totalDecayed st ∧
  Stats.simulationDays r.2 = Stats.simulationDays st.
Proof. unfold applyVerticalMotion. repeat case_match; done. Qed.

(** The particle after the three horizontal stages of a step, and the
    particle and the counters after the vertical one. *)
Lemma stages_id e st p velocity draws deltaDays day :
  let land :=
    checkLandInteraction e
      (diffusionStage e (advectionStage e p velocity deltaDays day)
         deltaDays day (diffusionX draws) (diffusionY draws))
      (Particle.x p) (Particle.y p) (Particle.depth p) day in
  let r :=
    if verticalMixing (params e)
    then applyVerticalMotion e st land.1 (deltaDays * 86400) (verticalZ draws)
    else (land.1, st) in
  (Particle.id land.1 = Particle.id p ∧
   Particle.active land.1 = Particle.active p ∧
   Particle.history land.1 = Particle.history p) ∧
  Particle.id r.1 = Particle.id p ∧ Particle.active r.1 = Particle.active p ∧
  Particle.history r.1 = Particle.history p ∧
  Stats.totalReleased r.2 = Stats.totalReleased st ∧
  Stats.totalDecayed r.2 = Stats.totalDecayed st ∧
  Stats.simulationDays r.2 = Stats.simulationDays st.
Proof.
  intros land r.
  destruct (advectionStage_id e p velocity deltaDays day) as (Ha1 & Ha2 & Ha3).
  destruct (diffusionStage_id e (advectionStage e p velocity deltaDays day)
              deltaDays day (diffusionX draws) (diffusionY draws))
    as (Hd1 & Hd2 & Hd3).
  destruct (checkLandInteraction_id e
              (diffusionStage e (advectionStage e p velocity deltaDays day)
                 deltaDays day (diffusionX draws) (diffusionY draws))
              (Particle.x p) (Particle.y p) (Particle.depth p) day)
    as (Hl1 & Hl2 & Hl3).
  fold land in Hl1, Hl2, Hl3.
  assert (Hland : Particle.id land.1 = Particle.id p ∧
                  Particle.active land.1 = Particle.active p ∧
                  Particle.history land.1 = Particle.history p)
    by (repeat split; congruence).
  split; [exact Hland|]. destruct Hland as (Hp1 & Hp2 & Hp3). subst r.
  destruct (verticalMixing (params e)); [|by repeat split].
  destruct (applyVerticalMotion_id e st land.1 (deltaDays * 86400)
              (verticalZ draws)) as (Hv1 & Hv2 & Hv3 & Hv4 & Hv5 & Hv6).
  repeat split; congruence.
Qed.

Lemma processParticle_frame e st p velocity draws deltaDays day :
  let r := processParticle e st p velocity draws deltaDays day in
  Particle.id r.1 = Particle.id p ∧
  Particle.active r.1 = Particle.active p ∧
  Stats.totalReleased r.2 = Stats.totalReleased st ∧
  Stats.totalDecayed r.2 = Stats.totalDecayed st ∧
  Stats.simulationDays r.2 = Stats.simulationDays st.
Proof.
  intros r. subst r.
  pose proof (stages_id e st p velocity draws deltaDays day) as Hs.
  cbv zeta in Hs. unfold processParticle.
  destruct (checkLandInteraction e _ _ _ _ _) as [p3 onLand].
  cbn [fst snd] in Hs. destruct Hs as ((Hl1 & Hl2 & _) & Hs).
  destruct onLand; cbn [fst snd]; [by repeat split|].
  destruct (if verticalMixing (params e) then _ else _) as [p4 st4].
  cbn [fst snd] in Hs. destruct Hs as (Hp1 & Hp2 & _ & Hp4 & Hp5 & Hp6).
  repeat case_match; cbn [fst snd]; simpl; repeat split; done.
Qed.

Lemma updateLoop_frame e st pool velocities draws deltaDays day :
  let r := updateLoop e st pool velocities draws deltaDays day in
  map Particle.id r.1 = map Particle.id pool ∧
  map Particle.active r.1 = map Particle.active pool ∧
  Stats.totalReleased r.2 = Stats.totalReleased st ∧
  Stats.totalDecayed r.2 = Stats.totalDecayed st ∧
  Stats.simulationDays r.2 = Stats.simulationDays st.
Proof.
  revert st. induction pool as [|p pool IH]; intros st; simpl; [done|].
  destruct (Particle.active p) eqn:Ha.
  - pose proof (processParticle_frame e st p (velocities (Particle.id p))
                  (draws (Particle.id p)) deltaDays day) as Hp.
    destruct (processParticle _ _ _ _ _ _ _) as [p' st']. simpl in Hp.
    specialize (IH st'). destruct (updateLoop _ _ _ _ _ _ _) as [rest st''].
    simpl in *. destruct Hp as (-> & -> & <- & <- & <-).
    destruct IH as (-> & -> & -> & -> & ->). by rewrite Ha.
  - specialize (IH st). destruct (updateLoop _ _ _ _ _ _ _) as [rest st''].
    simpl in *. destruct IH as (-> & -> & -> & -> & ->). by rewrite Ha.
Qed.

Lemma active_length_congr (l l' : list Particle.t) :
  map Particle.active l = map Particle.active l' →
  length (filter (λ p, Particle.active p = true) l)
  = length (filter (λ p, Particle.active p = true) l').
Proof.
  revert l'. induction l as [|p l IH]; intros [|p' l']; simpl; try done.
  intros [= Hp Hl]. rewrite !filter_cons. rewrite Hp.
  destruct (decide _); simpl; by rewrite (IH l').
Qed.

Lemma active_length_cons (p : Particle.t) (l : list Particle.t) :
  length (filter (λ p, Particle.active p = true) (p :: l))
  = ((if Particle.active p then 1 else 0)
     + length (filter (λ p, Particle.active p = true) l))%nat.
Proof.
  rewrite filter_cons. destruct (Particle.active p) eqn:Ha.
  - by rewrite decide_True.
  - by rewrite decide_False.
Qed.

Lemma inactive_length_cons (p : Particle.t) (l : list Particle.t) :
  length (filter (λ p, Particle.active p = false) (p :: l))
  = ((if Particle.active p then 0 else 1)
     + length (filter (λ p, Particle.active p = false) l))%nat.
Proof.
  rewrite filter_cons. destruct (Particle.active p) eqn:Ha.
  - by rewrite decide_False.
  - by rewrite decide_True.
Qed.

(** What the release loop does to the pool: ids and length are kept, the
    particles that were active are left as they are, and the counter grows
    by the number of particles that became active. *)
Lemma releaseLoop_frame e count normals pool released :
  let r := releaseLoop e count normals pool released in
  map Particle.id r.1 = map Particle.id pool ∧
  (released <= r.2)%Z ∧
  Z.of_nat (length (filter (λ p, Particle.active p = true) r.1))
  = (Z.of_nat (length (filter (λ p, Particle.active p = true) pool))
     + (r.2 - released))%Z ∧
  (∀ i p, pool !! i = Some p → Particle.active p = true → r.1 !! i = Some p).
Proof.
  revert released. induction pool as [|p pool IH]; intros released; simpl.
  { repeat split; [lia..|done]. }
  destruct (Particle.active p) eqn:Ha.
  - specialize (IH released). destruct (releaseLoop _ _ _ _ _) as [rest n].
    simpl in *. destruct IH as (-> & Hle & Hn & Hkeep).
    rewrite !active_length_cons, Ha.
    split; [done|]. split; [lia|]. split; [lia|].
    intros [|i] q; simpl; [by intros [= ->]|apply Hkeep].
  - destruct (jsleb count (Num (inject_Z released))) eqn:Hc; simpl.
    { repeat split; [lia..|done]. }
    destruct (normals (Particle.id p)) as [z0 z1].
    specialize (IH (released + 1)%Z). destruct (releaseLoop _ _ _ _ _) as [rest n].
    simpl in *. destruct IH as (-> & Hle & Hn & Hkeep).
    rewrite !active_length_cons, Ha. simpl Particle.active.
    split; [done|]. split; [lia|]. split; [lia|].
    intros [|i] q; simpl; [intros [= ->]; congruence|apply Hkeep].
Qed.

(** For a whole number of requested particles the loop activates as many
    inactive pool entries as are requested and available. *)
Lemma releaseLoop_count e (k : Z) normals pool released :
  (releaseLoop e (Num (inject_Z k)) normals pool released).2
  = Z.max released
      (Z.min k (released
                + Z.of_nat (length (filter (λ p, Particle.active p = false) pool)))).
Proof.
  revert released. induction pool as [|p pool IH]; intros released; simpl.
  { lia. }
  destruct (Particle.active p) eqn:Ha.
  - specialize (IH released). destruct (releaseLoop _ _ _ _ _) as [rest n].
    simpl in *. by rewrite inactive_length_cons, Ha.
  - rewrite inactive_length_cons, Ha. cbn [jsleb].
    destruct (Qle_bool (inject_Z k) (inject_Z released)) eqn:Hc; simpl.
    + apply Qle_bool_iff in Hc. rewrite <- Zle_Qle in Hc. lia.
    + assert (released < k)%Z as Hlt.
      { apply Z.lt_nge. intros Hle. rewrite Zle_Qle in Hle.
        apply Qle_bool_iff in Hle. congruence. }
      destruct (normals (Particle.id p)) as [z0 z1].
      specialize (IH (released + 1)%Z).
      destruct (releaseLoop _ _ _ _ _) as [rest n]. simpl in *. lia.
Qed.

Lemma releaseParticles_frame e count normals :
  let e' := releaseParticles e count normals in
  map Particle.id (particlePool e') = map Particle.id (particlePool e) ∧
  particleCount e' = particleCount e ∧
  isRunning e' = isRunning e ∧
  Stats.simulationDays (stats e') = Stats.simulationDays (stats e) ∧
  Stats.totalDecayed (stats e') = Stats.totalDecayed (stats e) ∧
  (Stats.totalReleased (stats e') - Z.of_nat (length (getActiveParticles e'))
   = Stats.totalReleased (stats e) - Z.of_nat (length (getActiveParticles e)))%Z.
Proof.
  unfold releaseParticles, getActiveParticles.
  pose proof (releaseLoop_frame e count normals (particlePool e) 0)
    as (Hid & _ & Hn & _).
  destruct (releaseLoop _ _ _ _ _) as [pool released]. simpl in *.
  split; [done|]. do 4 (split; [done|]). lia.
Qed.

Lemma executeContinuousRelease_frame e deltaDays normals :
  let e' := executeContinuousRelease e deltaDays normals in
  map Particle.id (particlePool e') = map Particle.id (particlePool e) ∧
  particleCount e' = particleCount e ∧
  isRunning e' = isRunning e ∧
  Stats.simulationDays (stats e') = Stats.simulationDays (stats e) ∧
  Stats.totalDecayed (stats e') = Stats.totalDecayed (stats e) ∧
  (Stats.totalReleased (stats e') - Z.of_nat (length (getActiveParticles e'))
   = Stats.totalReleased (stats e) - Z.of_nat (length (getActiveParticles e)))%Z.
Proof.
  unfold executeContinuousRelease.
  repeat case_match; try done;
    match goal with
    | |- context [releaseParticles ?e1 ?c ?n] =>
        exact (releaseParticles_frame e1 c n)
    end.
Qed.

Lemma updateParticles_frame e deltaDays velocities draws :
  let e' := updateParticles e deltaDays velocities draws in
  map Particle.id (particlePool e') = map Particle.id (particlePool e) ∧
  map Particle.active (particlePool e') = map Particle.active (particlePool e) ∧
  particleCount e' = particleCount e ∧
  isRunning e' = isRunning e ∧
  Stats.simulationDays (stats e') = Stats.simulationDays (stats e) ∧
  Stats.totalDecayed (stats e') = Stats.totalDecayed (stats e) ∧
  Stats.totalReleased (stats e') = Stats.totalReleased (stats e).
Proof.
  pose proof (updateLoop_frame e (Stats.setParticlesOnLand (stats e) 0)
                (particlePool e) velocities draws deltaDays
                (Stats.simulationDays (stats e))) as Hl.
  unfold updateParticles. repeat case_match; try done.
  simpl in *. destruct Hl as (-> & -> & -> & -> & ->). done.
Qed.

Lemma update_frame e deltaDays normals velocities draws :
  let e' := update e deltaDays normals velocities draws in
  map Particle.id (particlePool e') = map Particle.id (particlePool e) ∧
  particleCount e' = particleCount e ∧
  isRunning e' = isRunning e ∧
  Stats.totalDecayed (stats e') = Stats.totalDecayed (stats e) ∧
  (Stats.totalReleased (stats e') - Z.of_nat (length (getActiveParticles e'))
   = Stats.totalReleased (stats e) - Z.of_nat (length (getActiveParticles e)))%Z ∧
  Stats.simulationDays (stats e')
  = (if isRunning e then Stats.simulationDays (stats e) + deltaDays
     else Stats.simulationDays (stats e)).
Proof.
  unfold update. destruct (isRunning e) eqn:Hrun; simpl; [|by rewrite Hrun].
  pose proof (executeContinuousRelease_frame e deltaDays normals)
    as (Hid1 & Hc1 & Hr1 & Hd1 & Hdec1 & Hb1).
  pose proof (updateParticles_frame
                (executeContinuousRelease e deltaDays normals)
                deltaDays velocities draws)
    as (Hid2 & Ha2 & Hc2 & Hr2 & Hd2 & Hdec2 & Htr2).
  simpl in *. unfold getActiveParticles in *. simpl.
  rewrite Hid2, Hid1, Hc2, Hc1, Hr2, Hr1, Hd2, Hd1, Hdec2, Hdec1, Htr2.
  rewrite (active_length_congr _ _ Ha2).
  by rewrite Hrun.
Qed.

(** X1.  The pool is created once and never resized or reordered: in every
    engine that the public operations can produce, the pool holds exactly
    [particleCount] particles, and the particle at position [i] has id
    [i]. *)
Theorem pool_keeps_its_particles (e : Engine.t) :
  Reachable e →
  map Particle.id (particlePool e) = seq 0 (particleCount e) ∧
  length (particlePool e) = particleCount e.
Proof.
  intros Hr.
  assert (map Particle.id (particlePool e) = seq 0 (particleCount e)) as Hid.
  { induction Hr as [n tid loc doy|e _ IH|e _ IH|e _ IH|e _ IH|e count normals _ IH
                    |e dd normals vs ds _ _ IH|e phases _ IH|e enable _ IH
                    |e name value _ IH].
    - unfold new, initializeParticlePool. simpl.
      rewrite map_map. simpl. apply map_id.
    - unfold startSimulation. by repeat case_match.
    - unfold pauseSimulation. by case_match.
    - unfold resumeSimulation. by case_match.
    - unfold resetSimulation. simpl. by rewrite map_map.
    - pose proof (releaseParticles_frame e count normals) as (-> & -> & _).
      done.
    - pose proof (update_frame e dd normals vs ds) as (-> & -> & _). done.
    - done.
    - done.
    - unfold setParameter. by repeat case_match. }
  split; [done|].
  by rewrite <- (length_map Particle.id), Hid, length_seq.
Qed.

(** X2.  Particles are never lost: in every engine that the public
    operations can produce, [stats.totalReleased] is the number of active
    particles in the pool, and [stats.totalDecayed] is zero. *)
Theorem totalReleased_counts_active (e : Engine.t) :
  Reachable e →
  Stats.totalReleased (stats e) = Z.of_nat (length (getActiveParticles e)) ∧
  Stats.totalDecayed (stats e) = 0%Z.
Proof.
  induction 1 as [n tid loc doy|e _ IH|e _ IH|e _ IH|e _ IH|e count normals _ IH
                 |e dd normals vs ds _ _ IH|e phases _ IH|e enable _ IH
                 |e name value _ IH].
  - unfold new, initializeParticlePool, getActiveParticles. simpl.
    split; [|done]. induction (seq 0 n) as [|i l IHl]; [done|].
    simpl. rewrite filter_cons, decide_False by done. exact IHl.
  - unfold startSimulation. repeat case_match; done.
  - unfold pauseSimulation. by case_match.
  - unfold resumeSimulation. by case_match.
  - unfold resetSimulation, getActiveParticles. simpl. split; [|done].
    induction (particlePool e) as [|p l IHl]; [done|].
    simpl. rewrite filter_cons, decide_False by done. exact IHl.
  - pose proof (releaseParticles_frame e count normals)
      as (_ & _ & _ & _ & Hd & Hb).
    simpl in *. destruct IH as [IH1 IH2]. split; [lia|congruence].
  - pose proof (update_frame e dd normals vs ds) as (_ & _ & _ & Hd & Hb & _).
    simpl in *. destruct IH as [IH1 IH2]. split; [lia|congruence].
  - done.
  - done.
  - unfold setParameter. by repeat case_match.
Qed.

Lemma pushHistory_length q :
  (length (Particle.history q) <= 8)%nat →
  (length (Particle.history (pushHistory q)) <= 8)%nat.
Proof.
  intros Hq. unfold pushHistory. simpl.
  destruct (8 <? _)%nat eqn:Hlen.
  - destruct (Particle.history q) as [|a l]; simpl in *;
      rewrite ?length_app in *; simpl in *; lia.
  - by apply Nat.ltb_ge in Hlen.
Qed.

Lemma moved_history e p velocity deltaDays day g1 g2 prevX prevY prevDepth :
  Particle.history
    (checkLandInteraction e
       (diffusionStage e (advectionStage e p velocity deltaDays day)
          deltaDays day g1 g2) prevX prevY prevDepth day).1
  = Particle.history p.
Proof.
  destruct (advectionStage_id e p velocity deltaDays day) as (_ & _ & Ha).
  destruct (diffusionStage_id e (advectionStage e p velocity deltaDays day)
              deltaDays day g1 g2) as (_ & _ & Hd).
  destruct (checkLandInteraction_id e
              (diffusionStage e (advectionStage e p velocity deltaDays day)
                 deltaDays day g1 g2) prevX prevY prevDepth day)
    as (_ & _ & Hl).
  congruence.
Qed.

Lemma processParticle_history e st p velocity draws deltaDays day :
  (length (Particle.history p) <= 8)%nat →
  (length (Particle.history
             (processParticle e st p velocity draws deltaDays day).1) <= 8)%nat.
Proof.
  intros Hp. unfold processParticle.
  pose proof (moved_history e p velocity deltaDays day (diffusionX draws)
                (diffusionY draws) (Particle.x p) (Particle.y p)
                (Particle.depth p)) as Hm.
  destruct (checkLandInteraction _ _ _ _ _ _) as [p3 onLand]. simpl in Hm.
  destruct onLand; simpl; [by rewrite Hm|].
  assert (∃ p4 st4,
    (if verticalMixing (params e)
     then applyVerticalMotion e st p3 (deltaDays * 86400) (verticalZ draws)
     else (p3, st)) = (p4, st4) ∧
    Particle.history p4 = Particle.history p3) as (p4 & st4 & -> & H4).
  { unfold applyVerticalMotion. repeat case_match; by eexists _, _. }
  destruct (_ || _); simpl; [|by rewrite H4, Hm].
  apply pushHistory_length. simpl. by rewrite H4, Hm.
Qed.

Lemma updateLoop_history e st pool velocities draws deltaDays day :
  Forall (λ p, (length (Particle.history p) <= 8)%nat) pool →
  Forall (λ p, (length (Particle.history p) <= 8)%nat)
    (updateLoop e st pool velocities draws deltaDays day).1.
Proof.
  intros Hpool. revert st.
  induction Hpool as [|p pool Hp _ IH]; intros st; simpl; [done|].
  destruct (Particle.active p).
  - pose proof (processParticle_history e st p (velocities (Particle.id p))
                  (draws (Particle.id p)) deltaDays day Hp) as Hp'.
    destruct (processParticle _ _ _ _ _ _ _) as [p' st']. simpl in Hp'.
    specialize (IH st'). destruct (updateLoop _ _ _ _ _ _ _) as [rest st''].
    by constructor.
  - specialize (IH st). destruct (updateLoop _ _ _ _ _ _ _) as [rest st''].
    by constructor.
Qed.

Lemma releaseLoop_history e count normals pool released :
  Forall (λ p, (length (Particle.history p) <= 8)%nat) pool →
  Forall (λ p, (length (Particle.history p) <= 8)%nat)
    (releaseLoop e count normals pool released).1.
Proof.
  intros Hpool. revert released.
  induction Hpool as [|p pool Hp Hrest IH]; intros released; simpl; [done|].
  destruct (Particle.active p).
  - specialize (IH released). destruct (releaseLoop _ _ _ _ _) as [rest n].
    by constructor.
  - case_match; [by constructor|].
    destruct (normals (Particle.id p)) as [z0 z1].
    specialize (IH (released + 1)%Z). destruct (releaseLoop _ _ _ _ _) as [rest n].
    constructor; [|done]. simpl. lia.
Qed.

Lemma releaseParticles_history e count normals :
  Forall (λ p, (length (Particle.history p) <= 8)%nat) (particlePool e) →
  Forall (λ p, (length (Particle.history p) <= 8)%nat)
    (particlePool (releaseParticles e count normals)).
Proof.
  intros Hpool. unfold releaseParticles.
  pose proof (releaseLoop_history e count normals _ 0%Z Hpool) as H'.
  by destruct (releaseLoop _ _ _ _ _) as [pool released].
Qed.

Lemma update_history e deltaDays normals velocities draws :
  Forall (λ p, (length (Particle.history p) <= 8)%nat) (particlePool e) →
  Forall (λ p, (length (Particle.history p) <= 8)%nat)
    (particlePool (update e deltaDays normals velocities draws)).
Proof.
  intros Hpool. unfold update. case_match; [done|]. simpl.
  assert (Forall (λ p, (length (Particle.history p) <= 8)%nat)
            (particlePool (executeContinuousRelease e deltaDays normals)))
    as Hrel.
  { unfold executeContinuousRelease.
    repeat case_match; try done; by apply releaseParticles_history. }
  pose proof (updateLoop_history
                (executeContinuousRelease e deltaDays normals)
                (Stats.setParticlesOnLand
                   (stats (executeContinuousRelease e deltaDays normals)) 0)
                _ velocities draws deltaDays
                (Stats.simulationDays
                   (stats (executeContinuousRelease e deltaDays normals)))
                Hrel) as H'.
  unfold updateParticles. by repeat case_match.
Qed.

(** X3.  The trail of a particle is bounded: in every engine that the
    public operations can produce, no particle carries more than eight
    history points. *)
Theorem history_at_most_eight (e : Engine.t) :
  Reachable e →
  Forall (λ p, (length (Particle.history p) <= 8)%nat) (particlePool e).
Proof.
  induction 1 as [n tid loc doy|e _ IH|e _ IH|e _ IH|e _ IH|e count normals _ IH
                 |e dd normals vs ds _ _ IH|e phases _ IH|e enable _ IH
                 |e name value _ IH].
  - unfold new, initializeParticlePool. simpl. apply Forall_fmap, Forall_forall.
    intros i _. simpl. lia.
  - unfold startSimulation. by repeat case_match.
  - unfold pauseSimulation. by case_match.
  - unfold resumeSimulation. by case_match.
  - unfold resetSimulation. simpl. apply Forall_fmap, Forall_forall.
    intros p _. simpl. lia.
  - by apply releaseParticles_history.
  - by apply update_history.
  - done.
  - done.
  - unfold setParameter. by repeat case_match.
Qed.
End EnginePool.

Lemma pool_keeps_its_particles_witness :
  length (Engine.particlePool steppedEngine)
  = Engine.particleCount steppedEngine.
Proof.
  destruct (@pool_keeps_its_particles sampleMath sampleCoast sampleEke
              steppedEngine) as [_ Hlen]; [|exact Hlen].
  unfold steppedEngine.
  apply Engine.reach_update; [lra|].
  apply Engine.reach_release, Engine.reach_start, Engine.reach_new.
Defined.

Lemma totalReleased_counts_active_witness :
  Engine.Stats.totalReleased (Engine.stats steppedEngine)
  = Z.of_nat (length (Engine.getActiveParticles steppedEngine)).
Proof.
  destruct (@totalReleased_counts_active sampleMath sampleCoast sampleEke
              steppedEngine) as [Hcount _]; [|exact Hcount].
  unfold steppedEngine.
  apply Engine.reach_update; [lra|].
  apply Engine.reach_release, Engine.reach_start, Engine.reach_new.
Defined.

Lemma history_at_most_eight_witness :
  Forall (λ p, (length (Engine.Particle.history p) <= 8)%nat)
    (Engine.particlePool steppedEngine).
Proof.
  apply (@history_at_most_eight sampleMath sampleCoast sampleEke).
  unfold steppedEngine.
  apply Engine.reach_update; [lra|].
  apply Engine.reach_release, Engine.reach_start, Engine.reach_new.
Defined.

(** ** Releasing particles *)

Section EngineRelease.
Import Engine.
Context `{!JsMath} `{!HycomLoader.t} `{!EkeLoader.t}.

(** X4.  [releaseParticles(k)] with a whole number [k] activates as many
    inactive pool entries as are requested and available, that is
    [max 0 (min k available)]: [stats.totalReleased] and the number of active
    particles both grow by that number, the pool keeps its length, and the
    particles that were active are left as they are. *)
Theorem releaseParticles_activates_requested (e : Engine.t) (k : Z)
    (normals : nat → Q * Q) :
  let e' := releaseParticles e (Num (inject_Z k)) normals in
  let available :=
    Z.of_nat (length (filter (λ p, Particle.active p = false) (particlePool e))) in
  let released := Z.max 0 (Z.min k available) in
  Stats.totalReleased (stats e') = (Stats.totalReleased (stats e) + released)%Z ∧
  Z.of_nat (length (getActiveParticles e'))
  = (Z.of_nat (length (getActiveParticles e)) + released)%Z ∧
  length (particlePool e') = length (particlePool e) ∧
  ∀ i p, particlePool e !! i = Some p → Particle.active p = true →
         particlePool e' !! i = Some p.
Proof.
  intros e' available released. subst e' available released.
  unfold releaseParticles, getActiveParticles.
  pose proof (releaseLoop_frame e (Num (inject_Z k)) normals (particlePool e) 0)
    as (Hid & _ & Hn & Hkeep).
  pose proof (releaseLoop_count e k normals (particlePool e) 0) as Hc.
  destruct (releaseLoop _ _ _ _ _) as [pool n]. simpl in *.
  split; [lia|]. split; [lia|]. split; [|done].
  by rewrite <- (length_map Particle.id pool), Hid, length_map.
Qed.

(** X5.  [update(deltaDays)] on a paused engine does nothing at all; on a
    running engine it advances [stats.simulationDays] by exactly
    [deltaDays], whatever happens to the particles, and the engine stays
    running. *)
Theorem update_advances_the_clock (e : Engine.t) (deltaDays : Q)
    (normals : nat → Q * Q) (velocities : nat → Velocity.t)
    (draws : nat → Draws) :
  let e' := update e deltaDays normals velocities draws in
  (isRunning e = false → e' = e) ∧
  (isRunning e = true →
   isRunning e' = true ∧
   Stats.simulationDays (stats e')
   = Stats.simulationDays (stats e) + deltaDays).
Proof.
  intros e'. subst e'. split; intros Hrun.
  - unfold update. by rewrite Hrun.
  - pose proof (update_frame e deltaDays normals velocities draws)
      as (_ & _ & Hr & _ & _ & Hd).
    simpl in *. by rewrite Hr, Hd, Hrun.
Qed.
End EngineRelease.

Lemma update_advances_the_clock_witness :
  let e := @Engine.startSimulation sampleEngine in
  let e' := @Engine.update sampleMath sampleCoast sampleEke e 0.1 zeroNormals
              noVelocities zeroDraws in
  let paused := Engine.pauseSimulation e in
  @Engine.update sampleMath sampleCoast sampleEke paused 0.1 zeroNormals
    noVelocities zeroDraws = paused ∧
  Engine.isRunning e' = true ∧
  Engine.Stats.simulationDays (Engine.stats e') == 0.1.
Proof.
  intros e e' paused.
  destruct (@update_advances_the_clock sampleMath sampleCoast sampleEke e 0.1
              zeroNormals noVelocities zeroDraws) as [_ Hrun].
  destruct (@update_advances_the_clock sampleMath sampleCoast sampleEke paused
              0.1 zeroNormals noVelocities zeroDraws) as [Hpaused _].
  split; [exact (Hpaused eq_refl)|].
  destruct (Hrun eq_refl) as [Hr Hd]. split; [exact Hr|].
  subst e'. rewrite Hd. reflexivity.
Defined.

(** ** Calibration and continuous release *)

Section Calibration.
Import ReleasePhase ReleaseManager Engine.
Context `{!JsMath} `{!HycomLoader.t} `{!EkeLoader.t}.

(** The contribution of a list of phases to [getTotalRelease], written as
    a sum from the right. *)
Lemma fold_left_total (ps : list ReleasePhase.t) (acc : Q) :
  fold_left (λ total p, total + ReleasePhase.total p * convertToBaseUnit 1 (unit p))
    ps acc
  == acc + fold_right (λ p s, ReleasePhase.total p * conversions (unit p) + s) 0 ps.
Proof.
  revert acc. induction ps as [|p ps IH]; intros acc; simpl; [ring|].
  rewrite IH. unfold convertToBaseUnit. ring.
Qed.

Lemma getTotalRelease_sum (m : ReleaseManager.t) :
  getTotalRelease m
  == fold_right (λ p s, ReleasePhase.total p * conversions (unit p) + s) 0
       (phases m).
Proof. unfold getTotalRelease. rewrite fold_left_total. ring. Qed.

Lemma total_sum_Permutation (l1 l2 : list ReleasePhase.t) :
  l1 ≡ₚ l2 →
  fold_right (λ p s, ReleasePhase.total p * conversions (unit p) + s) 0 l1
  == fold_right (λ p s, ReleasePhase.total p * conversions (unit p) + s) 0 l2.
Proof.
  induction 1 as [|p l1 l2 _ IH|p q l|l1 l2 l3 _ IH1 _ IH2]; simpl.
  - reflexivity.
  - by rewrite IH.
  - ring.
  - by rewrite IH1.
Qed.

(** X6.  [getTotalRelease] adds up the phase totals converted to GBq (a
    phase in PBq counts a million times its total, one in TBq a thousand
    times, one in GBq or in any other unit once): the total of a schedule
    is the sum of the totals of its parts, and it does not depend on the
    order in which the phases are declared. *)
Theorem getTotalRelease_is_order_independent (tracerId : string)
    (tracer : Tracer.t) (l1 l2 : list ReleasePhase.t) :
  getTotalRelease (ReleaseManager.make tracerId tracer (l1 ++ l2))
  == getTotalRelease (ReleaseManager.make tracerId tracer l1)
     + getTotalRelease (ReleaseManager.make tracerId tracer l2) ∧
  (∀ l, l ≡ₚ l1 →
     getTotalRelease (ReleaseManager.make tracerId tracer l)
     == getTotalRelease (ReleaseManager.make tracerId tracer l1)) ∧
  (∀ p, getTotalRelease (ReleaseManager.make tracerId tracer [p])
        == ReleasePhase.total p
           * (if decide (unit p = "PBq") then 1000000
              else if decide (unit p = "TBq") then 1000 else 1)).
Proof.
  split; [|split].
  - rewrite !getTotalRelease_sum. simpl. rewrite fold_right_app.
    induction l1 as [|p l1 IH]; simpl; [ring|]. rewrite IH. ring.
  - intros l Hl. rewrite !getTotalRelease_sum. simpl.
    by apply total_sum_Permutation.
  - intros p. rewrite getTotalRelease_sum. simpl. unfold conversions.
    repeat case_decide; try ring; exfalso; congruence.
Qed.

(** X7.  The calibration shares the whole scheduled release out over the
    pool: when the total release is positive and the pool is not empty,
    [UNITS_PER_PARTICLE] times [particleCount] is the total release; when
    the total release is not positive, [UNITS_PER_PARTICLE] is 1.  Nothing
    else of the engine changes. *)
Theorem calibration_shares_out_the_release (e : Engine.t) :
  let e' := calculateParticleCalibration e in
  (0 < getTotalRelease (releaseManager e) → (0 < particleCount e)%nat →
   UNITS_PER_PARTICLE e' * inject_Z (Z.of_nat (particleCount e))
   == getTotalRelease (releaseManager e)) ∧
  (getTotalRelease (releaseManager e) <= 0 → UNITS_PER_PARTICLE e' = 1) ∧
  e' = setUnitsPerParticle e (UNITS_PER_PARTICLE e').
Proof.
  intros e'. subst e'. unfold calculateParticleCalibration, Qltb.
  split; [|split].
  - intros Hpos Hn. simpl.
    destruct (Qle_bool _ 0) eqn:Hle.
    { apply Qle_bool_iff in Hle. lra. }
    simpl. unfold getParticleActivity. field.
    change 0 with (inject_Z 0). rewrite inject_Z_injective. lia.
  - intros Hle. simpl. apply Qle_bool_iff in Hle. by rewrite Hle.
  - done.
Qed.
End Calibration.

Lemma calibration_shares_out_the_release_witness :
  Engine.UNITS_PER_PARTICLE
    (Engine.calculateParticleCalibration
       (Engine.setReleaseManager sampleEngine sampleManager))
  * inject_Z (Z.of_nat 1)
  == 10003000.
Proof.
  destruct (calibration_shares_out_the_release
              (Engine.setReleaseManager sampleEngine sampleManager))
    as [Hpos _].
  rewrite Hpos; [reflexivity|reflexivity|simpl; lia].
Defined.

Section ContinuousRelease.
Import ReleasePhase ReleaseManager Engine.
Context `{!JsMath} `{!HycomLoader.t} `{!EkeLoader.t}.

(** The two unit tests of [executeContinuousRelease] scale a rate that is a
    number as [convertToBaseUnit] does. *)
Lemma rateInBase_convert (rate : Q) (u : string) :
  ∃ r,
    (if decide (u = "TBq")
     then jsmul (if decide (u = "PBq") then jsmul (Num rate) (Num 1000000)
                 else Num rate) (Num 1000)
     else (if decide (u = "PBq") then jsmul (Num rate) (Num 1000000)
           else Num rate))
    = Num r ∧ r == convertToBaseUnit rate u.
Proof.
  unfold convertToBaseUnit, conversions.
  repeat case_decide; cbn [jsmul]; eexists; (split; [reflexivity|]);
    try ring; exfalso; congruence.
Qed.

Lemma releaseLoop_particleFraction e f count normals pool released :
  releaseLoop (setParticleFraction e f) count normals pool released
  = releaseLoop e count normals pool released.
Proof.
  revert released. induction pool as [|p pool IH]; intros released; [done|].
  cbn [releaseLoop]. rewrite !IH. done.
Qed.

Lemma getRate_of_duration (phase : ReleasePhase.t) :
  start phase < end_ phase →
  getRate phase = Num (total phase / (end_ phase - start phase)).
Proof.
  intros Hdur. unfold getRate, getDuration, jsdiv.
  destruct (Qeq_bool (end_ phase - start phase) 0) eqn:Hz; [|done].
  apply Qeq_bool_iff in Hz. lra.
Qed.

Lemma executeContinuousRelease_spec e deltaDays normals phase f :
  isRunning e = true → activePhase e = Some phase → 0 < UNITS_PER_PARTICLE e →
  start phase < end_ phase → particleFraction e = Num f →
  let increment :=
    convertToBaseUnit (total phase / (end_ phase - start phase)) (unit phase)
    / UNITS_PER_PARTICLE e * deltaDays in
  let whole := Qfloor (f + increment) in
  let available :=
    Z.of_nat (length (filter (λ p, Particle.active p = false) (particlePool e))) in
  let e' := executeContinuousRelease e deltaDays normals in
  ∃ f', particleFraction e' = Num f' ∧
    if (1 <=? whole)%Z then
      f' == f + increment - inject_Z whole ∧
      Stats.totalReleased (stats e')
      = (Stats.totalReleased (stats e) + Z.min whole available)%Z
    else
      f' == f + increment ∧
      particlePool e' = particlePool e ∧ stats e' = stats e.
Proof.
  intros Hrun Hphase Hunits Hdur Hf increment whole available e'.
  subst e'. unfold executeContinuousRelease. rewrite Hrun, Hphase.
  cbn [negb].
  assert (Qeq_bool (UNITS_PER_PARTICLE e) 0 = false) as Hne.
  { apply not_true_iff_false. rewrite Qeq_bool_iff. lra. }
  assert (Qeq_bool (UNITS_PER_PARTICLE e) 0 || Qle_bool (UNITS_PER_PARTICLE e) 0
          = false) as ->.
  { apply orb_false_iff. split; [done|].
    apply not_true_iff_false. rewrite Qle_bool_iff. lra. }
  cbv zeta. cbn [particleFraction setParticleFraction].
  rewrite (getRate_of_duration phase Hdur), Hf.
  destruct (rateInBase_convert (total phase / (end_ phase - start phase))
              (unit phase)) as (r & -> & Hr).
  unfold jsdiv. rewrite Hne. cbn [jsmul jsadd jsfloor jsleb jssub jsneg].
  set (incM := r / UNITS_PER_PARTICLE e * deltaDays).
  assert (incM == increment) as Hinc.
  { subst incM increment. by rewrite Hr. }
  assert (Qfloor (f + incM) = whole) as ->.
  { subst whole. apply Qfloor_comp. by rewrite Hinc. }
  assert (Qle_bool 1 (inject_Z whole) = (1 <=? whole)%Z) as ->.
  { destruct (1 <=? whole)%Z eqn:Hw.
    - apply Qle_bool_iff. apply Z.leb_le in Hw. change 1 with (inject_Z 1).
      by rewrite <- Zle_Qle.
    - apply not_true_iff_false. rewrite Qle_bool_iff. apply Z.leb_gt in Hw.
      change 1 with (inject_Z 1). rewrite <- Zle_Qle. lia. }
  destruct (1 <=? whole)%Z eqn:Hw.
  - unfold releaseParticles.
    pose proof (releaseLoop_count e whole normals (particlePool e) 0) as Hc.
    cbn [particlePool setParticleFraction].
    rewrite !releaseLoop_particleFraction.
    destruct (releaseLoop _ _ _ _ _) as [pool n].
    cbn [fst snd] in Hc. cbn [particleFraction setStats setPool
      setParticleFraction stats Stats.totalReleased Stats.setTotalReleased].
    apply Z.leb_le in Hw. eexists. split; [reflexivity|].
    split; [lra|]. subst available. lia.
  - eexists. split; [reflexivity|]. split; [lra|done].
Qed.

(** X8.  [executeContinuousRelease] does nothing on a paused engine, outside
    every phase, or when [UNITS_PER_PARTICLE] is not positive.  Otherwise,
    for a phase that has a duration and a carried fraction that is a
    number, it adds to [particleFraction] the particles due in the step,
    that is the rate of the first phase containing the day, converted to
    GBq as [convertToBaseUnit] does, divided by [UNITS_PER_PARTICLE] and
    multiplied by [deltaDays]; it requests the release of the whole part
    when that is at least one and keeps the rest, so that nothing due is
    dropped and, when the sum is not negative, the carried fraction stays
    in [[0, 1)]. *)
Theorem continuous_release_carries_the_fraction (e : Engine.t)
    (deltaDays : Q) (normals : nat → Q * Q) :
  let e' := executeContinuousRelease e deltaDays normals in
  let available :=
    Z.of_nat (length (filter (λ p, Particle.active p = false) (particlePool e))) in
  ((isRunning e = false ∨ activePhase e = None ∨ UNITS_PER_PARTICLE e <= 0) →
   e' = e) ∧
  (∀ phase f,
     isRunning e = true → activePhase e = Some phase →
     0 < UNITS_PER_PARTICLE e →
     start phase < end_ phase → particleFraction e = Num f →
     let increment :=
       convertToBaseUnit (total phase / (end_ phase - start phase)) (unit phase)
       / UNITS_PER_PARTICLE e * deltaDays in
     ∃ (requested : Z) (f' : Q),
       particleFraction e' = Num f' ∧
       (0 <= requested)%Z ∧
       f' + inject_Z requested == f + increment ∧
       Stats.totalReleased (stats e')
       = (Stats.totalReleased (stats e) + Z.min requested available)%Z ∧
       (0 <= f + increment → 0 <= f' ∧ f' < 1)).
Proof.
  intros e' available. split.
  - subst e'. unfold executeContinuousRelease.
    intros [Hrun|[Hphase|Hunits]].
    + by rewrite Hrun.
    + rewrite Hphase. by case_match.
    + apply Qle_bool_iff in Hunits. rewrite Hunits, orb_true_r.
      by repeat case_match.
  - intros phase f Hrun Hphase Hunits Hdur Hf increment.
    pose proof (executeContinuousRelease_spec e deltaDays normals phase f
                  Hrun Hphase Hunits Hdur Hf) as Hspec.
    cbv zeta in Hspec. fold increment available e' in Hspec.
    destruct Hspec as (f' & Hf' & Hspec).
    pose proof (Qfloor_le (f + increment)) as Hlo.
    pose proof (Qlt_floor (f + increment)) as Hhi.
    destruct (1 <=? Qfloor (f + increment))%Z eqn:Hw.
    + apply Z.leb_le in Hw. destruct Hspec as [Hq Ht].
      exists (Qfloor (f + increment)), f'. split; [done|].
      split; [lia|]. split; [rewrite Hq; ring|]. split; [done|].
      intros _. rewrite Hq.
      rewrite inject_Z_plus in Hhi. change (inject_Z 1) with 1 in Hhi.
      split; lra.
    + apply Z.leb_gt in Hw. destruct Hspec as (Hq & _ & Hst).
      exists 0%Z, f'. split; [done|]. split; [lia|].
      split; [rewrite Hq; change (inject_Z 0) with 0; ring|].
      split; [rewrite Hst; lia|].
      intros Hnn. rewrite Hq. split; [done|].
      assert (Qfloor (f + increment) <= 0)%Z as Hle by lia.
      rewrite inject_Z_plus in Hhi. change (inject_Z 1) with 1 in Hhi.
      rewrite Zle_Qle in Hle. change (inject_Z 0) with 0 in Hle. lra.
Qed.

Lemma conversions_pos (u : string) : 0 < conversions u.
Proof. unfold conversions. repeat case_decide; reflexivity. Qed.

(** X9.  With a schedule of a single phase the calibration and the release
    rate agree: whatever the unit and the total of the phase, a running
    engine whose day lies in the phase adds [particleCount * deltaDays /
    (end - start)] particles to the carried fraction in a step, so that the
    steps of the whole phase add up to the whole pool. *)
Theorem single_phase_releases_the_pool (e : Engine.t) (phase : ReleasePhase.t)
    (deltaDays f : Q) (normals : nat → Q * Q) :
  start phase < end_ phase → 0 < total phase → (0 < particleCount e)%nat →
  isRunning e = true → particleFraction e = Num f →
  contains (Stats.simulationDays (stats e)) phase = true →
  let e1 := setReleasePhases e [phase] in
  let e' := executeContinuousRelease e1 deltaDays normals in
  let increment :=
    inject_Z (Z.of_nat (particleCount e)) * deltaDays
    / (end_ phase - start phase) in
  ∃ f', particleFraction e' = Num f' ∧
    if (1 <=? Qfloor (f + increment))%Z then
      f' == f + increment - inject_Z (Qfloor (f + increment))
    else f' == f + increment.
Proof.
  intros Hdur Htotal Hn Hrun Hf Hin e1 e' increment.
  pose proof (conversions_pos (unit phase)) as Hconv.
  assert (0 < inject_Z (Z.of_nat (particleCount e))) as HnQ.
  { change 0 with (inject_Z 0). rewrite <- Zlt_Qlt. lia. }
  assert (UNITS_PER_PARTICLE e1
          == total phase * conversions (unit phase)
             / inject_Z (Z.of_nat (particleCount e))) as Hunits.
  { unfold e1, setReleasePhases, calculateParticleCalibration, Qltb,
      getParticleActivity.
    cbn [UNITS_PER_PARTICLE setUnitsPerParticle releaseManager
         setReleaseManager particleCount].
    match goal with
    | |- context [getTotalRelease ?m] =>
        assert (getTotalRelease m == total phase * conversions (unit phase))
          as Htot by (rewrite getTotalRelease_sum; simpl; ring);
        generalize dependent (getTotalRelease m)
    end.
    intros T HT. destruct (Qle_bool T 0) eqn:Hle.
    - apply Qle_bool_iff in Hle. rewrite HT in Hle. nra.
    - cbn [negb]. by rewrite HT. }
  assert (0 < UNITS_PER_PARTICLE e1) as Hpos.
  { rewrite Hunits. apply Qlt_shift_div_l; [done|]. nra. }
  assert (activePhase e1 = Some phase) as Hphase.
  { unfold activePhase. simpl. by rewrite Hin. }
  pose proof (executeContinuousRelease_spec e1 deltaDays normals phase f
                Hrun Hphase Hpos Hdur Hf) as Hspec.
  cbv zeta in Hspec. fold e' in Hspec. destruct Hspec as (f' & Hf' & Hspec).
  assert (convertToBaseUnit (total phase / (end_ phase - start phase))
            (unit phase)
          / UNITS_PER_PARTICLE e1 * deltaDays == increment) as Hinc.
  { subst increment. rewrite Hunits. unfold convertToBaseUnit. field.
    repeat split; lra. }
  assert (Qfloor (f
                  + convertToBaseUnit
                      (total phase / (end_ phase - start phase)) (unit phase)
                    / UNITS_PER_PARTICLE e1 * deltaDays)
          = Qfloor (f + increment)) as Hfloor.
  { apply Qfloor_comp. by rewrite Hinc. }
  rewrite Hfloor in Hspec. exists f'. split; [done|].
  destruct (1 <=? _)%Z.
  - destruct Hspec as [-> _]. by rewrite Hinc.
  - destruct Hspec as [-> _]. by rewrite Hinc.
Qed.
End ContinuousRelease.

Lemma single_phase_releases_the_pool_witness :
  ∃ f',
    Engine.particleFraction
      (@Engine.executeContinuousRelease sampleMath
         (Engine.setReleasePhases (Engine.startSimulation sampleEngine)
            [ReleasePhase.make 0 30 10 "PBq"]) 3 zeroNormals) = Num f' ∧
    f' == 3 / 30.
Proof.
  destruct (@single_phase_releases_the_pool sampleMath
              (Engine.startSimulation sampleEngine)
              (ReleasePhase.make 0 30 10 "PBq") 3 0 zeroNormals)
    as (f' & Hf' & Hval);
    [reflexivity|reflexivity|simpl; lia|reflexivity|reflexivity|reflexivity|].
  exists f'. split; [exact Hf'|]. exact Hval.
Defined.

(** ** Velocity lookup and the integrators *)

Section Integrators.
Import Engine.
Context `{!JsMath} `{!HycomLoader.t} `{!EkeLoader.t}.

Lemma closestDepth_spec (z : Q) (ds : list Q) (t : Q) :
  let r := closestDepth (Num z) ds (Num (Qabs (z - t))) t in
  (r = t ∨ r ∈ ds) ∧
  Qabs (z - r) <= Qabs (z - t) ∧
  ∀ d, d ∈ ds → Qabs (z - r) <= Qabs (z - d).
Proof.
  revert t. induction ds as [|d ds IH]; intros t; cbn [closestDepth].
  { split; [by left|]. split; [lra|]. intros d Hd. by apply elem_of_nil in Hd. }
  cbv zeta. cbn [jssub jsneg jsadd jsabs jsltb].
  change (z + - d) with (z - d). unfold Qltb.
  destruct (Qle_bool (Qabs (z - t)) (Qabs (z - d))) eqn:Hle; cbn [negb].
  - apply Qle_bool_iff in Hle. destruct (IH t) as ([Hr|Hr] & Hm & Hall).
    + split; [by left|]. split; [done|].
      intros d' [->|Hd']%elem_of_cons; [lra|by apply Hall].
    + split; [right; by apply elem_of_cons; right|]. split; [done|].
      intros d' [->|Hd']%elem_of_cons; [lra|by apply Hall].
  - assert (Qabs (z - d) < Qabs (z - t)) as Hlt.
    { apply Qnot_le_lt. intros Hc. apply Qle_bool_iff in Hc. congruence. }
    destruct (IH d) as ([Hr|Hr] & Hm & Hall).
    + split; [right; rewrite Hr; by apply elem_of_cons; left|].
      split; [lra|].
      intros d' [->|Hd']%elem_of_cons; [done|by apply Hall].
    + split; [right; by apply elem_of_cons; right|]. split; [lra|].
      intros d' [->|Hd']%elem_of_cons; [done|by apply Hall].
Qed.

(** X10.  The engine asks the current field at the depth level nearest to
    the particle: [snapDepth] yields one of the available depth levels, and
    no level is closer to the requested depth; it yields [undefined] only
    when no level is available. *)
Theorem snapDepth_is_a_nearest_level (depthMeters : Q) :
  match snapDepth (Num depthMeters) with
  | Some d =>
      d ∈ HycomLoader.getAvailableDepths ∧
      ∀ d', d' ∈ HycomLoader.getAvailableDepths →
            Qabs (depthMeters - d) <= Qabs (depthMeters - d')
  | None => HycomLoader.getAvailableDepths = []
  end.
Proof.
  unfold snapDepth.
  destruct HycomLoader.getAvailableDepths as [|d0 ds] eqn:Hds; [done|].
  cbn [jssub jsneg jsadd jsabs]. change (depthMeters + - d0) with (depthMeters - d0).
  destruct (closestDepth_spec depthMeters (d0 :: ds) d0) as ([Hr|Hr] & _ & Hall).
  - split; [rewrite Hr; by apply elem_of_cons; left|done].
  - done.
Qed.

(** X11.  The RK4 sub-step is kept within its limits: with
    [minStepSize <= maxStepSize], [calculateOptimalStepSize] never exceeds
    the step to integrate nor [maxStepSize], and it drops below
    [minStepSize] only when the whole step is shorter. *)
Theorem optimal_step_size_is_clamped (e : Engine.t) (p : Particle.t)
    (totalDeltaDays : Q) :
  minStepSize (rk4Settings e) <= maxStepSize (rk4Settings e) →
  let h := calculateOptimalStepSize e p totalDeltaDays in
  h <= totalDeltaDays ∧
  h <= maxStepSize (rk4Settings e) ∧
  Qmin (minStepSize (rk4Settings e)) totalDeltaDays <= h.
Proof.
  intros Hmm h. subst h. unfold calculateOptimalStepSize.
  destruct (adaptiveStepSize (rk4Settings e)); simpl.
  - set (c := 1.0 / _ * _).
    split; [apply Q.le_min_r|]. split.
    + eapply Qle_trans; [apply Q.le_min_l|].
      apply Q.max_lub; [apply Q.le_min_r|done].
    + apply Q.min_glb.
      * eapply Qle_trans; [apply Q.le_min_l|]. apply Q.le_max_r.
      * apply Q.le_min_r.
  - split; [apply Q.le_min_l|]. split; [apply Q.le_min_r|].
    apply Q.min_glb.
    + apply Q.le_min_r.
    + eapply Qle_trans; [apply Q.le_min_l|]. done.
Qed.

(** X12.  Where the current field has no velocity, RK4 does not move the
    particle: if no velocity is found at the particle's place and depth,
    whatever the time, [rk4Integrate] over a positive step with positive
    step-size settings returns the particle's own position and depth with
    zero velocity, as [eulerIntegrate] does. *)
Theorem rk4_without_velocity_stays (e : Engine.t) (p : Particle.t)
    (deltaDays currentSimDay : Q) :
  (∀ t, Velocity.found
          (getVelocityAt (lonOf e (Particle.x p)) (latOf e (Particle.y p))
             (jsmul (Particle.depth p) (Num 1000)) t) = false) →
  0 < deltaDays →
  0 < minStepSize (rk4Settings e) → 0 < maxStepSize (rk4Settings e) →
  rk4Integrate e p deltaDays currentSimDay
  = {| int_x := Particle.x p; int_y := Particle.y p;
       int_depth := Particle.depth p; u_avg := 0; v_avg := 0 |} ∧
  eulerIntegrate e p deltaDays currentSimDay
  = rk4Integrate e p deltaDays currentSimDay.
Proof.
  intros Hnone Hdd Hmin Hmax.
  assert (eulerIntegrate e p deltaDays currentSimDay
          = {| int_x := Particle.x p; int_y := Particle.y p;
               int_depth := Particle.depth p; u_avg := 0; v_avg := 0 |}) as He.
  { unfold eulerIntegrate. by rewrite Hnone. }
  assert (rk4Integrate e p deltaDays currentSimDay
          = eulerIntegrate e p deltaDays currentSimDay) as Hr.
  { unfold rk4Integrate.
    pose proof (calculateOptimalStepSize_pos e p deltaDays Hmin Hmax Hdd) as Hh.
    assert (1 <= Qceiling (deltaDays / calculateOptimalStepSize e p deltaDays))%Z
      as Hsteps.
    { apply Qceiling_pos. by apply Qlt_shift_div_l; [|lra]. }
    destruct (Z.to_nat _) as [|n] eqn:Hn; [lia|].
    cbn [rk4Loop]. unfold rk4Step. by rewrite Hnone. }
  by rewrite Hr, He.
Qed.
End Integrators.

Lemma optimal_step_size_is_clamped_witness :
  @Engine.calculateOptimalStepSize sampleMath sampleEngine sampleParticle 1 <= 1.
Proof.
  destruct (@optimal_step_size_is_clamped sampleMath sampleEngine
              sampleParticle 1) as [Hle _]; [simpl; lra|exact Hle].
Defined.

Lemma rk4_without_velocity_stays_witness :
  @Engine.rk4Integrate sampleMath sampleCoast sampleEngine
    (Engine.Particle.setXY sampleParticle 1 0) 1 0
  = {| Engine.int_x := 1; Engine.int_y := 0; Engine.int_depth := Num 0;
       Engine.u_avg := 0; Engine.v_avg := 0 |}.
Proof.
  destruct (@rk4_without_velocity_stays sampleMath sampleCoast sampleEngine
              (Engine.Particle.setXY sampleParticle 1 0) 1 0) as [Hstay _];
    [intros t; reflexivity|reflexivity|reflexivity|reflexivity|exact Hstay].
Defined.

(** ** Interpolation between two snapshots *)

Section Interpolation.
Import Bake.
Context `{!JsMath}.

Lemma lerp_between (t a b : Q) :
  0 <= t → t <= 1 →
  Qmin a b <= a + t * (b - a) ∧ a + t * (b - a) <= Qmax a b.
Proof.
  intros Ht0 Ht1. destruct (Qlt_le_dec a b) as [Hab|Hab].
  - rewrite Q.min_l, Q.max_r by lra. split; nra.
  - rewrite Q.min_r, Q.max_l by lra. split; nra.
Qed.

(** X13.  A frame between two snapshots never shows a particle outside the
    span of its two records: for a factor in [[0, 1]] the interpolated
    position, depth, mass and age lie between the values of the two
    records, they are those of the first record at factor 0 and those of
    the second at factor 1, and the interpolated record is active. *)
Theorem interpolation_stays_between (t : Q) (p1 p2 : BakedParticle.t) :
  0 <= t → t <= 1 →
  let q := interpolatePair t p1 p2 in
  (Qmin (BakedParticle.x p1) (BakedParticle.x p2) <= BakedParticle.x q ∧
   BakedParticle.x q <= Qmax (BakedParticle.x p1) (BakedParticle.x p2)) ∧
  (Qmin (BakedParticle.y p1) (BakedParticle.y p2) <= BakedParticle.y q ∧
   BakedParticle.y q <= Qmax (BakedParticle.y p1) (BakedParticle.y p2)) ∧
  (Qmin (BakedParticle.depth p1) (BakedParticle.depth p2)
   <= BakedParticle.depth q ∧
   BakedParticle.depth q
   <= Qmax (BakedParticle.depth p1) (BakedParticle.depth p2)) ∧
  (Qmin (BakedParticle.mass p1) (BakedParticle.mass p2) <= BakedParticle.mass q ∧
   BakedParticle.mass q <= Qmax (BakedParticle.mass p1) (BakedParticle.mass p2)) ∧
  (Qmin (BakedParticle.age p1) (BakedParticle.age p2) <= BakedParticle.age q ∧
   BakedParticle.age q <= Qmax (BakedParticle.age p1) (BakedParticle.age p2)) ∧
  (t == 0 → BakedParticle.x q == BakedParticle.x p1 ∧
            BakedParticle.y q == BakedParticle.y p1) ∧
  (t == 1 → BakedParticle.x q == BakedParticle.x p2 ∧
            BakedParticle.y q == BakedParticle.y p2) ∧
  BakedParticle.active q = true.
Proof.
  intros Ht0 Ht1 q. subst q. unfold interpolatePair.
  cbn [BakedParticle.x BakedParticle.y BakedParticle.depth BakedParticle.mass
       BakedParticle.age BakedParticle.active].
  split; [by apply lerp_between|]. split; [by apply lerp_between|].
  split; [by apply lerp_between|]. split; [by apply lerp_between|].
  split; [by apply lerp_between|].
  split; [intros ->; split; ring|]. split; [intros ->; split; ring|done].
Qed.
End Interpolation.

Lemma interpolation_stays_between_witness :
  Qmin 0 10 <= Bake.BakedParticle.x
                 (@Bake.interpolatePair sampleMath (1 # 2) (bakedAt 0) (bakedAt 10)) ∧
  Bake.BakedParticle.x
    (@Bake.interpolatePair sampleMath (1 # 2) (bakedAt 0) (bakedAt 10))
  <= Qmax 0 10.
Proof.
  destruct (@interpolation_stays_between sampleMath (1 # 2) (bakedAt 0)
              (bakedAt 10)) as [Hx _]; [lra|lra|exact Hx].
Defined.

(** ** The record of the greatest depth *)

Section DepthRecord.
Import Engine.
Context `{!JsMath} `{!HycomLoader.t} `{!EkeLoader.t}.

Lemma applyVerticalMotion_record e st p dtSeconds g d m :
  Particle.depth p = Num d →
  0 <= 2 * getVerticalDiffusivity e (Num (d * 1000)) * dtSeconds →
  Stats.maxDepthReached st = Num m →
  let r := applyVerticalMotion e st p dtSeconds g in
  ∃ m', Stats.maxDepthReached r.2 = Num m' ∧ m <= m' ∧
        (m <= 1000 → m' <= 1000) ∧ belowRecord m' r.1.
Proof.
  intros Hd Hrad Hm r. subst r.
  destruct (applyVerticalMotion_depth_Num e st p dtSeconds g d Hd Hrad)
    as (disp & c & _ & Hc & _ & Hc0 & Hc1).
  rewrite applyVerticalMotion_depth in Hc.
  unfold applyVerticalMotion. cbv zeta.
  cbn [Particle.depth Particle.setDepth]. rewrite Hc, Hm.
  cbn [jsmul jsltb]. unfold Qltb.
  destruct (Qle_bool (c * 1000) m) eqn:Hle; cbn [negb fst snd].
  - apply Qle_bool_iff in Hle. exists m. split; [done|]. split; [lra|].
    split; [done|]. by exists c.
  - assert (m < c * 1000) as Hlt.
    { apply Qnot_le_lt. intros Hn. apply Qle_bool_iff in Hn. congruence. }
    exists (c * 1000). split; [done|]. split; [lra|]. split; [intros _; lra|].
    exists c. repeat split; (done || lra).
Qed.

Lemma processParticle_record e st p velocity draws deltaDays day m :
  kzNotNegative e → 0 <= deltaDays →
  Stats.maxDepthReached st = Num m → belowRecord m p →
  let r := processParticle e st p velocity draws deltaDays day in
  ∃ m', Stats.maxDepthReached r.2 = Num m' ∧ m <= m' ∧
        (m <= 1000 → m' <= 1000) ∧ belowRecord m' r.1.
Proof.
  intros Hkz Hdd Hm (d & Hd & Hd0 & Hd1 & Hdm) r. subst r.
  unfold processParticle.
  pose proof (checkLandInteraction_depth e
    (diffusionStage e (advectionStage e p velocity deltaDays day)
       deltaDays day (diffusionX draws) (diffusionY draws))
    (Particle.x p) (Particle.y p) (Particle.depth p) day) as [Hsea Hland].
  destruct (checkLandInteraction _ _ _ _ _ _) as [p3 onLand].
  cbn [fst snd] in Hsea, Hland.
  destruct onLand; cbn [fst snd].
  - exists m. split; [done|]. split; [lra|]. split; [done|].
    exists d. by rewrite Hland.
  - assert (Hp3 : Particle.depth p3 = Num d).
    { by rewrite Hsea, diffusionStage_depth, advectionStage_depth. }
    assert (∃ p4 st4 m',
      (if verticalMixing (params e)
       then applyVerticalMotion e st p3 (deltaDays * 86400) (verticalZ draws)
       else (p3, st)) = (p4, st4) ∧
      Stats.maxDepthReached st4 = Num m' ∧ m <= m' ∧
      (m <= 1000 → m' <= 1000) ∧ belowRecord m' p4)
      as (p4 & st4 & m' & -> & Hm' & Hmono & Hup & (c & Hc & Hc0 & Hc1 & Hcm)).
    { destruct (verticalMixing (params e)).
      - destruct (applyVerticalMotion_record e st p3 (deltaDays * 86400)
                    (verticalZ draws) d m Hp3) as (m' & Hr); [|done|].
        { pose proof (getVerticalDiffusivity_nonneg e (Num (d * 1000)) Hkz).
          apply Qmult_le_0_compat; [|lra]. apply Qmult_le_0_compat; [lra|done]. }
        destruct (applyVerticalMotion _ _ _ _ _) as [p4 st4].
        exists p4, st4, m'. by split.
      - exists p3, st, m. split; [done|]. split; [done|]. split; [lra|].
        split; [done|]. by exists d. }
    exists m'. repeat case_match; cbn [fst snd]; simpl;
      (split; [done|]); (split; [done|]); (split; [done|]); by exists c.
Qed.

Lemma belowRecord_mono m m' p : m <= m' → belowRecord m p → belowRecord m' p.
Proof.
  intros Hle (d & Hd & Hd0 & Hd1 & Hdm). exists d. repeat split; (done || lra).
Qed.

Lemma updateLoop_record e st pool velocities draws deltaDays day m :
  kzNotNegative e → 0 <= deltaDays →
  Stats.maxDepthReached st = Num m → Forall (belowRecord m) pool →
  let r := updateLoop e st pool velocities draws deltaDays day in
  ∃ m', Stats.maxDepthReached r.2 = Num m' ∧ m <= m' ∧
        (m <= 1000 → m' <= 1000) ∧ Forall (belowRecord m') r.1.
Proof.
  intros Hkz Hdd. revert st m.
  induction pool as [|p pool IH]; intros st m Hm Hpool; cbn [updateLoop].
  { exists m. split; [done|]. split; [lra|done]. }
  apply Forall_cons in Hpool as [Hp Hpool].
  assert (∃ p' st' m1,
    (if Particle.active p
     then processParticle e st p (velocities (Particle.id p))
            (draws (Particle.id p)) deltaDays day
     else (p, st)) = (p', st') ∧
    Stats.maxDepthReached st' = Num m1 ∧ m <= m1 ∧
    (m <= 1000 → m1 <= 1000) ∧ belowRecord m1 p')
    as (p' & st' & m1 & -> & Hm1 & Hmono & Hup & Hp').
  { destruct (Particle.active p).
    - destruct (processParticle_record e st p (velocities (Particle.id p))
                  (draws (Particle.id p)) deltaDays day m Hkz Hdd Hm Hp)
        as (m1 & Hr).
      destruct (processParticle _ _ _ _ _ _ _) as [p' st'].
      exists p', st', m1. by split.
    - exists p, st, m. split; [done|]. split; [done|]. split; [lra|done]. }
  assert (Forall (belowRecord m1) pool) as Hpool'.
  { eapply Forall_impl; [exact Hpool|]. intros q. by apply belowRecord_mono. }
  destruct (IH st' m1 Hm1 Hpool') as (m2 & Hr). cbv zeta in Hr.
  destruct (updateLoop _ _ _ _ _ _ _) as [rest st''].
  cbn [fst snd] in *. destruct Hr as (Hm2 & Hmono' & Hup' & Hrest).
  exists m2. split; [done|]. split; [lra|]. split; [auto|].
  constructor; [by apply (belowRecord_mono m1)|done].
Qed.

Lemma releaseLoop_record m e count normals pool released :
  0 <= m →
  Forall (belowRecord m) pool →
  Forall (belowRecord m) (releaseLoop e count normals pool released).1.
Proof.
  intros Hm Hpool. revert released.
  induction Hpool as [|p pool Hp Hrest IH]; intros released; simpl; [done|].
  destruct (Particle.active p).
  - specialize (IH released). destruct (releaseLoop _ _ _ _ _) as [rest n].
    by constructor.
  - case_match; [by constructor|].
    destruct (normals (Particle.id p)) as [z0 z1].
    specialize (IH (released + 1)%Z). destruct (releaseLoop _ _ _ _ _) as [rest n].
    constructor; [|done]. exists 0. simpl. repeat split; (done || lra).
Qed.

Lemma releaseParticles_record m e count normals :
  0 <= m → Stats.maxDepthReached (stats e) = Num m →
  Forall (belowRecord m) (particlePool e) →
  let e' := releaseParticles e count normals in
  Stats.maxDepthReached (stats e') = Num m ∧
  Forall (belowRecord m) (particlePool e').
Proof.
  intros Hm Hst Hpool e'. subst e'. unfold releaseParticles.
  pose proof (releaseLoop_record m e count normals (particlePool e) 0%Z
                Hm Hpool) as Hl.
  destruct (releaseLoop _ _ _ _ _) as [pool released]. by split.
Qed.

Lemma executeContinuousRelease_record m e deltaDays normals :
  0 <= m → Stats.maxDepthReached (stats e) = Num m →
  Forall (belowRecord m) (particlePool e) →
  let e' := executeContinuousRelease e deltaDays normals in
  Stats.maxDepthReached (stats e') = Num m ∧
  Forall (belowRecord m) (particlePool e').
Proof.
  intros Hm Hst Hpool e'. subst e'. unfold executeContinuousRelease.
  repeat case_match; try done;
    match goal with
    | |- context [releaseParticles ?e1 ?c ?n] =>
        exact (releaseParticles_record m e1 c n Hm Hst Hpool)
    end.
Qed.

Lemma update_record m e deltaDays normals velocities draws :
  kzNotNegative e → 0 <= deltaDays →
  0 <= m → m <= 1000 → Stats.maxDepthReached (stats e) = Num m →
  Forall (belowRecord m) (particlePool e) →
  let e' := update e deltaDays normals velocities draws in
  ∃ m', Stats.maxDepthReached (stats e') = Num m' ∧ m <= m' ∧ m' <= 1000 ∧
        Forall (belowRecord m') (particlePool e').
Proof.
  intros Hkz Hdd Hm0 Hm1 Hst Hpool e'. subst e'. unfold update.
  destruct (isRunning e); cbn [negb]; [|exists m; repeat split; (done || lra)].
  destruct (executeContinuousRelease_record m e deltaDays normals Hm0 Hst Hpool)
    as [Hst1 Hpool1].
  assert (Hkz1 : kzNotNegative (executeContinuousRelease e deltaDays normals)).
  { unfold kzNotNegative. by rewrite executeContinuousRelease_kzProfile. }
  set (e1 := executeContinuousRelease e deltaDays normals) in *.
  destruct (updateLoop_record e1 (Stats.setParticlesOnLand (stats e1) 0)
              (particlePool e1) velocities draws deltaDays
              (Stats.simulationDays (stats e1)) m Hkz1 Hdd Hst1 Hpool1)
    as (m' & Hl).
  cbv zeta in Hl. unfold updateParticles.
  destruct (negb (isRunning e1)); [exists m; repeat split; (done || lra)|].
  destruct (_ =? _)%nat; [exists m; repeat split; (done || lra)|].
  destruct (updateLoop _ _ _ _ _ _ _) as [pool st'].
  cbn [fst snd] in Hl. destruct Hl as (Hst' & Hmono & Hup & Hpool').
  exists m'. cbn. split; [done|]. split; [done|]. split; [auto|done].
Qed.

(** X14.  [stats.maxDepthReached] is a true record: in every engine that
    the public operations produce by steps that do not go back in time, it
    is a number between 0 and 1000 metres, and no particle of the pool is
    deeper than it. *)
Theorem maxDepthReached_bounds_every_particle (e : Engine.t) :
  Reachable e →
  ∃ m, Stats.maxDepthReached (stats e) = Num m ∧ 0 <= m ∧ m <= 1000 ∧
       Forall (λ p, ∃ d, Particle.depth p = Num d ∧ d * 1000 <= m)
         (particlePool e).
Proof.
  intros Hr.
  assert (∃ m, Stats.maxDepthReached (stats e) = Num m ∧ 0 <= m ∧ m <= 1000 ∧
               Forall (belowRecord m) (particlePool e)) as (m & Hm & Hlo & Hhi & Hp).
  { induction Hr as [n tid loc doy|e _ IH|e _ IH|e _ IH|e _ IH|e count normals _ IH
                    |e dd normals vs ds Hdd Hr IH|e phases _ IH|e enable _ IH
                    |e name value _ IH].
    - exists 0. unfold new, initializeParticlePool. cbn.
      split; [done|]. split; [lra|]. split; [lra|].
      apply Forall_fmap, Forall_forall. intros i _. exists 0. cbn.
      repeat split; (done || lra).
    - unfold startSimulation. by repeat case_match.
    - unfold pauseSimulation. by case_match.
    - unfold resumeSimulation. by case_match.
    - exists 0. unfold resetSimulation. cbn.
      split; [done|]. split; [lra|]. split; [lra|].
      apply Forall_fmap, Forall_forall. intros p _. exists 0. cbn.
      repeat split; (done || lra).
    - destruct IH as (m & Hm & Hm0 & Hm1 & Hpool).
      destruct (releaseParticles_record m e count normals Hm0 Hm Hpool)
        as [Hm' Hp']. by exists m.
    - destruct IH as (m & Hm & Hm0 & Hm1 & Hpool).
      destruct (update_record m e dd normals vs ds
                  (Reachable_kzNotNegative e Hr) Hdd Hm0 Hm1 Hm Hpool)
        as (m' & Hm' & Hmono & Hup & Hp').
      exists m'. split; [done|]. split; [lra|done].
    - done.
    - done.
    - unfold setParameter. by repeat case_match. }
  exists m. split; [done|]. split; [done|]. split; [done|].
  eapply Forall_impl; [exact Hp|]. intros p (d & Hd & _ & _ & Hdm). by exists d.
Qed.
End DepthRecord.

Lemma maxDepthReached_bounds_every_particle_witness :
  ∃ m, Engine.Stats.maxDepthReached (Engine.stats steppedEngine) = Num m ∧
       0 <= m ∧ m <= 1000 ∧
       Forall (λ p, ∃ d, Engine.Particle.depth p = Num d ∧ d * 1000 <= m)
         (Engine.particlePool steppedEngine).
Proof.
  apply (@maxDepthReached_bounds_every_particle sampleMath sampleCoast sampleEke).
  unfold steppedEngine.
  apply Engine.reach_update; [lra|].
  apply Engine.reach_release, Engine.reach_start, Engine.reach_new.
Defined.
